(** * Allocation planning engine of the stake-pool rebalancer

    A shallow embedding of the interactive rebalance tool: the edit state,
    the operator commands of the main loop ([r], [u], [s], [+], [-], [a],
    [b]), [autoRebalance], [validate] and [roundToLamports]; then the
    plan [saveState] writes, the operations [generateBashScripts]
    collects, the rows and figures of [printValidatorList] and
    [printHeader], [shortName] and [shortAddress], [validateVoteAccount],
    the pool fetcher [dumpPoolValidatorData], the logger, and the paging
    of the variant in [src/src/rebalance.ts].

    Numbers.  The program computes with JavaScript numbers.  They are
    modelled here as exact rationals ([Q]): [+], [-], [*], [/] and the
    comparisons are the exact ones, [Math.round x] is [floor (x + 1/2)]
    (ties towards +infinity, as ECMAScript defines it).  Binary rounding
    of IEEE-754 doubles, [Infinity] and the sign of zero are outside this
    model; [NaN] appears only as the result of [parseFloat]/[parseInt] and
    is modelled at those two places (see [validAt] and the commands).

    The module [Binary64] repeats the arithmetic of the engine over
    primitive binary64 floats, with rounding, [Infinity] and [NaN]; what
    turns on them is settled there.  Statements about sums of stake that
    are proved over the rationals carry an explicit allowance for the
    rounding of binary64 ([roundingAllowance]), and statements about
    exact amounts are made within the range where binary64 keeps
    lamports apart ([LAMPORT_EXACT_RANGE]). *)

From Stdlib Require Import QArith Qround Qminmax Qabs Lqa ZArith Lia.
From Stdlib Require Import Floats.
From Stdlib Require Uint63.

Set Warnings "-inexact-float".
From stdpp Require Import base list strings sorting.

Open Scope Q_scope.

(** ** Data model *)

(** [action?: 'remove' | 'keep' | 'add'] *)
Inductive Action := remove | keep | add.

#[global] Instance Action_eq_dec : EqDecision Action.
Proof. solve_decision. Defined.

(** [interface ValidatorData]; the two optional editing fields keep their
    [undefined] case as [None]. *)
Record ValidatorData := mkValidatorData {
  voteAccount : string;
  name : option string;
  stakeAccount : string;
  activeBalance : Q;
  activeBalanceLamports : string;
  transientStakeAccount : string;
  transientBalance : Q;
  transientBalanceLamports : string;
  targetBalance : option Q;
  action : option Action
}.

(** [interface EditState] *)
Record EditState := mkEditState {
  validators : list ValidatorData;
  newValidators : list ValidatorData;
  reserveAccount : string;
  reserveBalance : Q
}.

(** Field assignments [v.targetBalance = x] and [v.action = a]. *)
Definition set_targetBalance (x : Q) (v : ValidatorData) : ValidatorData :=
  mkValidatorData (voteAccount v) (name v) (stakeAccount v) (activeBalance v)
    (activeBalanceLamports v) (transientStakeAccount v) (transientBalance v)
    (transientBalanceLamports v) (Some x) (action v).

Definition set_action (a : Action) (v : ValidatorData) : ValidatorData :=
  mkValidatorData (voteAccount v) (name v) (stakeAccount v) (activeBalance v)
    (activeBalanceLamports v) (transientStakeAccount v) (transientBalance v)
    (transientBalanceLamports v) (targetBalance v) (Some a).

Definition with_validators (vs : list ValidatorData) (s : EditState) : EditState :=
  mkEditState vs (newValidators s) (reserveAccount s) (reserveBalance s).

Definition with_newValidators (nvs : list ValidatorData) (s : EditState) : EditState :=
  mkEditState (validators s) nvs (reserveAccount s) (reserveBalance s).

(** [v.action === 'remove'] and [v.action !== 'remove'] *)
Definition is_remove (v : ValidatorData) : bool :=
  match action v with Some remove => true | _ => false end.

Definition not_remove (v : ValidatorData) : bool := negb (is_remove v).

(** [v.targetBalance ?? v.activeBalance] and [v.targetBalance ?? 0] *)
Definition target (v : ValidatorData) : Q :=
  match targetBalance v with Some t => t | None => activeBalance v end.

Definition target0 (v : ValidatorData) : Q :=
  match targetBalance v with Some t => t | None => 0 end.

(** ** Number helpers *)

(** The strict comparisons [a < b] and [a > b]; [a <= b] is [Qle_bool] and
    [a === b] is [Qeq_bool]. *)
Definition Qltb (a b : Q) : bool := negb (Qle_bool b a).
Definition Qgtb (a b : Q) : bool := Qltb b a.

(** [Math.round] *)
Definition Math_round (x : Q) : Z := Qfloor (x + (1 # 2)).

(** [Math.min] on two numbers. *)
Definition Math_min (a b : Q) : Q := if Qle_bool a b then a else b.

Definition LAMPORTS_PER_SOL : Q := 1000000000 # 1.

(** [function roundToLamports(sol)]:
    [Math.round(sol * 1_000_000_000) / 1_000_000_000] *)
Definition roundToLamports (sol : Q) : Q :=
  inject_Z (Math_round (sol * LAMPORTS_PER_SOL)) / LAMPORTS_PER_SOL.

(** [arr.reduce((s, v) => s + f(v), 0)] *)
Definition reduce_sum {A} (f : A -> Q) (l : list A) : Q :=
  fold_left (fun s v => s + f v) l 0.

(** ** Array access *)

(** [const v = arr[idx]] guarded by [v !== undefined && idx >= 0].  [idx] is
    [parseInt(..., 10) - 1]: an integer, or [NaN], which fails every test
    of the loop exactly as [-1] does and is therefore read as [-1]. *)
Definition validAt (arr : list ValidatorData) (idx : Z) : option ValidatorData :=
  if (0 <=? idx)%Z then arr !! Z.to_nat idx else None.

(** [idx >= state.validators.length &&
     idx < state.validators.length + state.newValidators.length] *)
Definition inNewRange (s : EditState) (idx : Z) : bool :=
  (Z.of_nat (length (validators s)) <=? idx)%Z &&
  (idx <? Z.of_nat (length (validators s)) + Z.of_nat (length (newValidators s)))%Z.

(** [const newIdx = idx - state.validators.length] *)
Definition newIdx (s : EditState) (idx : Z) : Z :=
  (idx - Z.of_nat (length (validators s)))%Z.

(** ** What the loop prints

    Only the lines that tell the outcome of a command are kept. *)
Inductive Message :=
| InvalidValidatorNumber          (* 'Invalid validator number' *)
| InvalidValidatorNumberOrAmount  (* 'Invalid validator number or amount' *)
| CannotAddToRemoved              (* 'Cannot add to a validator marked for removal. ...' *)
| CannotDecreaseRemoved           (* 'Cannot decrease a validator marked for removal. ...' *)
| CannotGoBelowZero               (* 'Cannot go below 0. ...' *)
| ValidatorAlreadyExists          (* 'Validator already exists!' *)
| AlreadyInPool                   (* 'That vote account is already in the pool.' *)
| InvalidVoteAccount (error : option string)  (* 'Invalid: ...' *)
| Added                           (* 'Added: ...' *)
| NoValidatorsMarkedForRemoval    (* 'No validators marked for removal.' *)
| NoActiveValidators              (* 'No active validators to distribute to!' *)
| Redistributed.                  (* 'Redistributed ... SOL to ... validators' *)

(** ** autoRebalance *)

(** Sum of [activeBalance] over the validators marked [remove]. *)
Definition removedStake (s : EditState) : Q :=
  reduce_sum activeBalance (List.filter is_remove (validators s)).

(** The array [activeValidators] holds references to records of
    [state.validators]; it is modelled by the positions of those records.
    [positions p vs i] lists the positions (counted from [i]) of the
    records of [vs] that pass [p], in array order: [vs.filter(p)]. *)
Fixpoint positions (p : ValidatorData -> bool) (vs : list ValidatorData) (i : nat)
  : list nat :=
  match vs with
  | [] => []
  | v :: vs' => if p v then i :: positions p vs' (S i) else positions p vs' (S i)
  end.

(** Target of the record at position [i]. *)
Definition targetAt (vs : list ValidatorData) (i : nat) : Q :=
  match vs !! i with Some v => target v | None => 0 end.

(** The comparator [(a, b) => target(a) - target(b)]. *)
Definition compareTarget (vs : list ValidatorData) (a b : nat) : Q :=
  targetAt vs a - targetAt vs b.

(** [Array.prototype.sort] is stable, so with this comparator its result
    is determined: it is computed here by a stable insertion sort.  [a]
    comes from the left of every element of [l] in the unsorted array; it
    passes exactly the elements that compare strictly below it. *)
Fixpoint sort_insert (vs : list ValidatorData) (a : nat) (l : list nat) : list nat :=
  match l with
  | [] => [a]
  | b :: l' =>
      if Qltb (compareTarget vs b a) 0 then b :: sort_insert vs a l'
      else a :: b :: l'
  end.

Definition sort_by_target (vs : list ValidatorData) (l : list nat) : list nat :=
  foldr (sort_insert vs) [] l.

(** [state.validators.filter(v => v.action !== 'remove').sort(...)] *)
Definition activeValidators (s : EditState) : list nat :=
  sort_by_target (validators s) (positions not_remove (validators s) 0).

(** The first loop, "distribute from bottom to top".  It returns the
    records and what is left of [remaining]. *)
Fixpoint distribute (targetPerValidator : Q) (order : list nat)
    (vs : list ValidatorData) (remaining : Q) : list ValidatorData * Q :=
  match order with
  | [] => (vs, remaining)
  | i :: rest =>
      if Qle_bool remaining 0 then (vs, remaining)
      else
        match vs !! i with
        | None => distribute targetPerValidator rest vs remaining
        | Some v =>
            let currentTarget := target v in
            let deficit := targetPerValidator - currentTarget in
            if Qgtb deficit 0 then
              let toAdd := Math_min deficit remaining in
              distribute targetPerValidator rest
                (<[i := set_targetBalance (roundToLamports (currentTarget + toAdd)) v]> vs)
                (roundToLamports (remaining - toAdd))
            else distribute targetPerValidator rest vs remaining
        end
  end.

(** The second loop, "distribute equally". *)
Fixpoint spread (perValidator : Q) (order : list nat) (vs : list ValidatorData)
  : list ValidatorData :=
  match order with
  | [] => vs
  | i :: rest =>
      match vs !! i with
      | None => spread perValidator rest vs
      | Some v =>
          spread perValidator rest
            (<[i := set_targetBalance (roundToLamports (target v + perValidator)) v]> vs)
      end
  end.

(** [function autoRebalance(state)], with the line it prints. *)
Definition autoRebalance (s : EditState) : EditState * Message :=
  let removed := removedStake s in
  if Qeq_bool removed 0 then (s, NoValidatorsMarkedForRemoval)
  else
    let active := activeValidators s in
    if Nat.eqb (length active) 0 then (s, NoActiveValidators)
    else
      let totalActiveStake := reduce_sum (targetAt (validators s)) active in
      let newTotal := totalActiveStake + removed in
      let targetPerValidator := newTotal / inject_Z (Z.of_nat (length active)) in
      let '(vs1, remaining) := distribute targetPerValidator active (validators s) removed in
      let vs2 :=
        if Qgtb remaining 0
        then spread (remaining / inject_Z (Z.of_nat (length active))) active vs1
        else vs1 in
      (with_validators vs2 s, Redistributed).

(** ** validate *)

Definition totalCurrent (s : EditState) : Q :=
  reduce_sum activeBalance (validators s).

Definition totalTarget (s : EditState) : Q :=
  reduce_sum target (List.filter not_remove (validators s)).

Definition newValidatorStake (s : EditState) : Q :=
  reduce_sum target0 (newValidators s).

Definition totalWithNew (s : EditState) : Q := totalTarget s + newValidatorStake s.

Definition decreasedStake (s : EditState) : Q :=
  reduce_sum (fun v => let diff := activeBalance v - target v in
                       if Qgtb diff 0 then diff else 0)
             (List.filter not_remove (validators s)).

Definition availableReserve (s : EditState) : Q :=
  reserveBalance s + removedStake s + decreasedStake s.

Definition activeValidatorCount (s : EditState) : nat :=
  (length (List.filter not_remove (validators s)) + length (newValidators s))%nat.

Definition minStaked (s : EditState) : Q := inject_Z (Z.of_nat (activeValidatorCount s)).

Definition increasedStake (s : EditState) : Q :=
  reduce_sum (fun v => let diff := target v - activeBalance v in
                       if Qgtb diff 0 then diff else 0)
             (List.filter not_remove (validators s)).

Definition totalNeeded (s : EditState) : Q := increasedStake s + newValidatorStake s.

(** [function validate(state)] *)
Definition validate (s : EditState) : bool :=
  if Qgtb (totalNeeded s) (availableReserve s + (1 # 100)) then false
  else if Qltb (totalWithNew s) (minStaked s - (1 # 100)) then false
  else true.

(** ** The commands of the main loop

    Every command returns the next state and the outcome line it prints,
    if any.  An amount is [parseFloat(parts[2])]: [None] stands for [NaN]. *)

(** [r #]: mark a validator for removal. *)
Definition markRemoved (s : EditState) (idx : Z) : EditState * option Message :=
  match validAt (validators s) idx with
  | Some v =>
      (with_validators
         (<[Z.to_nat idx := set_targetBalance 0 (set_action remove v)]> (validators s)) s,
       None)
  | None => (s, Some InvalidValidatorNumber)
  end.

(** [u #]: undo a removal. *)
Definition undoRemoved (s : EditState) (idx : Z) : EditState * option Message :=
  match validAt (validators s) idx with
  | Some v =>
      (with_validators
         (<[Z.to_nat idx := set_targetBalance (activeBalance v) (set_action keep v)]>
            (validators s)) s,
       None)
  | None => (s, None)
  end.

(** [s # AMT]: set the target. *)
Definition setTarget (s : EditState) (idx : Z) (amount : option Q)
  : EditState * option Message :=
  match validAt (validators s) idx, amount with
  | Some v, Some a =>
      (with_validators (<[Z.to_nat idx := set_targetBalance a v]> (validators s)) s, None)
  | _, _ =>
      match inNewRange s idx, amount with
      | true, Some a =>
          match validAt (newValidators s) (newIdx s idx) with
          | Some nv =>
              (with_newValidators
                 (<[Z.to_nat (newIdx s idx) := set_targetBalance a nv]> (newValidators s)) s,
               None)
          | None => (s, None)
          end
      | _, _ => (s, None)
      end
  end.

(** [+ # AMT]: add to the target. *)
Definition addToTarget (s : EditState) (idx : Z) (addAmount : option Q)
  : EditState * option Message :=
  match validAt (validators s) idx, addAmount with
  | Some v, Some a =>
      if is_remove v then (s, Some CannotAddToRemoved)
      else
        let current := target v in
        (with_validators
           (<[Z.to_nat idx := set_targetBalance (roundToLamports (current + a)) v]>
              (validators s)) s,
         None)
  | _, _ =>
      match inNewRange s idx, addAmount with
      | true, Some a =>
          match validAt (newValidators s) (newIdx s idx) with
          | Some nv =>
              let current := target0 nv in
              (with_newValidators
                 (<[Z.to_nat (newIdx s idx) :=
                      set_targetBalance (roundToLamports (current + a)) nv]>
                    (newValidators s)) s,
               None)
          | None => (s, None)
          end
      | _, _ => (s, Some InvalidValidatorNumberOrAmount)
      end
  end.

(** [- # AMT]: subtract from the target. *)
Definition subtractFromTarget (s : EditState) (idx : Z) (subAmount : option Q)
  : EditState * option Message :=
  match validAt (validators s) idx, subAmount with
  | Some v, Some a =>
      if is_remove v then (s, Some CannotDecreaseRemoved)
      else
        let current := target v in
        let newTarget := roundToLamports (current - a) in
        if Qltb newTarget 0 then (s, Some CannotGoBelowZero)
        else
          (with_validators
             (<[Z.to_nat idx := set_targetBalance newTarget v]> (validators s)) s,
           None)
  | _, _ =>
      match inNewRange s idx, subAmount with
      | true, Some a =>
          match validAt (newValidators s) (newIdx s idx) with
          | Some nv =>
              let current := target0 nv in
              let newTarget := roundToLamports (current - a) in
              if Qltb newTarget 0 then (s, Some CannotGoBelowZero)
              else
                (with_newValidators
                   (<[Z.to_nat (newIdx s idx) := set_targetBalance newTarget nv]>
                      (newValidators s)) s,
                 None)
          | None => (s, None)
          end
      | _, _ => (s, Some InvalidValidatorNumberOrAmount)
      end
  end.

(** What [validateVoteAccount] answers; the lookup on chain is not part of
    the engine, its answer is an input of the command. *)
Record VoteAccountCheck := mkVoteAccountCheck {
  valid : bool;
  checkedVoteAccount : string;
  checkError : option string
}.

(** [state.validators.some(v => v.voteAccount === x) ||
     state.newValidators.some(v => v.voteAccount === x)] *)
Definition voteAccountExists (s : EditState) (x : string) : bool :=
  existsb (fun v => String.eqb (voteAccount v) x) (validators s) ||
  existsb (fun v => String.eqb (voteAccount v) x) (newValidators s).

(** The record pushed by [a VOTE]. *)
Definition newValidator (toAdd : string) (validatorName : option string) : ValidatorData :=
  {| voteAccount := toAdd;
     name := validatorName;
     stakeAccount := "";
     activeBalance := 0;
     activeBalanceLamports := "0";
     transientStakeAccount := "";
     transientBalance := 0;
     transientBalanceLamports := "0";
     targetBalance := Some 0;
     action := Some add |}.

(** [a VOTE]: add a new validator.  [result] is the answer of
    [validateVoteAccount(voteAccount)] and [validatorName] that of
    [fetchValidatorName(toAdd)]; they are consulted only on the paths
    where the loop awaits them. *)
Definition addValidator (s : EditState) (vote : string)
    (result : VoteAccountCheck) (validatorName : option string)
  : EditState * option Message :=
  if voteAccountExists s vote then (s, Some ValidatorAlreadyExists)
  else if negb (valid result) then (s, Some (InvalidVoteAccount (checkError result)))
  else
    let toAdd := checkedVoteAccount result in
    if voteAccountExists s toAdd then (s, Some AlreadyInPool)
    else
      (with_newValidators (newValidators s ++ [newValidator toAdd validatorName]) s,
       Some Added).

(** The state-changing commands of the loop and their dispatch. *)
Inductive Command :=
| CmdRemove (idx : Z)
| CmdUndo (idx : Z)
| CmdSet (idx : Z) (amount : option Q)
| CmdAdd (idx : Z) (amount : option Q)
| CmdSub (idx : Z) (amount : option Q)
| CmdAddValidator (vote : string) (result : VoteAccountCheck) (validatorName : option string)
| CmdRebalance.

Definition step (s : EditState) (c : Command) : EditState * option Message :=
  match c with
  | CmdRemove idx => markRemoved s idx
  | CmdUndo idx => undoRemoved s idx
  | CmdSet idx amount => setTarget s idx amount
  | CmdAdd idx amount => addToTarget s idx amount
  | CmdSub idx amount => subtractFromTarget s idx amount
  | CmdAddValidator vote result validatorName => addValidator s vote result validatorName
  | CmdRebalance => let '(s', m) := autoRebalance s in (s', Some m)
  end.

(** The error kinds under which the specification files the lines above.
    The answer of the chain lookup ([InvalidVoteAccount]) is an error of a
    collaborator, not of the engine. *)
Inductive CoreError := InvalidIndex | InvalidOperation | DuplicateValidator.

Definition reportedError (m : Message) : option CoreError :=
  match m with
  | InvalidValidatorNumber | InvalidValidatorNumberOrAmount => Some InvalidIndex
  | CannotAddToRemoved | CannotDecreaseRemoved | CannotGoBelowZero => Some InvalidOperation
  | ValidatorAlreadyExists | AlreadyInPool => Some DuplicateValidator
  | _ => None
  end.

(** Invariant I2 of the data model. *)
Definition I2 (s : EditState) : Prop :=
  forall v, v ∈ validators s -> action v = Some remove -> targetBalance v = Some 0.

(** ** Loading

    [interface PoolData], [function loadData()] applied to the parsed file,
    and the state [main] starts its loop with. *)
Record PoolData := mkPoolData {
  pool_reserveAccount : string;
  pool_reserveBalance : Q;
  pool_validators : list ValidatorData
}.

Definition loadData (poolData : PoolData) : list ValidatorData * string * Q :=
  (map (fun v => set_action keep (set_targetBalance (activeBalance v) v))
       (pool_validators poolData),
   pool_reserveAccount poolData,
   pool_reserveBalance poolData).

Definition initialState (poolData : PoolData) : EditState :=
  let '(vs, account, balance) := loadData poolData in
  mkEditState vs [] account balance.

(** ** Vocabulary of the statements *)

(** The combined index space: the existing validators, then the new ones. *)
Definition allValidators (s : EditState) : list ValidatorData :=
  validators s ++ newValidators s.

(** The target a command reads from the record [v] at combined position
    [i]: [?? activeBalance] for an existing validator, [?? 0] for a new one. *)
Definition currentTargetAt (s : EditState) (i : nat) (v : ValidatorData) : Q :=
  if (i <? length (validators s))%nat then target v else target0 v.

(** The state with [v'] in place of the record at combined position [i]. *)
Definition replaceAt (s : EditState) (i : nat) (v' : ValidatorData) : EditState :=
  if (i <? length (validators s))%nat
  then with_validators (<[i := v']> (validators s)) s
  else with_newValidators (<[(i - length (validators s))%nat := v']> (newValidators s)) s.

(** Data model: every proposed validator carries the action [add]. *)
Definition proposedAreAdd (s : EditState) : Prop :=
  forall v, v ∈ newValidators s -> action v = Some add.

(** Number of records of [l] whose identity is [x]. *)
Definition entriesFor (x : string) (l : list ValidatorData) : nat :=
  length (List.filter (fun v => String.eqb (voteAccount v) x) l).

(** Half of the rounding step of [roundToLamports]. *)
Definition HALF_LAMPORT : Q := 1 # 2000000000.

(** A record as [loadData] and the commands leave it: both editing fields
    set.  Used to write concrete states. *)
Definition sampleValidator (vote : string) (current tgt : Q) (a : Action) : ValidatorData :=
  mkValidatorData vote None "" current "" "" 0 "" (Some tgt) (Some a).

(** What a rebalance may do to one record: leave it, or, when it is not
    marked [remove], store a target [x] that is a whole number of lamports
    and not below the old target rounded to lamports. *)
Definition raised (v v' : ValidatorData) : Prop :=
  v' = v \/
  (not_remove v = true /\
   exists x, v' = set_targetBalance x v /\
             roundToLamports x == x /\ roundToLamports (target v) <= x).

(** Every position listed in [order] that exists in [vs] holds a record
    that is not marked [remove]. *)
Definition allActive (order : list nat) (vs : list ValidatorData) : Prop :=
  forall i v, i ∈ order -> vs !! i = Some v -> not_remove v = true.

(** The order in which the rebalance visits two positions: lower target
    first, and among equal targets the lower position first. *)
Definition fillsBefore (vs : list ValidatorData) (a b : nat) : Prop :=
  targetAt vs a < targetAt vs b \/ (targetAt vs a == targetAt vs b /\ (a < b)%nat).

(** Number of existing validators that are not marked [remove]. *)
Definition activeCount (s : EditState) : nat :=
  length (List.filter not_remove (validators s)).

(** No existing validator is marked [remove]; none is left active. *)
Definition noneMarkedRemove (s : EditState) : Prop :=
  forall v, v ∈ validators s -> is_remove v = false.

Definition noneActive (s : EditState) : Prop :=
  forall v, v ∈ validators s -> is_remove v = true.

(** *** The feasibility rule in the words of the specification

    Sums are written over the mapped list, [max(0, x)] with [Qmax]. *)
Definition sumQ (l : list Q) : Q := foldr Qplus 0 l.

Definition specRemovedStake (s : EditState) : Q :=
  sumQ (map activeBalance (List.filter is_remove (validators s))).

Definition specDecreasedStake (s : EditState) : Q :=
  sumQ (map (fun v => Qmax 0 (activeBalance v - target v))
            (List.filter not_remove (validators s))).

Definition specIncreasedStake (s : EditState) : Q :=
  sumQ (map (fun v => Qmax 0 (target v - activeBalance v))
            (List.filter not_remove (validators s)))
  + sumQ (map target0 (newValidators s)).

Definition specTotalTarget (s : EditState) : Q :=
  sumQ (map target (List.filter not_remove (validators s)))
  + sumQ (map target0 (newValidators s)).

Definition specMinimumRequired (s : EditState) : Q :=
  inject_Z (Z.of_nat (length (List.filter not_remove (validators s))
                      + length (newValidators s))).

Definition EPSILON : Q := 1 # 100.

Definition feasible (s : EditState) : Prop :=
  specIncreasedStake s
    <= reserveBalance s + specRemovedStake s + specDecreasedStake s + EPSILON /\
  specMinimumRequired s - EPSILON <= specTotalTarget s.

(** Every position listed in [order] exists in [vs]. *)
Definition allPresent (order : list nat) (vs : list ValidatorData) : Prop :=
  forall i, i ∈ order -> (i < length vs)%nat.

(** Sum of the targets of the records that are not marked [remove]. *)
Definition activeSum (vs : list ValidatorData) : Q :=
  sumQ (map target (List.filter not_remove vs)).

(** One lamport, the rounding step. *)
Definition LAMPORT : Q := 1 # 1000000000.

(** How far the rebalance of [n] active validators may drift from exact
    conservation: one and a half lamports for each of them. *)
Definition rebalanceTolerance (n : nat) : Q :=
  (3 # 2) * LAMPORT * inject_Z (Z.of_nat n).

(** The position a command names, and positions outside the combined
    range. *)
Definition commandIndex (c : Command) : option Z :=
  match c with
  | CmdRemove idx | CmdUndo idx | CmdSet idx _ | CmdAdd idx _ | CmdSub idx _ => Some idx
  | CmdAddValidator _ _ _ | CmdRebalance => None
  end.

Definition outsideCombinedRange (s : EditState) (idx : Z) : Prop :=
  (idx < 0 \/ Z.of_nat (length (allValidators s)) <= idx)%Z.

(** ** More of [validate] and of the loop

    [const maxStaked = totalCurrent + state.reserveBalance], computed by
    [validate] next to [minStaked]. *)
Definition maxStaked (s : EditState) : Q := totalCurrent s + reserveBalance s.

(** Every target, existing or proposed, is a whole number of lamports. *)
Definition alignedTargets (s : EditState) : Prop :=
  (forall v, v ∈ validators s -> roundToLamports (target v) == target v) /\
  (forall v, v ∈ newValidators s -> roundToLamports (target0 v) == target0 v).

(** Every current balance is a whole number of lamports. *)
Definition alignedBalances (s : EditState) : Prop :=
  forall v, v ∈ validators s -> roundToLamports (activeBalance v) == activeBalance v.

(** Invariant I1: no identity occurs twice in the combined list. *)
Definition uniqueIdentities (s : EditState) : Prop :=
  NoDup (map voteAccount (allValidators s)).

(** The fields of a record that no command writes. *)
Definition fixedFields (v : ValidatorData)
  : string * option string * string * Q * string * string * Q * string :=
  (voteAccount v, name v, stakeAccount v, activeBalance v, activeBalanceLamports v,
   transientStakeAccount v, transientBalance v, transientBalanceLamports v).

(** The state of the loop after a sequence of commands. *)
Definition run (s : EditState) (cs : list Command) : EditState :=
  foldl (fun s c => (step s c).1) s cs.


(** Every existing validator that is not marked [remove] still has its
    current balance as target. *)
Definition unedited (s : EditState) : Prop :=
  forall v, v ∈ validators s -> not_remove v = true -> target v == activeBalance v.

(** ** saveState: the plan that is written

    The object [output] of [saveState] without its time stamp. *)

(** [v.targetBalance !== v.activeBalance]; an [undefined] target differs
    from every number. *)
Definition targetDiffers (v : ValidatorData) : bool :=
  match targetBalance v with
  | Some t => negb (Qeq_bool t (activeBalance v))
  | None => true
  end.

(** [v.action !== 'remove' && v.targetBalance !== v.activeBalance] *)
Definition isModified (v : ValidatorData) : bool := not_remove v && targetDiffers v.

Record PlanSummary := mkPlanSummary {
  totalValidators : nat;
  toRemove : nat;
  toAdd : nat;
  toModify : nat
}.

Record PlanRemoval := mkPlanRemoval {
  removal_voteAccount : string;
  removal_stakeAccount : string;
  removal_currentBalance : Q
}.

Record PlanAddition := mkPlanAddition {
  addition_voteAccount : string;
  addition_targetBalance : option Q
}.

Record PlanModification := mkPlanModification {
  modification_voteAccount : string;
  modification_stakeAccount : string;
  modification_currentBalance : Q;
  modification_targetBalance : option Q;
  modification_change : Q
}.

Record PlanValidator := mkPlanValidator {
  plan_voteAccount : string;
  plan_stakeAccount : string;
  plan_activeBalance : Q;
  plan_targetBalance : Q
}.

Record PlanOutput := mkPlanOutput {
  summary : PlanSummary;
  removals : list PlanRemoval;
  additions : list PlanAddition;
  modifications : list PlanModification;
  plan_validators : list PlanValidator
}.

Definition saveState_output (s : EditState) : PlanOutput :=
  {| summary :=
       {| totalValidators :=
            (length (List.filter not_remove (validators s)) + length (newValidators s))%nat;
          toRemove := length (List.filter is_remove (validators s));
          toAdd := length (newValidators s);
          toModify := length (List.filter isModified (validators s)) |};
     removals :=
       map (fun v => mkPlanRemoval (voteAccount v) (stakeAccount v) (activeBalance v))
           (List.filter is_remove (validators s));
     additions :=
       map (fun v => mkPlanAddition (voteAccount v) (targetBalance v)) (newValidators s);
     modifications :=
       map (fun v => mkPlanModification (voteAccount v) (stakeAccount v) (activeBalance v)
                       (targetBalance v) (target v - activeBalance v))
           (List.filter isModified (validators s));
     plan_validators :=
       map (fun v => mkPlanValidator (voteAccount v) (stakeAccount v) (activeBalance v)
                       (target v))
           (List.filter not_remove (validators s)) |}.

(** ** generateBashScripts: the operations the scripts carry out

    The four lists of operations collected from the plan; the text of the
    scripts is not modelled. *)
Record ScriptOp := mkScriptOp {
  op_voteAccount : string;
  op_amount : Q;
  op_name : option string
}.

(** [list.find((v) => v.voteAccount === x)?.name] *)
Definition findName (l : list ValidatorData) (x : string) : option string :=
  match List.find (fun v => String.eqb (voteAccount v) x) l with
  | Some v => name v
  | None => None
  end.

Definition removeOps (s : EditState) (output : PlanOutput) : list ScriptOp :=
  map (fun removal =>
         mkScriptOp (removal_voteAccount removal) (removal_currentBalance removal)
           (findName (validators s) (removal_voteAccount removal)))
      (removals output).

Definition increaseOps (s : EditState) (output : PlanOutput) : list ScriptOp :=
  omap (fun m =>
          if Qgtb (modification_change m) 0
          then Some (mkScriptOp (modification_voteAccount m) (modification_change m)
                       (findName (validators s) (modification_voteAccount m)))
          else None)
       (modifications output)
  ++
  omap (fun a =>
          let amount := match addition_targetBalance a with Some t => t | None => 0 end in
          if Qgtb amount 0
          then Some (mkScriptOp (addition_voteAccount a) amount
                       (findName (newValidators s) (addition_voteAccount a)))
          else None)
       (additions output).

Definition decreaseOps (s : EditState) (output : PlanOutput) : list ScriptOp :=
  omap (fun m =>
          if Qltb (modification_change m) 0
          then Some (mkScriptOp (modification_voteAccount m) (Qabs (modification_change m))
                       (findName (validators s) (modification_voteAccount m)))
          else None)
       (modifications output).

Definition addValidatorOps (s : EditState) (output : PlanOutput) : list ScriptOp :=
  map (fun a =>
         mkScriptOp (addition_voteAccount a)
           (match addition_targetBalance a with Some t => t | None => 0 end)
           (findName (newValidators s) (addition_voteAccount a)))
      (additions output).

(** [Math.round(sol * 1_000_000_000)], the whole lamports that
    [toCleanSOL] prints with nine decimals. *)
Definition toCleanSOL_lamports (sol : Q) : Z := Math_round (sol * LAMPORTS_PER_SOL).

(** Sum of the amounts of a list of operations. *)
Definition opsTotal (ops : list ScriptOp) : Q := sumQ (map op_amount ops).

(** ** printValidatorList: the rows of the table

    [Array.prototype.sort] with a comparator, as a stable insertion sort
    (see [sort_insert]); generic in the elements. *)
Fixpoint insert_sorted {A : Type} (cmp : A -> A -> Q) (a : A) (l : list A) : list A :=
  match l with
  | [] => [a]
  | b :: l' =>
      if Qltb (cmp b a) 0 then b :: insert_sorted cmp a l'
      else a :: b :: l'
  end.

Definition js_sort {A : Type} (cmp : A -> A -> Q) (l : list A) : list A :=
  foldr (insert_sorted cmp) [] l.

(** [{ ...v, index, isNew }] *)
Record Row := mkRow {
  row_validator : ValidatorData;
  row_index : nat;
  row_isNew : bool
}.

(** The array [allValidators] of [printValidatorList] before it is
    sorted, and after. *)
Definition unsortedRows (s : EditState) : list Row :=
  imap (fun i v => mkRow v i false) (validators s)
  ++ imap (fun i v => mkRow v (length (validators s) + i) true) (newValidators s).

Definition printValidatorList_rows (s : EditState) : list Row :=
  js_sort (fun a b => target (row_validator a) - target (row_validator b))
          (unsortedRows s).

(** The number printed in the first column: [String(v.index + 1)]. *)
Definition row_number (r : Row) : Z := Z.of_nat (row_index r) + 1.

Inductive ActionText := REMOVE | NEW | MODIFY | KEEP.

(** [actionText] of a row. *)
Definition actionText (r : Row) : ActionText :=
  if is_remove (row_validator r) then REMOVE
  else if row_isNew r then NEW
  else if targetDiffers (row_validator r) then MODIFY
  else KEEP.

(** The order of the table: lower target first, equal targets by
    position. *)
Definition rowBefore (a b : Row) : Prop :=
  target (row_validator a) < target (row_validator b) \/
  (target (row_validator a) == target (row_validator b) /\ (row_index a < row_index b)%nat).

(** Number of rows that show a given action text. *)
Definition rowsShowing (t : ActionText) (rows : list Row) : nat :=
  length (List.filter (fun r => match actionText r, t with
                                | REMOVE, REMOVE | NEW, NEW | MODIFY, MODIFY | KEEP, KEEP => true
                                | _, _ => false
                                end) rows).

(** ** printHeader: the figures of the header *)
Record HeaderFigures := mkHeaderFigures {
  header_totalCurrent : Q;
  header_totalWithNew : Q;
  header_removedStake : Q;
  header_totalTransient : Q;
  header_availableReserve : Q;
  header_allocatedToNew : Q;
  header_remainingReserve : Q;
  header_totalPoolStake : Q;
  header_stakeDiff : Q;
  header_activeCount : nat;
  header_removeCount : nat;
  header_newCount : nat
}.

Definition printHeader_figures (s : EditState) : HeaderFigures :=
  let totalCurrent := reduce_sum activeBalance (validators s) in
  let totalTarget := reduce_sum target (List.filter not_remove (validators s)) in
  let newValidatorStake := reduce_sum target0 (newValidators s) in
  let totalWithNew := totalTarget + newValidatorStake in
  let removedStake := reduce_sum activeBalance (List.filter is_remove (validators s)) in
  let totalTransient := reduce_sum transientBalance (validators s) in
  let availableReserve := reserveBalance s + removedStake in
  let allocatedToNew := newValidatorStake in
  let remainingReserve := availableReserve - allocatedToNew in
  let totalPoolStake := totalCurrent + reserveBalance s + totalTransient in
  {| header_totalCurrent := totalCurrent;
     header_totalWithNew := totalWithNew;
     header_removedStake := removedStake;
     header_totalTransient := totalTransient;
     header_availableReserve := availableReserve;
     header_allocatedToNew := allocatedToNew;
     header_remainingReserve := remainingReserve;
     header_totalPoolStake := totalPoolStake;
     header_stakeDiff := totalWithNew - totalCurrent;
     header_activeCount :=
       (length (List.filter not_remove (validators s)) + length (newValidators s))%nat;
     header_removeCount := length (List.filter is_remove (validators s));
     header_newCount := length (newValidators s) |}.

(** ** shortAddress and shortName

    A string is read as the sequence of its code units; the two
    functions only count and cut, they never look at a character. *)

(** A relative index of [slice]: negative counts from the end, and the
    result is clamped to the string. *)
Definition js_index (len : nat) (i : Z) : nat :=
  if (i <? 0)%Z then Z.to_nat (Z.max (Z.of_nat len + i) 0)
  else Nat.min (Z.to_nat i) len.

(** [str.slice(start, end)]; [None] for an omitted [end]. *)
Definition js_slice (str : string) (start : Z) (stop : option Z) : string :=
  let len := String.length str in
  let from := js_index len start in
  let to := match stop with Some e => js_index len e | None => len end in
  String.substring from (to - from) str.

Fixpoint spaces (n : nat) : string :=
  match n with
  | O => EmptyString
  | S n' => String.append " " (spaces n')
  end.

(** [str.padEnd(maxLength)] *)
Definition padEnd (str : string) (maxLength : Z) : string :=
  String.append str (spaces (Z.to_nat maxLength - String.length str)).

(** [function shortAddress(addr)] *)
Definition shortAddress (addr : string) : string :=
  String.append (js_slice addr 0 (Some 8%Z))
    (String.append "..." (js_slice addr (-4) None)).

(** [function shortName(name, maxLen = 20)]; [!name] holds for
    [undefined] and for the empty string. *)
Definition shortName (name : option string) (maxLen : Z) : string :=
  match name with
  | None | Some EmptyString => padEnd "Unknown" maxLen
  | Some n =>
      if (Z.of_nat (String.length n) <=? maxLen)%Z then padEnd n maxLen
      else String.append (js_slice n 0 (Some (maxLen - 2)%Z)) ".."
  end.

(** ** validateVoteAccount

    The function awaits the chain; what the chain answers is an input
    here.  A call either returns or throws an error with a message. *)
Inductive Attempt (A : Type) :=
| Returned (a : A)
| Threw (msg : string).

Arguments Returned {A} a.
Arguments Threw {A} msg.

(** An entry of [connection.getVoteAccounts()]. *)
Record VoteAccountInfo := mkVoteAccountInfo {
  votePubkey : string;
  nodePubkey : string
}.

Record ChainAnswers := mkChainAnswers {
  parsedKey : Attempt unit;
    (* new PublicKey(input) *)
  voteAccounts : Attempt (list VoteAccountInfo * list VoteAccountInfo);
    (* getVoteAccounts(): current, delinquent *)
  accountOwner : Attempt (option string)
    (* getAccountInfo(pubkey): null, or the owner of the account *)
}.

Definition VOTE_PROGRAM_ID : string := "Vote111111111111111111111111111111111111111".
Definition SYSTEM_PROGRAM_ID : string := "11111111111111111111111111111111".

(** [msg.includes(sub)] *)
Fixpoint includes (sub msg : string) : bool :=
  String.prefix sub msg ||
  match msg with
  | EmptyString => false
  | String _ rest => includes sub rest
  end.

(** The [catch] block. *)
Definition validateVoteAccount_catch (input msg : string) : VoteAccountCheck :=
  if includes "invalid" msg || includes "decode" msg
  then mkVoteAccountCheck false input (Some "Invalid address (bad base58 or length)")
  else mkVoteAccountCheck false input (Some msg).

(** [async function validateVoteAccount(input)] *)
Definition validateVoteAccount (input : string) (chain : ChainAnswers) : VoteAccountCheck :=
  match parsedKey chain with
  | Threw msg => validateVoteAccount_catch input msg
  | Returned _ =>
      match voteAccounts chain with
      | Threw msg => validateVoteAccount_catch input msg
      | Returned (current, delinquent) =>
          let all := current ++ delinquent in
          let byVote := List.find (fun a => String.eqb (votePubkey a) input) all in
          let byNode := List.find (fun a => String.eqb (nodePubkey a) input) all in
          match byVote, byNode with
          | Some _, _ => mkVoteAccountCheck true input None
          | None, Some a => mkVoteAccountCheck true (votePubkey a) None
          | None, None =>
              match accountOwner chain with
              | Threw msg => validateVoteAccount_catch input msg
              | Returned None =>
                  mkVoteAccountCheck false input (Some "Account not found on chain")
              | Returned (Some owner) =>
                  if String.eqb owner VOTE_PROGRAM_ID then
                    mkVoteAccountCheck false input
                      (Some "Vote account not in active validator set (closed or inactive)")
                  else if String.eqb owner SYSTEM_PROGRAM_ID then
                    mkVoteAccountCheck false input
                      (Some "Address is a validator identity but not in active set. Use the vote account address instead.")
                  else
                    mkVoteAccountCheck false input
                      (Some (String.append "Not a vote account (owner: "
                               (String.append owner ")")))
              end
          end
      end
  end.

(** The [a VOTE] branch of the loop with the chain's answers: the
    look-up is made with the address that was typed. *)
Definition addValidatorFromChain (s : EditState) (vote : string) (chain : ChainAnswers)
    (validatorName : option string) : EditState * option Message :=
  addValidator s vote (validateVoteAccount vote chain) validatorName.

(** ** The pool fetcher: dumpPoolValidatorData

    The part of [dumpPoolValidatorData] between the answers of the chain
    and the data it writes.  Keys are their base58 strings; the two
    address derivations and the name look-up are taken as they come. *)

(** An entry of the decoded validator list, with the fields the function
    reads. *)
Record ValidatorStakeInfo := mkValidatorStakeInfo {
  voteAccountAddress : string;
  activeStakeLamports : N;
  transientStakeLamports : N;
  transientSeedSuffixStart : N
}.

(** [interface PoolValidatorData] of the fetcher. *)
Record PoolValidatorData := mkPoolValidatorData {
  fetched_voteAccount : string;
  fetched_name : option string;
  fetched_stakeAccount : string;
  fetched_activeBalance : Q;
  fetched_transientStakeAccount : string;
  fetched_transientBalance : Q
}.

(** [interface PoolData] of the fetcher. *)
Record FetchedPoolData := mkFetchedPoolData {
  fetched_reserveAccount : string;
  fetched_reserveBalance : Q;
  fetched_validators : list PoolValidatorData
}.

(** [Number(lamports) / LAMPORTS_PER_SOL] *)
Definition lamportsToSol (lamports : N) : Q :=
  inject_Z (Z.of_N lamports) / LAMPORTS_PER_SOL.

(** What the chain and the file system answer to the calls of
    [dumpPoolValidatorData]. *)
Record FetchAnswers := mkFetchAnswers {
  stakePoolReserve : Attempt string;
    (* getStakePoolAccount(connection, POOL_ADDRESS): its reserveStake *)
  reserveLamports : Attempt N;
    (* connection.getBalance(reserveStakeAccount) *)
  validatorListAccount : Attempt (option (Attempt (list ValidatorStakeInfo)));
    (* connection.getAccountInfo(validatorList): null, or an account
       whose data ValidatorListLayout.decode reads or rejects *)
  fileWritten : Attempt unit
    (* fs.writeFileSync(outputPath, ...) *)
}.

Section PoolFetcher.

Variable deriveStakeAccountPDA : string -> string.
Variable deriveTransientStakeAccountPDA : string -> N -> string.
Variable fetchValidatorName : string -> option string.

(** The loop over [validatorList.validators] followed by the merge of
    the names: an entry without active and without transient stake is
    skipped. *)
Definition collectValidators (validators : list ValidatorStakeInfo)
  : list PoolValidatorData :=
  omap (fun validator =>
          let voteAccount := voteAccountAddress validator in
          if N.eqb (activeStakeLamports validator) 0
             && N.eqb (transientStakeLamports validator) 0
          then None
          else Some
            {| fetched_voteAccount := voteAccount;
               fetched_name := fetchValidatorName voteAccount;
               fetched_stakeAccount := deriveStakeAccountPDA voteAccount;
               fetched_activeBalance := lamportsToSol (activeStakeLamports validator);
               fetched_transientStakeAccount :=
                 deriveTransientStakeAccountPDA voteAccount
                   (transientSeedSuffixStart validator);
               fetched_transientBalance :=
                 lamportsToSol (transientStakeLamports validator) |})
       validators.

(** [dumpPoolValidatorData(outputPath)] on the answers to the calls it
    awaits, in the order it makes them: a call that rejects or throws
    ends the function with that error, and so does a missing account of
    the validator list.  The two address derivations are taken as total. *)
Definition dumpPoolValidatorData (answers : FetchAnswers) : Attempt FetchedPoolData :=
  match stakePoolReserve answers with
  | Threw msg => Threw msg
  | Returned reserveStake =>
      match reserveLamports answers with
      | Threw msg => Threw msg
      | Returned reserveBalanceLamports =>
          match validatorListAccount answers with
          | Threw msg => Threw msg
          | Returned None => Threw "ValidatorList account not found on chain"
          | Returned (Some (Threw msg)) => Threw msg
          | Returned (Some (Returned validators)) =>
              let poolData :=
                {| fetched_reserveAccount := reserveStake;
                   fetched_reserveBalance := lamportsToSol reserveBalanceLamports;
                   fetched_validators := collectValidators validators |} in
              match fileWritten answers with
              | Threw msg => Threw msg
              | Returned _ => Returned poolData
              end
          end
      end
  end.

End PoolFetcher.

(** ** The logger *)

(** [type LogLevel] *)
Inductive LogLevel := debug | info | warn | error.

(** [LOG_LEVEL_ORDER[level]] for a level of the type. *)
Definition LOG_LEVEL_ORDER (level : LogLevel) : Z :=
  match level with
  | debug => 10
  | info => 20
  | warn => 30
  | error => 40
  end.

(** [LOG_LEVEL_ORDER[name]] for any string: a name that is not a level
    has no number. *)
Definition LOG_LEVEL_ORDER_of (name : string) : option Z :=
  if String.eqb name "debug" then Some 10%Z
  else if String.eqb name "info" then Some 20%Z
  else if String.eqb name "warn" then Some 30%Z
  else if String.eqb name "error" then Some 40%Z
  else None.

(** [(process.env.LOG_LEVEL as LogLevel) || 'info']: an unset or empty
    variable gives ['info'], any other text is taken as it is. *)
Definition CURRENT_LEVEL (env : option string) : string :=
  match env with
  | None | Some EmptyString => "info"
  | Some name => name
  end.

(** Whether [log(level, ...)] prints: it returns early when
    [LOG_LEVEL_ORDER[level] < LOG_LEVEL_ORDER[CURRENT_LEVEL]], and a
    comparison with a missing number is false. *)
Definition log_prints (env : option string) (level : LogLevel) : bool :=
  match LOG_LEVEL_ORDER_of (CURRENT_LEVEL env) with
  | Some current => negb (LOG_LEVEL_ORDER level <? current)%Z
  | None => true
  end.

(** ** Paging of the table (src/src/rebalance.ts)

    The variant of the editor in [src/src/rebalance.ts] shows the table a
    page at a time.  Its state has the four fields of [EditState] and two
    more; the page number and the page size are integers, the first
    starting at [1] and changed by one at a time, the second fixed. *)

Record PagedState := mkPagedState {
  paged_edits : EditState;
  currentPage : Z;
  validatorsPerPage : Z
}.

Definition with_currentPage (s : PagedState) (page : Z) : PagedState :=
  {| paged_edits := paged_edits s;
     currentPage := page;
     validatorsPerPage := validatorsPerPage s |}.

Definition Math_ceil (x : Q) : Z := Qceiling x.

(** [Math.max(1, Math.ceil(total / state.validatorsPerPage))] *)
Definition totalPages (total : nat) (perPage : Z) : Z :=
  Z.max 1 (Math_ceil (inject_Z (Z.of_nat total) / inject_Z perPage)).

(** [[...state.validators, ...state.newValidators].length] *)
Definition pagedCount (s : PagedState) : nat :=
  length (validators (paged_edits s) ++ newValidators (paged_edits s)).

(** [function normalizePage(state)] *)
Definition normalizePage (s : PagedState) : PagedState :=
  let pages := totalPages (pagedCount s) (validatorsPerPage s) in
  if (pages <? currentPage s)%Z then with_currentPage s (Z.max 1 pages) else s.

(** The branch of the command [n]. *)
Definition nextPage (s : PagedState) : PagedState :=
  let pages := totalPages (pagedCount s) (validatorsPerPage s) in
  if (currentPage s <? pages)%Z then with_currentPage s (currentPage s + 1) else s.

(** The branch of the command [p]. *)
Definition previousPage (s : PagedState) : PagedState :=
  if (1 <? currentPage s)%Z then with_currentPage s (currentPage s - 1) else s.

(** [array.slice(start, end)] *)
Definition array_slice {A : Type} (l : list A) (start stop : Z) : list A :=
  let from := js_index (length l) start in
  let to := js_index (length l) stop in
  take (to - from) (drop from l).

(** The rows [printValidatorList] shows, of the sorted rows
    [allValidators] it has built. *)
Definition pageValidators {A : Type} (s : PagedState) (allValidators : list A) : list A :=
  let totalValidators := length allValidators in
  let pages := totalPages totalValidators (validatorsPerPage s) in
  let page := Z.min (Z.max 1 (currentPage s)) pages in
  let startIdx := ((page - 1) * validatorsPerPage s)%Z in
  let endIdx := Z.min (startIdx + validatorsPerPage s) (Z.of_nat totalValidators) in
  array_slice allValidators startIdx endIdx.

(** The page number lies among the pages of the table. *)
Definition pageInRange (s : PagedState) : Prop :=
  (1 <= currentPage s <= totalPages (pagedCount s) (validatorsPerPage s))%Z.

(** * The arithmetic of the program over binary64 numbers

    A JavaScript number is an IEEE-754 binary64 value.  The definitions
    above compute with exact rationals; the module below repeats the
    engine with the numbers the program really has, Rocq's primitive
    binary64 floats: every [+], [-], [*], [/] rounds to nearest, and
    [Infinity] and [NaN] are values like any other.  It is used where a
    claim turns on them.  The [a] command does no arithmetic and is left
    out. *)
Module Binary64.

Local Open Scope float_scope.

Definition number : Set := float.

(** [interface ValidatorData] *)
Record ValidatorData := mkValidatorData {
  voteAccount : string;
  name : option string;
  stakeAccount : string;
  activeBalance : number;
  activeBalanceLamports : string;
  transientStakeAccount : string;
  transientBalance : number;
  transientBalanceLamports : string;
  targetBalance : option number;
  action : option Action
}.

(** [interface EditState] *)
Record EditState := mkEditState {
  validators : list ValidatorData;
  newValidators : list ValidatorData;
  reserveAccount : string;
  reserveBalance : number
}.

Definition set_targetBalance (x : number) (v : ValidatorData) : ValidatorData :=
  mkValidatorData (voteAccount v) (name v) (stakeAccount v) (activeBalance v)
    (activeBalanceLamports v) (transientStakeAccount v) (transientBalance v)
    (transientBalanceLamports v) (Some x) (action v).

Definition set_action (a : Action) (v : ValidatorData) : ValidatorData :=
  mkValidatorData (voteAccount v) (name v) (stakeAccount v) (activeBalance v)
    (activeBalanceLamports v) (transientStakeAccount v) (transientBalance v)
    (transientBalanceLamports v) (targetBalance v) (Some a).

Definition with_validators (vs : list ValidatorData) (s : EditState) : EditState :=
  mkEditState vs (newValidators s) (reserveAccount s) (reserveBalance s).

Definition with_newValidators (nvs : list ValidatorData) (s : EditState) : EditState :=
  mkEditState (validators s) nvs (reserveAccount s) (reserveBalance s).

Definition is_remove (v : ValidatorData) : bool :=
  match action v with Some remove => true | _ => false end.

Definition not_remove (v : ValidatorData) : bool := negb (is_remove v).

(** [v.targetBalance ?? v.activeBalance] and [v.targetBalance ?? 0] *)
Definition target (v : ValidatorData) : number :=
  match targetBalance v with Some t => t | None => activeBalance v end.

Definition target0 (v : ValidatorData) : number :=
  match targetBalance v with Some t => t | None => 0 end.

(** The comparisons [a < b], [a > b], [a <= b], [a >= b] and [a === b]
    of two numbers, read off the IEEE comparison of the pair: each is
    false when the pair does not compare, that is when one is [NaN]. *)
Definition js_lt (a b : number) : bool :=
  match PrimFloat.compare a b with FLt => true | _ => false end.

Definition js_gt (a b : number) : bool :=
  match PrimFloat.compare a b with FGt => true | _ => false end.

Definition js_le (a b : number) : bool :=
  match PrimFloat.compare a b with FLt | FEq => true | _ => false end.

Definition js_ge (a b : number) : bool :=
  match PrimFloat.compare a b with FGt | FEq => true | _ => false end.

Definition js_eq (a b : number) : bool :=
  match PrimFloat.compare a b with FEq => true | _ => false end.

(** [isNaN(a)] *)
Definition isNaN (a : number) : bool :=
  match PrimFloat.compare a a with FNotComparable => true | _ => false end.

(** The number of an integer below 2^63 in absolute value; exact up to
    2^53. *)
Definition of_Z (k : Z) : number :=
  if (0 <=? k)%Z then of_uint63 (Uint63.of_Z k) else - of_uint63 (Uint63.of_Z (- k)).

(** [Math.round]: the nearest integer, a tie going up.  [NaN], the
    infinities and the zeros are returned as they are, and so is a number
    without fractional bits.  Otherwise [x] is [m * 2^e] with [e < 0], up
    to its sign, and [floor (x + 1/2)] is computed on the integers. *)
Definition Math_round (x : number) : number :=
  match Prim2SF x with
  | S754_finite negative m e =>
      if (0 <=? e)%Z then x
      else
        let twice := if negative then (- 2 * Z.pos m)%Z else (2 * Z.pos m)%Z in
        let k := ((twice + 2 ^ (- e)) / 2 ^ (1 - e))%Z in
        if (k =? 0)%Z then (if negative then -0 else 0) else of_Z k
  | _ => x
  end.

(** [Math.min] on two numbers: [NaN] if they do not compare, and [-0]
    below [+0]. *)
Definition Math_min (a b : number) : number :=
  match PrimFloat.compare a b with
  | FLt => a
  | FGt => b
  | FEq => match classify b with NZero => b | _ => a end
  | FNotComparable => nan
  end.

(** [function roundToLamports(sol)] *)
Definition roundToLamports (sol : number) : number :=
  Math_round (sol * 1000000000) / 1000000000.

(** [arr.reduce((s, v) => s + f(v), 0)] *)
Definition reduce_sum {A} (f : A -> number) (l : list A) : number :=
  fold_left (fun s v => s + f v) l 0.

(** Array access, as above. *)
Definition validAt (arr : list ValidatorData) (idx : Z) : option ValidatorData :=
  if (0 <=? idx)%Z then arr !! Z.to_nat idx else None.

Definition inNewRange (s : EditState) (idx : Z) : bool :=
  (Z.of_nat (length (validators s)) <=? idx)%Z &&
  (idx <? Z.of_nat (length (validators s)) + Z.of_nat (length (newValidators s)))%Z.

Definition newIdx (s : EditState) (idx : Z) : Z :=
  (idx - Z.of_nat (length (validators s)))%Z.

(** ** autoRebalance *)

Definition removedStake (s : EditState) : number :=
  reduce_sum activeBalance (List.filter is_remove (validators s)).

Fixpoint positions (p : ValidatorData -> bool) (vs : list ValidatorData) (i : nat)
  : list nat :=
  match vs with
  | [] => []
  | v :: vs' => if p v then i :: positions p vs' (S i) else positions p vs' (S i)
  end.

Definition targetAt (vs : list ValidatorData) (i : nat) : number :=
  match vs !! i with Some v => target v | None => 0 end.

(** The comparator [(a, b) => target(a) - target(b)]. *)
Definition compareTarget (vs : list ValidatorData) (a b : nat) : number :=
  targetAt vs a - targetAt vs b.

(** The stable insertion sort, as above; a comparator value of [NaN]
    counts as [0], as [Array.prototype.sort] reads it. *)
Fixpoint sort_insert (vs : list ValidatorData) (a : nat) (l : list nat) : list nat :=
  match l with
  | [] => [a]
  | b :: l' =>
      if js_lt (compareTarget vs b a) 0 then b :: sort_insert vs a l'
      else a :: b :: l'
  end.

Definition sort_by_target (vs : list ValidatorData) (l : list nat) : list nat :=
  foldr (sort_insert vs) [] l.

Definition activeValidators (s : EditState) : list nat :=
  sort_by_target (validators s) (positions not_remove (validators s) 0).

Fixpoint distribute (targetPerValidator : number) (order : list nat)
    (vs : list ValidatorData) (remaining : number) : list ValidatorData * number :=
  match order with
  | [] => (vs, remaining)
  | i :: rest =>
      if js_le remaining 0 then (vs, remaining)
      else
        match vs !! i with
        | None => distribute targetPerValidator rest vs remaining
        | Some v =>
            let currentTarget := target v in
            let deficit := targetPerValidator - currentTarget in
            if js_gt deficit 0 then
              let toAdd := Math_min deficit remaining in
              distribute targetPerValidator rest
                (<[i := set_targetBalance (roundToLamports (currentTarget + toAdd)) v]> vs)
                (roundToLamports (remaining - toAdd))
            else distribute targetPerValidator rest vs remaining
        end
  end.

Fixpoint spread (perValidator : number) (order : list nat) (vs : list ValidatorData)
  : list ValidatorData :=
  match order with
  | [] => vs
  | i :: rest =>
      match vs !! i with
      | None => spread perValidator rest vs
      | Some v =>
          spread perValidator rest
            (<[i := set_targetBalance (roundToLamports (target v + perValidator)) v]> vs)
      end
  end.

(** [function autoRebalance(state)], with the line it prints. *)
Definition autoRebalance (s : EditState) : EditState * Message :=
  let removed := removedStake s in
  if js_eq removed 0 then (s, NoValidatorsMarkedForRemoval)
  else
    let active := activeValidators s in
    if Nat.eqb (length active) 0 then (s, NoActiveValidators)
    else
      let totalActiveStake := reduce_sum (targetAt (validators s)) active in
      let newTotal := totalActiveStake + removed in
      let targetPerValidator := newTotal / of_Z (Z.of_nat (length active)) in
      let '(vs1, remaining) := distribute targetPerValidator active (validators s) removed in
      let vs2 :=
        if js_gt remaining 0
        then spread (remaining / of_Z (Z.of_nat (length active))) active vs1
        else vs1 in
      (with_validators vs2 s, Redistributed).

(** ** validate *)

Definition totalCurrent (s : EditState) : number :=
  reduce_sum activeBalance (validators s).

Definition totalTarget (s : EditState) : number :=
  reduce_sum target (List.filter not_remove (validators s)).

Definition newValidatorStake (s : EditState) : number :=
  reduce_sum target0 (newValidators s).

Definition totalWithNew (s : EditState) : number := totalTarget s + newValidatorStake s.

Definition decreasedStake (s : EditState) : number :=
  reduce_sum (fun v => let diff := activeBalance v - target v in
                       if js_gt diff 0 then diff else 0)
             (List.filter not_remove (validators s)).

Definition availableReserve (s : EditState) : number :=
  reserveBalance s + removedStake s + decreasedStake s.

Definition activeValidatorCount (s : EditState) : nat :=
  (length (List.filter not_remove (validators s)) + length (newValidators s))%nat.

Definition minStaked (s : EditState) : number := of_Z (Z.of_nat (activeValidatorCount s)).

Definition increasedStake (s : EditState) : number :=
  reduce_sum (fun v => let diff := target v - activeBalance v in
                       if js_gt diff 0 then diff else 0)
             (List.filter not_remove (validators s)).

Definition totalNeeded (s : EditState) : number := increasedStake s + newValidatorStake s.

(** [function validate(state)]; [0.01] is the binary64 number nearest
    to one hundredth. *)
Definition validate (s : EditState) : bool :=
  if js_gt (totalNeeded s) (availableReserve s + 0.01) then false
  else if js_lt (totalWithNew s) (minStaked s - 0.01) then false
  else true.

(** ** The commands

    An amount is [parseFloat(parts[2])], a number: [NaN] for a text that
    is no number, and [Infinity] for the text [Infinity]. *)

Definition markRemoved (s : EditState) (idx : Z) : EditState * option Message :=
  match validAt (validators s) idx with
  | Some v =>
      (with_validators
         (<[Z.to_nat idx := set_targetBalance 0 (set_action remove v)]> (validators s)) s,
       None)
  | None => (s, Some InvalidValidatorNumber)
  end.

Definition undoRemoved (s : EditState) (idx : Z) : EditState * option Message :=
  match validAt (validators s) idx with
  | Some v =>
      (with_validators
         (<[Z.to_nat idx := set_targetBalance (activeBalance v) (set_action keep v)]>
            (validators s)) s,
       None)
  | None => (s, None)
  end.

(** [s # AMT] *)
Definition setTarget (s : EditState) (idx : Z) (amount : number)
  : EditState * option Message :=
  match validAt (validators s) idx, isNaN amount with
  | Some v, false =>
      (with_validators (<[Z.to_nat idx := set_targetBalance amount v]> (validators s)) s,
       None)
  | _, _ =>
      if inNewRange s idx && negb (isNaN amount) then
        match validAt (newValidators s) (newIdx s idx) with
        | Some nv =>
            (with_newValidators
               (<[Z.to_nat (newIdx s idx) := set_targetBalance amount nv]>
                  (newValidators s)) s,
             None)
        | None => (s, None)
        end
      else (s, None)
  end.

(** [+ # AMT] *)
Definition addToTarget (s : EditState) (idx : Z) (addAmount : number)
  : EditState * option Message :=
  match validAt (validators s) idx, isNaN addAmount with
  | Some v, false =>
      if is_remove v then (s, Some CannotAddToRemoved)
      else
        let current := target v in
        (with_validators
           (<[Z.to_nat idx := set_targetBalance (roundToLamports (current + addAmount)) v]>
              (validators s)) s,
         None)
  | _, _ =>
      if inNewRange s idx && negb (isNaN addAmount) then
        match validAt (newValidators s) (newIdx s idx) with
        | Some nv =>
            let current := target0 nv in
            (with_newValidators
               (<[Z.to_nat (newIdx s idx) :=
                    set_targetBalance (roundToLamports (current + addAmount)) nv]>
                  (newValidators s)) s,
             None)
        | None => (s, None)
        end
      else (s, Some InvalidValidatorNumberOrAmount)
  end.

(** [- # AMT] *)
Definition subtractFromTarget (s : EditState) (idx : Z) (subAmount : number)
  : EditState * option Message :=
  match validAt (validators s) idx, isNaN subAmount with
  | Some v, false =>
      if is_remove v then (s, Some CannotDecreaseRemoved)
      else
        let current := target v in
        let newTarget := roundToLamports (current - subAmount) in
        if js_lt newTarget 0 then (s, Some CannotGoBelowZero)
        else
          (with_validators
             (<[Z.to_nat idx := set_targetBalance newTarget v]> (validators s)) s,
           None)
  | _, _ =>
      if inNewRange s idx && negb (isNaN subAmount) then
        match validAt (newValidators s) (newIdx s idx) with
        | Some nv =>
            let current := target0 nv in
            let newTarget := roundToLamports (current - subAmount) in
            if js_lt newTarget 0 then (s, Some CannotGoBelowZero)
            else
              (with_newValidators
                 (<[Z.to_nat (newIdx s idx) := set_targetBalance newTarget nv]>
                    (newValidators s)) s,
               None)
        | None => (s, None)
        end
      else (s, Some InvalidValidatorNumberOrAmount)
  end.

Inductive Command :=
| CmdRemove (idx : Z)
| CmdUndo (idx : Z)
| CmdSet (idx : Z) (amount : number)
| CmdAdd (idx : Z) (amount : number)
| CmdSub (idx : Z) (amount : number)
| CmdRebalance.

Definition step (s : EditState) (c : Command) : EditState * option Message :=
  match c with
  | CmdRemove idx => markRemoved s idx
  | CmdUndo idx => undoRemoved s idx
  | CmdSet idx amount => setTarget s idx amount
  | CmdAdd idx amount => addToTarget s idx amount
  | CmdSub idx amount => subtractFromTarget s idx amount
  | CmdRebalance => let '(s', m) := autoRebalance s in (s', Some m)
  end.

(** The state after a sequence of commands, and the lines printed. *)
Definition run (s : EditState) (cs : list Command) : EditState :=
  foldl (fun s c => (step s c).1) s cs.

Definition outcomes (s : EditState) (cs : list Command) : list (option Message) :=
  (foldl (fun '(s, out) c => let '(s', m) := step s c in (s', out ++ [m])) (s, []) cs).2.

(** A record as [loadData] leaves it. *)
Definition sampleValidator (vote : string) (current tgt : number) (a : Action)
  : ValidatorData :=
  mkValidatorData vote None "" current "" "" 0 "" (Some tgt) (Some a).

(** The rational a finite number is; [0] for [NaN] and the infinities. *)
Definition exact (x : number) : Q :=
  match Prim2SF x with
  | S754_finite negative m e =>
      let magnitude :=
        if (0 <=? e)%Z then inject_Z (Z.pos m * 2 ^ e)
        else Qmake (Z.pos m) (Z.to_pos (2 ^ (- e))) in
      if negative then Qopp magnitude else magnitude
  | _ => 0%Q
  end.

(** The two rules of the specification on the sums of [validate]. *)
Definition ruleIncrease (s : EditState) : bool :=
  js_le (totalNeeded s) (availableReserve s + 0.01).

Definition ruleMinimum (s : EditState) : bool :=
  js_ge (totalWithNew s) (minStaked s - 0.01).

(** Two numbers compare: neither is [NaN]. *)
Definition comparable (a b : number) : Prop :=
  PrimFloat.compare a b <> FNotComparable.

End Binary64.

(** ** Allowance for binary64 rounding

    The program adds, subtracts and divides in binary64.  Each such step
    is off by at most 2^-53 of its result; [ROUNDING_UNIT] allows sixteen
    of them for every record.  The statements about sums of stake that
    are proved over the rationals leave this allowance, so that they are
    statements about the program's numbers as well, and they are made
    for amounts up to [MAX_MAGNITUDE], far from [Infinity]. *)
Definition ROUNDING_UNIT : Q := 1 # 562949953421312.

Definition MAX_MAGNITUDE : Q := 1000000000000000 # 1.

(** The size of the amounts of the existing validators, and of the whole
    plan. *)
Definition stakeMagnitude (s : EditState) : Q :=
  sumQ (map (fun v => Qabs (target v) + Qabs (activeBalance v)) (validators s)).

Definition planMagnitude (s : EditState) : Q :=
  stakeMagnitude s + sumQ (map (fun v => Qabs (target0 v)) (newValidators s))
  + Qabs (reserveBalance s).

Definition roundingAllowance (count : nat) (magnitude : Q) : Q :=
  inject_Z (Z.of_nat count) * magnitude * ROUNDING_UNIT.

(** The equal share the rebalance fills towards:
    [(totalActiveStake + removedStake) / activeValidators.length]. *)
Definition equalShare (s : EditState) : Q :=
  (totalTarget s + removedStake s) / inject_Z (Z.of_nat (activeCount s)).

(** Up to a million SOL, 10^15 lamports, binary64 arithmetic adds and
    subtracts whole numbers of lamports without error once the result is
    rounded by [roundToLamports]: the statements about exact amounts are
    made within this range. *)
Definition LAMPORT_EXACT_RANGE : Q := 1000000 # 1.

(** The allowance for binary64 rounding in sums over the whole plan. *)
Definition planAllowance (s : EditState) : Q :=
  roundingAllowance (length (allValidators s) + 1) (planMagnitude s).

(** * Properties *)

(** ** Comparisons and array access *)

Lemma Qltb_lt (a b : Q) : Qltb a b = true <-> a < b.
Proof.
  unfold Qltb. rewrite negb_true_iff. split.
  - intros H. apply Qnot_le_lt. intros Hle. apply Qle_bool_iff in Hle. congruence.
  - intros H. destruct (Qle_bool b a) eqn:E; [|reflexivity].
    apply Qle_bool_iff in E. lra.
Qed.

Lemma Qltb_ge (a b : Q) : Qltb a b = false <-> b <= a.
Proof.
  unfold Qltb. rewrite negb_false_iff. apply Qle_bool_iff.
Qed.

Lemma validAt_of_nat (arr : list ValidatorData) (i : nat) :
  validAt arr (Z.of_nat i) = arr !! i.
Proof.
  unfold validAt. rewrite Nat2Z.id.
  destruct (0 <=? Z.of_nat i)%Z eqn:E; [reflexivity|]. apply Z.leb_gt in E. lia.
Qed.

Lemma validAt_Some (arr : list ValidatorData) (idx : Z) (v : ValidatorData) :
  validAt arr idx = Some v -> (0 <= idx)%Z /\ arr !! Z.to_nat idx = Some v.
Proof.
  unfold validAt. destruct (0 <=? idx)%Z eqn:E; [|discriminate].
  apply Z.leb_le in E. auto.
Qed.

Lemma inNewRange_of_nat (s : EditState) (i : nat) :
  inNewRange s (Z.of_nat i) =
  (length (validators s) <=? i)%nat &&
  (i <? length (validators s) + length (newValidators s))%nat.
Proof.
  unfold inNewRange. f_equal.
  - destruct (length (validators s) <=? i)%nat eqn:E.
    + apply Nat.leb_le in E. apply Z.leb_le. lia.
    + apply Nat.leb_gt in E. apply Z.leb_gt. lia.
  - destruct (i <? length (validators s) + length (newValidators s))%nat eqn:E.
    + apply Nat.ltb_lt in E. apply Z.ltb_lt. lia.
    + apply Nat.ltb_ge in E. apply Z.ltb_ge. lia.
Qed.

(** A combined position is either a position of an existing validator or,
    shifted, of a new one; the loop finds the record accordingly. *)
Lemma allValidators_lookup (s : EditState) (i : nat) (v : ValidatorData) :
  allValidators s !! i = Some v ->
  ((i <? length (validators s))%nat = true /\
   validAt (validators s) (Z.of_nat i) = Some v) \/
  ((i <? length (validators s))%nat = false /\
   validAt (validators s) (Z.of_nat i) = None /\
   inNewRange s (Z.of_nat i) = true /\
   newIdx s (Z.of_nat i) = Z.of_nat (i - length (validators s)) /\
   validAt (newValidators s) (newIdx s (Z.of_nat i)) = Some v).
Proof.
  unfold allValidators. intros H. apply lookup_app_Some in H as [H|[Hle H]].
  - left. split; [|by rewrite validAt_of_nat].
    apply Nat.ltb_lt. by eapply lookup_lt_Some.
  - right. pose proof (lookup_lt_Some _ _ _ H) as Hlt.
    assert (Hn : newIdx s (Z.of_nat i) = Z.of_nat (i - length (validators s)))
      by (unfold newIdx; lia).
    split; [apply Nat.ltb_ge; lia|]. split.
    { rewrite validAt_of_nat. apply lookup_ge_None. lia. }
    split.
    { rewrite inNewRange_of_nat. apply andb_true_iff. split.
      - apply Nat.leb_le. lia.
      - apply Nat.ltb_lt. lia. }
    split; [exact Hn|]. rewrite Hn, validAt_of_nat. exact H.
Qed.

(** ** roundToLamports *)

(** A rounded amount is a whole number of lamports, the nearest one. *)
Lemma div_LAMPORTS_PER_SOL (k : Q) : k / LAMPORTS_PER_SOL == k * (1 # 1000000000).
Proof. unfold LAMPORTS_PER_SOL. field. Qed.

Lemma roundToLamports_near (x : Q) :
  x - HALF_LAMPORT < roundToLamports x /\ roundToLamports x <= x + HALF_LAMPORT.
Proof.
  unfold roundToLamports, Math_round, HALF_LAMPORT.
  rewrite div_LAMPORTS_PER_SOL. unfold LAMPORTS_PER_SOL.
  set (y := x * (1000000000 # 1) + (1 # 2)).
  pose proof (Qfloor_le y) as Hle.
  pose proof (Qlt_floor y) as Hlt.
  rewrite inject_Z_plus in Hlt. change (inject_Z 1) with 1 in Hlt.
  unfold y in *. set (k := inject_Z (Qfloor (x * (1000000000 # 1) + (1 # 2)))) in *.
  split; lra.
Qed.

#[global] Instance roundToLamports_proper : Proper (Qeq ==> Qeq) roundToLamports.
Proof.
  intros x y Hxy. unfold roundToLamports, Math_round.
  assert (E : Qfloor (x * LAMPORTS_PER_SOL + (1 # 2)) = Qfloor (y * LAMPORTS_PER_SOL + (1 # 2))).
  { apply Qfloor_comp. rewrite Hxy. reflexivity. }
  rewrite E. reflexivity.
Qed.

Lemma roundToLamports_mono (x y : Q) : x <= y -> roundToLamports x <= roundToLamports y.
Proof.
  intros Hxy. unfold roundToLamports, Math_round.
  rewrite !div_LAMPORTS_PER_SOL. unfold LAMPORTS_PER_SOL.
  assert (H : (Qfloor (x * (1000000000 # 1) + (1 # 2)) <=
               Qfloor (y * (1000000000 # 1) + (1 # 2)))%Z).
  { apply Qfloor_resp_le. lra. }
  rewrite Zle_Qle in H.
  set (a := inject_Z (Qfloor (x * (1000000000 # 1) + (1 # 2)))) in *.
  set (b := inject_Z (Qfloor (y * (1000000000 # 1) + (1 # 2)))) in *.
  lra.
Qed.

Lemma roundToLamports_idem (x : Q) : roundToLamports (roundToLamports x) == roundToLamports x.
Proof.
  unfold roundToLamports. generalize (Math_round (x * LAMPORTS_PER_SOL)). intros k.
  assert (E : Math_round (inject_Z k / LAMPORTS_PER_SOL * LAMPORTS_PER_SOL) = k).
  { unfold Math_round.
    assert (Hk : inject_Z k / LAMPORTS_PER_SOL * LAMPORTS_PER_SOL + (1 # 2)
                 == inject_Z k + (1 # 2))
      by (unfold LAMPORTS_PER_SOL; field).
    rewrite (Qfloor_comp _ _ Hk).
    apply Z.le_antisymm.
    - apply Z.lt_succ_r. rewrite Zlt_Qlt.
      eapply Qle_lt_trans; [apply Qfloor_le|].
      unfold Z.succ. rewrite inject_Z_plus. change (inject_Z 1) with 1. lra.
    - rewrite <- (Qfloor_Z k) at 1. apply Qfloor_resp_le. lra. }
  rewrite E. reflexivity.
Qed.

(** A non-negative amount rounds to a non-negative amount. *)
Lemma roundToLamports_nonneg (x : Q) : 0 <= x -> 0 <= roundToLamports x.
Proof.
  intros Hx. assert (H0 : roundToLamports 0 == 0) by reflexivity.
  rewrite <- H0. by apply roundToLamports_mono.
Qed.

(** ** Removal and undo *)

Lemma markRemoved_at (s : EditState) (i : nat) (v : ValidatorData) :
  validators s !! i = Some v ->
  markRemoved s (Z.of_nat i) =
  (with_validators (<[i := set_targetBalance 0 (set_action remove v)]> (validators s)) s, None).
Proof.
  intros H. unfold markRemoved. by rewrite validAt_of_nat, H, Nat2Z.id.
Qed.

Lemma undoRemoved_at (s : EditState) (i : nat) (v : ValidatorData) :
  validators s !! i = Some v ->
  undoRemoved s (Z.of_nat i) =
  (with_validators
     (<[i := set_targetBalance (activeBalance v) (set_action keep v)]> (validators s)) s, None).
Proof.
  intros H. unfold undoRemoved. by rewrite validAt_of_nat, H, Nat2Z.id.
Qed.

Lemma with_validators_twice (vs vs' : list ValidatorData) (s : EditState) :
  with_validators vs (with_validators vs' s) = with_validators vs s.
Proof. reflexivity. Qed.

(** C4. For a valid position [i] of an existing validator: after
    [markRemoved] the record at [i] has action [remove] and target 0, and
    removing again changes nothing; a following [undoRemoved] leaves action
    [keep] and a target that is exactly the current balance, whatever the
    target was before the removal; and [undoRemoved] on the state that was
    never marked gives that very same state. *)
Theorem markRemoved_undoRemoved_post (s : EditState) (i : nat) (v : ValidatorData) :
  validators s !! i = Some v ->
  let s1 := (markRemoved s (Z.of_nat i)).1 in
  let s2 := (undoRemoved s1 (Z.of_nat i)).1 in
  (exists v1, validators s1 !! i = Some v1 /\
              action v1 = Some remove /\ targetBalance v1 = Some 0) /\
  (markRemoved s1 (Z.of_nat i)).1 = s1 /\
  (exists v2, validators s2 !! i = Some v2 /\
              action v2 = Some keep /\ targetBalance v2 = Some (activeBalance v) /\
              activeBalance v2 = activeBalance v) /\
  (undoRemoved s (Z.of_nat i)).1 = s2.
Proof.
  intros H s1 s2.
  pose proof (lookup_lt_Some _ _ _ H) as Hlt.
  set (v1 := set_targetBalance 0 (set_action remove v)).
  assert (E1 : s1 = with_validators (<[i := v1]> (validators s)) s).
  { unfold s1. by rewrite (markRemoved_at s i v H). }
  assert (L1 : validators s1 !! i = Some v1).
  { rewrite E1. simpl. by apply list_lookup_insert_eq. }
  assert (E2 : s2 = with_validators
                      (<[i := set_targetBalance (activeBalance v) (set_action keep v)]>
                         (validators s)) s).
  { unfold s2. rewrite (undoRemoved_at s1 i v1 L1). simpl. rewrite E1. simpl.
    rewrite with_validators_twice, list_insert_insert_eq. reflexivity. }
  split; [|split; [|split]].
  - exists v1. auto.
  - rewrite (markRemoved_at s1 i v1 L1). simpl. rewrite E1. simpl.
    rewrite with_validators_twice, list_insert_insert_eq. reflexivity.
  - exists (set_targetBalance (activeBalance v) (set_action keep v)).
    rewrite E2. simpl. split; [by apply list_lookup_insert_eq|auto].
  - rewrite (undoRemoved_at s i v H). simpl. by rewrite E2.
Qed.

Lemma markRemoved_undoRemoved_post_witness :
  let s := mkEditState [sampleValidator "A" 1000 1200 keep; sampleValidator "B" 500 500 keep]
             [] "" 0 in
  (undoRemoved s 0).1 = (undoRemoved (markRemoved s 0).1 0).1.
Proof.
  intros s.
  exact (proj2 (proj2 (proj2
    (markRemoved_undoRemoved_post s 0 (sampleValidator "A" 1000 1200 keep) eq_refl)))).
Defined.

(** ** Adjusting a target *)

Lemma replaceAt_existing (s : EditState) (i : nat) (v' : ValidatorData) :
  (i <? length (validators s))%nat = true ->
  replaceAt s i v' = with_validators (<[i := v']> (validators s)) s.
Proof. intros H. unfold replaceAt. by rewrite H. Qed.

Lemma replaceAt_new (s : EditState) (i : nat) (v' : ValidatorData) :
  (i <? length (validators s))%nat = false ->
  replaceAt s i v' =
  with_newValidators (<[(i - length (validators s))%nat := v']> (newValidators s)) s.
Proof. intros H. unfold replaceAt. by rewrite H. Qed.

Lemma is_remove_true (v : ValidatorData) : is_remove v = true <-> action v = Some remove.
Proof.
  unfold is_remove. destruct (action v) as [[]|]; split; congruence.
Qed.

Lemma is_remove_false (v : ValidatorData) : is_remove v = false <-> action v <> Some remove.
Proof.
  unfold is_remove. destruct (action v) as [[]|]; split; congruence.
Qed.

(** The case analysis shared by the proofs about [+] and [-]: the record
    at combined position [i] is an existing validator or a new one. *)
Ltac at_position H :=
  destruct (allValidators_lookup _ _ _ H) as [[Hi Hv]|(Hi & Hnone & Hrange & Hidx & Hv)].

Lemma addToTarget_removed (s : EditState) (i : nat) (v : ValidatorData) (delta : Q) :
  proposedAreAdd s -> allValidators s !! i = Some v -> action v = Some remove ->
  addToTarget s (Z.of_nat i) (Some delta) = (s, Some CannotAddToRemoved).
Proof.
  intros Hwf H Hrem. at_position H.
  - unfold addToTarget. rewrite Hv. apply is_remove_true in Hrem. by rewrite Hrem.
  - exfalso. apply validAt_Some in Hv as [_ Hv].
    assert (Hadd : action v = Some add).
    { apply Hwf. apply list_elem_of_lookup. eauto. }
    congruence.
Qed.

Lemma subtractFromTarget_removed (s : EditState) (i : nat) (v : ValidatorData) (delta : Q) :
  proposedAreAdd s -> allValidators s !! i = Some v -> action v = Some remove ->
  subtractFromTarget s (Z.of_nat i) (Some delta) = (s, Some CannotDecreaseRemoved).
Proof.
  intros Hwf H Hrem. at_position H.
  - unfold subtractFromTarget. rewrite Hv. apply is_remove_true in Hrem. by rewrite Hrem.
  - exfalso. apply validAt_Some in Hv as [_ Hv].
    assert (Hadd : action v = Some add).
    { apply Hwf. apply list_elem_of_lookup. eauto. }
    congruence.
Qed.

Lemma addToTarget_ok (s : EditState) (i : nat) (v : ValidatorData) (delta : Q) :
  allValidators s !! i = Some v -> action v <> Some remove ->
  addToTarget s (Z.of_nat i) (Some delta) =
  (replaceAt s i (set_targetBalance (roundToLamports (currentTargetAt s i v + delta)) v), None).
Proof.
  intros H Hrem. apply is_remove_false in Hrem. unfold currentTargetAt. at_position H.
  - unfold addToTarget. rewrite Hv, Hrem, Hi, Nat2Z.id.
    by rewrite replaceAt_existing.
  - unfold addToTarget. rewrite Hnone, Hrange, Hv, Hi, Hidx, Nat2Z.id.
    by rewrite replaceAt_new.
Qed.

Lemma subtractFromTarget_negative (s : EditState) (i : nat) (v : ValidatorData) (delta : Q) :
  allValidators s !! i = Some v -> action v <> Some remove ->
  roundToLamports (currentTargetAt s i v - delta) < 0 ->
  subtractFromTarget s (Z.of_nat i) (Some delta) = (s, Some CannotGoBelowZero).
Proof.
  intros H Hrem Hneg. apply is_remove_false in Hrem. apply Qltb_lt in Hneg.
  unfold currentTargetAt in Hneg. at_position H; rewrite Hi in Hneg.
  - unfold subtractFromTarget. by rewrite Hv, Hrem, Hneg.
  - unfold subtractFromTarget. by rewrite Hnone, Hrange, Hv, Hneg.
Qed.

Lemma subtractFromTarget_ok (s : EditState) (i : nat) (v : ValidatorData) (delta : Q) :
  allValidators s !! i = Some v -> action v <> Some remove ->
  0 <= roundToLamports (currentTargetAt s i v - delta) ->
  subtractFromTarget s (Z.of_nat i) (Some delta) =
  (replaceAt s i (set_targetBalance (roundToLamports (currentTargetAt s i v - delta)) v), None).
Proof.
  intros H Hrem Hpos. apply is_remove_false in Hrem. apply Qltb_ge in Hpos.
  unfold currentTargetAt in *. at_position H; rewrite Hi in *.
  - unfold subtractFromTarget. rewrite Hv, Hrem, Hpos, Nat2Z.id.
    by rewrite replaceAt_existing.
  - unfold subtractFromTarget. rewrite Hnone, Hrange, Hv, Hpos, Hidx, Nat2Z.id.
    by rewrite replaceAt_new.
Qed.

(** C5. For a state of the data model and a valid combined position [i]
    holding [v]: on a record marked [remove] both adjustments report an
    InvalidOperation and return the state as it was; otherwise [+] stores
    [roundToLamports (current + delta)], and [-] reports an
    InvalidOperation with the state as it was when
    [roundToLamports (current - delta)] is negative and stores that value
    when it is not.  [roundToLamports x] is [round(x * 10^9) / 10^9]: a
    whole number [k] of lamports with [x * 10^9 - 1/2 < k <= x * 10^9 + 1/2]. *)
Theorem adjust_target_contract (s : EditState) (i : nat) (v : ValidatorData) (delta : Q) :
  proposedAreAdd s ->
  allValidators s !! i = Some v ->
  let current := currentTargetAt s i v in
  (action v = Some remove ->
   exists m m',
     addToTarget s (Z.of_nat i) (Some delta) = (s, Some m) /\
     subtractFromTarget s (Z.of_nat i) (Some delta) = (s, Some m') /\
     reportedError m = Some InvalidOperation /\
     reportedError m' = Some InvalidOperation) /\
  (action v <> Some remove ->
   addToTarget s (Z.of_nat i) (Some delta) =
     (replaceAt s i (set_targetBalance (roundToLamports (current + delta)) v), None) /\
   (roundToLamports (current - delta) < 0 ->
    exists m,
      subtractFromTarget s (Z.of_nat i) (Some delta) = (s, Some m) /\
      reportedError m = Some InvalidOperation) /\
   (0 <= roundToLamports (current - delta) ->
    subtractFromTarget s (Z.of_nat i) (Some delta) =
      (replaceAt s i (set_targetBalance (roundToLamports (current - delta)) v), None))) /\
  (forall x : Q, exists k : Z,
     roundToLamports x == inject_Z k / LAMPORTS_PER_SOL /\
     x * LAMPORTS_PER_SOL - (1 # 2) < inject_Z k /\
     inject_Z k <= x * LAMPORTS_PER_SOL + (1 # 2)).
Proof.
  intros Hwf H current. split; [|split].
  - intros Hrem. exists CannotAddToRemoved, CannotDecreaseRemoved.
    split; [by eapply addToTarget_removed|].
    split; [by eapply subtractFromTarget_removed|]. split; reflexivity.
  - intros Hrem. split; [by apply addToTarget_ok|]. split.
    + intros Hneg. exists CannotGoBelowZero.
      split; [by eapply subtractFromTarget_negative|reflexivity].
    + intros Hpos. by apply subtractFromTarget_ok.
  - intros x. exists (Math_round (x * LAMPORTS_PER_SOL)).
    split; [reflexivity|]. unfold Math_round.
    pose proof (Qfloor_le (x * LAMPORTS_PER_SOL + (1 # 2))) as Hle.
    pose proof (Qlt_floor (x * LAMPORTS_PER_SOL + (1 # 2))) as Hlt.
    rewrite inject_Z_plus in Hlt. change (inject_Z 1) with 1 in Hlt.
    split; lra.
Qed.

Lemma adjust_target_contract_witness :
  let s := mkEditState [sampleValidator "A" 1000 1000 keep; sampleValidator "B" 500 0 remove]
             [sampleValidator "N" 0 3 add] "" 0 in
  addToTarget s 2 (Some (1 # 4)) =
  (replaceAt s 2 (set_targetBalance (roundToLamports (3 + (1 # 4)))
                    (sampleValidator "N" 0 3 add)), None).
Proof.
  intros s.
  assert (Hwf : proposedAreAdd s).
  { intros v Hv. apply list_elem_of_In in Hv. simpl in Hv.
    destruct Hv as [<-|[]]. reflexivity. }
  assert (Hadd : action (sampleValidator "N" 0 3 add) <> Some remove) by discriminate.
  exact (proj1 (proj1 (proj2
    (adjust_target_contract s 2 (sampleValidator "N" 0 3 add) (1 # 4) Hwf eq_refl)) Hadd)).
Defined.

(** ** Adding a validator *)

Lemma voteAccountExists_iff (s : EditState) (x : string) :
  voteAccountExists s x = true <-> exists v, v ∈ allValidators s /\ voteAccount v = x.
Proof.
  unfold voteAccountExists, allValidators. rewrite orb_true_iff, !existsb_exists. split.
  - intros [(v & Hin & Hv)|(v & Hin & Hv)]; exists v; apply String.eqb_eq in Hv;
      (split; [|exact Hv]); apply elem_of_app; [left|right]; by apply list_elem_of_In.
  - intros (v & Hin & Hv). apply elem_of_app in Hin as [Hin|Hin]; [left|right];
      exists v; (split; [by apply list_elem_of_In|by apply String.eqb_eq]).
Qed.

Lemma entriesFor_absent (x : string) (l : list ValidatorData) :
  existsb (fun v => String.eqb (voteAccount v) x) l = false -> entriesFor x l = 0%nat.
Proof.
  unfold entriesFor. induction l as [|v l IH]; simpl; [reflexivity|].
  intros H. apply orb_false_iff in H as [Hv Hl]. rewrite Hv. auto.
Qed.

Lemma addValidator_duplicate (s : EditState) (identity : string)
    (result : VoteAccountCheck) (validatorName : option string) :
  voteAccountExists s identity = true ->
  addValidator s identity result validatorName = (s, Some ValidatorAlreadyExists).
Proof. intros H. unfold addValidator. by rewrite H. Qed.

(** When the command answers [Added], neither the address typed nor the
    vote account it resolves to was in the state, and one record was
    pushed. *)
Lemma addValidator_added (s s' : EditState) (identity : string)
    (result : VoteAccountCheck) (validatorName : option string) :
  addValidator s identity result validatorName = (s', Some Added) ->
  voteAccountExists s identity = false /\
  valid result = true /\
  voteAccountExists s (checkedVoteAccount result) = false /\
  s' = with_newValidators
         (newValidators s ++ [newValidator (checkedVoteAccount result) validatorName]) s.
Proof.
  unfold addValidator.
  destruct (voteAccountExists s identity); [discriminate|].
  destruct (valid result); simpl; [|discriminate].
  destruct (voteAccountExists s (checkedVoteAccount result)); [discriminate|].
  intros [= <-]. auto.
Qed.

(** C6. [addValidator] reports a DuplicateValidator and returns the state
    as it was when the identity is already present among the existing or
    the proposed validators.  When it succeeds it pushes exactly one record
    onto [newValidators], with current balance 0, target 0 and action
    [add], and changes nothing else.  After a success, the same command
    again (the chain lookup answering as before) reports a
    DuplicateValidator, returns the state as it was, and [newValidators]
    holds exactly one entry for the vote account of that identity. *)
Theorem addValidator_contract (s : EditState) (identity : string)
    (result : VoteAccountCheck) (validatorName validatorName' : option string) :
  ((exists v, v ∈ allValidators s /\ voteAccount v = identity) ->
   exists m, addValidator s identity result validatorName = (s, Some m) /\
             reportedError m = Some DuplicateValidator) /\
  (forall s', addValidator s identity result validatorName = (s', Some Added) ->
     (exists r, s' = with_newValidators (newValidators s ++ [r]) s /\
                voteAccount r = checkedVoteAccount result /\
                activeBalance r = 0 /\ targetBalance r = Some 0 /\
                action r = Some add) /\
     (exists m, addValidator s' identity result validatorName' = (s', Some m) /\
                reportedError m = Some DuplicateValidator) /\
     entriesFor (checkedVoteAccount result) (newValidators s') = 1%nat).
Proof.
  split.
  - intros Hex. apply voteAccountExists_iff in Hex.
    exists ValidatorAlreadyExists. split; [by apply addValidator_duplicate|reflexivity].
  - intros s' Hadd. apply addValidator_added in Hadd as (Hid & Hvalid & Hres & ->).
    split; [|split].
    + exists (newValidator (checkedVoteAccount result) validatorName). auto.
    + assert (Hnow : voteAccountExists
                       (with_newValidators
                          (newValidators s ++
                           [newValidator (checkedVoteAccount result) validatorName]) s)
                       (checkedVoteAccount result) = true).
      { unfold voteAccountExists. simpl. rewrite existsb_app. simpl.
        rewrite String.eqb_refl. by rewrite !orb_true_r. }
      unfold addValidator. rewrite Hvalid, Hnow. simpl.
      destruct (voteAccountExists (with_newValidators _ _) identity).
      * exists ValidatorAlreadyExists. auto.
      * exists AlreadyInPool. auto.
    + simpl. unfold entriesFor. rewrite List.filter_app, length_app. simpl.
      rewrite String.eqb_refl. simpl.
      apply orb_false_iff in Hres as [_ Hres].
      apply entriesFor_absent in Hres. unfold entriesFor in Hres. by rewrite Hres.
Qed.

Lemma addValidator_contract_witness :
  let s := mkEditState [sampleValidator "A" 1000 1000 keep] [] "" 0 in
  let result := mkVoteAccountCheck true "X" None in
  let s1 := with_newValidators [newValidator "X" None] s in
  addValidator s "X" result None = (s1, Some Added) /\
  (exists m, addValidator s1 "X" result None = (s1, Some m) /\
             reportedError m = Some DuplicateValidator) /\
  entriesFor "X" (newValidators s1) = 1%nat /\
  (exists m, addValidator s "A" result None = (s, Some m) /\
             reportedError m = Some DuplicateValidator).
Proof.
  intros s result s1.
  pose proof (addValidator_contract s "X" result None None) as [_ Hok].
  pose proof (addValidator_contract s "A" result None None) as [Hdup _].
  destruct (Hok s1 eq_refl) as (_ & Hagain & Hone).
  split; [reflexivity|]. split; [exact Hagain|]. split; [exact Hone|].
  apply Hdup. exists (sampleValidator "A" 1000 1000 keep).
  split; [apply list_elem_of_here|reflexivity].
Defined.

(** ** autoRebalance: what each loop may do to a record *)

Lemma raised_refl (v : ValidatorData) : raised v v.
Proof. by left. Qed.

Lemma set_targetBalance_twice (x y : Q) (v : ValidatorData) :
  set_targetBalance x (set_targetBalance y v) = set_targetBalance x v.
Proof. reflexivity. Qed.

Lemma raised_trans (v1 v2 v3 : ValidatorData) : raised v1 v2 -> raised v2 v3 -> raised v1 v3.
Proof.
  intros [->|(Ha & x & -> & Hx & Hle)]; [auto|].
  intros [->|(Ha' & y & -> & Hy & Hle')].
  - right. split; [exact Ha|]. exists x. auto.
  - right. split; [exact Ha|]. exists y. rewrite set_targetBalance_twice.
    split; [reflexivity|]. split; [exact Hy|].
    change (target (set_targetBalance x v1)) with x in Hle'.
    rewrite Hx in Hle'. lra.
Qed.

Lemma raised_action (v v' : ValidatorData) : raised v v' -> action v' = action v.
Proof. intros [->|(_ & x & -> & _)]; reflexivity. Qed.

Lemma raised_not_remove (v v' : ValidatorData) : raised v v' -> not_remove v' = not_remove v.
Proof.
  intros H. unfold not_remove, is_remove. by rewrite (raised_action _ _ H).
Qed.

Lemma raisedAll_refl (vs : list ValidatorData) : Forall2 raised vs vs.
Proof. induction vs; constructor; auto using raised_refl. Qed.

Lemma raisedAll_trans (l1 l2 l3 : list ValidatorData) :
  Forall2 raised l1 l2 -> Forall2 raised l2 l3 -> Forall2 raised l1 l3.
Proof.
  intros H12. revert l3. induction H12 as [|x y l k Hxy _ IH]; intros l3 H23.
  - inversion H23. constructor.
  - inversion H23 as [|? z ? k3 Hyz Hk]; subst. constructor.
    + by eapply raised_trans.
    + by apply IH.
Qed.

Lemma raisedAll_insert (vs : list ValidatorData) (i : nat) (v v' : ValidatorData) :
  vs !! i = Some v -> raised v v' -> Forall2 raised vs (<[i := v']> vs).
Proof.
  intros Hi Hr. rewrite <- (list_insert_id vs i v Hi) at 1.
  apply Forall2_insert; [apply raisedAll_refl|exact Hr].
Qed.

Lemma allActive_raised (order : list nat) (vs vs' : list ValidatorData) :
  Forall2 raised vs vs' -> allActive order vs -> allActive order vs'.
Proof.
  intros HR Hact i v' Hin Hi.
  destruct (Forall2_lookup_r _ _ _ _ _ HR Hi) as (v & Hv & Hvv').
  rewrite (raised_not_remove _ _ Hvv'). by eapply Hact.
Qed.

Lemma allActive_tail (i : nat) (order : list nat) (vs : list ValidatorData) :
  allActive (i :: order) vs -> allActive order vs.
Proof. intros H j v Hj. apply H. by apply list_elem_of_further. Qed.

(** One step of the first loop raises the record it writes. *)
Lemma raised_fill (v : ValidatorData) (toAdd : Q) :
  not_remove v = true -> 0 <= toAdd ->
  raised v (set_targetBalance (roundToLamports (target v + toAdd)) v).
Proof.
  intros Ha Hadd. right. split; [exact Ha|]. eexists. split; [reflexivity|].
  split; [apply roundToLamports_idem|]. apply roundToLamports_mono. lra.
Qed.

Lemma Math_min_pos (a b : Q) : 0 < a -> 0 < b -> 0 < Math_min a b.
Proof. intros Ha Hb. unfold Math_min. by destruct (Qle_bool a b). Qed.

Lemma Math_min_le_r (a b : Q) : Math_min a b <= b.
Proof.
  unfold Math_min. destruct (Qle_bool a b) eqn:E; [by apply Qle_bool_iff|lra].
Qed.

Lemma Qle_bool_false (a b : Q) : Qle_bool a b = false -> b < a.
Proof.
  intros H. apply Qnot_le_lt. intros Hle. apply Qle_bool_iff in Hle. congruence.
Qed.

Lemma distribute_raised (T : Q) (order : list nat) (vs : list ValidatorData) (remaining : Q) :
  allActive order vs -> Forall2 raised vs (distribute T order vs remaining).1.
Proof.
  revert vs remaining. induction order as [|i order IH]; intros vs remaining Hact; simpl.
  - apply raisedAll_refl.
  - destruct (Qle_bool remaining 0) eqn:Hrem; [apply raisedAll_refl|].
    apply Qle_bool_false in Hrem.
    destruct (vs !! i) as [v|] eqn:Hi; [|apply IH; by eapply allActive_tail].
    destruct (Qgtb (T - target v) 0) eqn:Hdef; [|apply IH; by eapply allActive_tail].
    apply Qltb_lt in Hdef.
    assert (Hv : not_remove v = true) by (eapply Hact; [apply list_elem_of_here|exact Hi]).
    assert (Hstep : Forall2 raised vs
              (<[i := set_targetBalance
                        (roundToLamports (target v + Math_min (T - target v) remaining)) v]> vs)).
    { eapply raisedAll_insert; [exact Hi|]. apply raised_fill; [exact Hv|].
      apply Qlt_le_weak. by apply Math_min_pos. }
    eapply raisedAll_trans; [exact Hstep|]. apply IH.
    eapply allActive_raised; [exact Hstep|]. by eapply allActive_tail.
Qed.

Lemma spread_raised (per : Q) (order : list nat) (vs : list ValidatorData) :
  0 <= per -> allActive order vs -> Forall2 raised vs (spread per order vs).
Proof.
  intros Hper. revert vs. induction order as [|i order IH]; intros vs Hact; simpl.
  - apply raisedAll_refl.
  - destruct (vs !! i) as [v|] eqn:Hi; [|apply IH; by eapply allActive_tail].
    assert (Hv : not_remove v = true) by (eapply Hact; [apply list_elem_of_here|exact Hi]).
    assert (Hstep : Forall2 raised vs
              (<[i := set_targetBalance (roundToLamports (target v + per)) v]> vs)).
    { eapply raisedAll_insert; [exact Hi|]. by apply raised_fill. }
    eapply raisedAll_trans; [exact Hstep|]. apply IH.
    eapply allActive_raised; [exact Hstep|]. by eapply allActive_tail.
Qed.

(** ** The order of the rebalance *)

Lemma positions_elem_of (p : ValidatorData -> bool) (vs : list ValidatorData) (k i : nat) :
  i ∈ positions p vs k <->
  (k <= i)%nat /\ exists v, vs !! (i - k)%nat = Some v /\ p v = true.
Proof.
  revert k. induction vs as [|v vs IH]; intros k; simpl.
  - split; [intros H; by apply elem_of_nil in H|intros (_ & w & Hw & _); discriminate].
  - assert (Hrest : i ∈ positions p vs (S k) <->
                    (k < i)%nat /\ exists w, (v :: vs) !! (i - k)%nat = Some w /\ p w = true).
    { rewrite IH. split.
      - intros (Hle & w & Hw & Hp). split; [lia|]. exists w. split; [|exact Hp].
        replace (i - k)%nat with (S (i - S k)) by lia. exact Hw.
      - intros (Hlt & w & Hw & Hp). split; [lia|]. exists w. split; [|exact Hp].
        replace (i - k)%nat with (S (i - S k)) in Hw by lia. exact Hw. }
    destruct (p v) eqn:Hpv.
    + rewrite elem_of_cons, Hrest. split.
      * intros [->|(Hlt & Hw)]; [|split; [lia|exact Hw]].
        split; [lia|]. exists v. by rewrite Nat.sub_diag.
      * intros (Hle & w & Hw & Hp). destruct (decide (i = k)) as [->|Hne]; [by left|].
        right. split; [lia|]. by exists w.
    + rewrite Hrest. split.
      * intros (Hlt & Hw). split; [lia|exact Hw].
      * intros (Hle & w & Hw & Hp). destruct (decide (i = k)) as [->|Hne].
        { rewrite Nat.sub_diag in Hw. simpl in Hw. congruence. }
        split; [lia|]. by exists w.
Qed.

Lemma positions_length (p : ValidatorData -> bool) (vs : list ValidatorData) (k : nat) :
  length (positions p vs k) = length (List.filter p vs).
Proof.
  revert k. induction vs as [|v vs IH]; intros k; simpl; [reflexivity|].
  destruct (p v); simpl; by rewrite IH.
Qed.

Lemma sort_insert_perm (vs : list ValidatorData) (a : nat) (l : list nat) :
  sort_insert vs a l ≡ₚ a :: l.
Proof.
  induction l as [|b l IH]; simpl; [reflexivity|].
  destruct (Qltb (compareTarget vs b a) 0); [|reflexivity].
  rewrite IH. apply Permutation_swap.
Qed.

Lemma sort_by_target_perm (vs : list ValidatorData) (l : list nat) :
  sort_by_target vs l ≡ₚ l.
Proof.
  induction l as [|a l IH]; simpl; [reflexivity|].
  rewrite sort_insert_perm. by constructor.
Qed.

Lemma activeValidators_perm (s : EditState) :
  activeValidators s ≡ₚ positions not_remove (validators s) 0.
Proof. apply sort_by_target_perm. Qed.

Lemma activeValidators_elem_of (s : EditState) (i : nat) :
  i ∈ activeValidators s <-> exists v, validators s !! i = Some v /\ not_remove v = true.
Proof.
  rewrite (activeValidators_perm s), positions_elem_of, Nat.sub_0_r.
  split; [intros [_ H]; exact H|intros H; split; [lia|exact H]].
Qed.

Lemma activeValidators_length (s : EditState) : length (activeValidators s) = activeCount s.
Proof.
  unfold activeCount. rewrite (Permutation_length (activeValidators_perm s)).
  apply positions_length.
Qed.

Lemma activeValidators_allActive (s : EditState) : allActive (activeValidators s) (validators s).
Proof.
  intros i v Hin Hi. apply activeValidators_elem_of in Hin as (w & Hw & Hp). congruence.
Qed.

Lemma inject_nat_nonneg (n : nat) : 0 <= inject_Z (Z.of_nat n).
Proof. change 0 with (inject_Z 0). rewrite <- Zle_Qle. lia. Qed.

Lemma inject_nat_pos (n : nat) : n <> 0%nat -> 0 < inject_Z (Z.of_nat n).
Proof. intros H. change 0 with (inject_Z 0). rewrite <- Zlt_Qlt. lia. Qed.

Lemma share_nonneg (x : Q) (n : nat) : 0 <= x -> 0 <= x / inject_Z (Z.of_nat n).
Proof.
  intros Hx. unfold Qdiv. apply Qmult_le_0_compat; [exact Hx|].
  apply Qinv_le_0_compat, inject_nat_nonneg.
Qed.

(** The three lines [autoRebalance] can print, and the state it returns
    with each. *)
Lemma autoRebalance_cases (s : EditState) :
  (Qeq_bool (removedStake s) 0 = true /\
   autoRebalance s = (s, NoValidatorsMarkedForRemoval)) \/
  (Qeq_bool (removedStake s) 0 = false /\ activeValidators s = [] /\
   autoRebalance s = (s, NoActiveValidators)) \/
  (Qeq_bool (removedStake s) 0 = false /\ activeValidators s <> [] /\
   exists vs, autoRebalance s = (with_validators vs s, Redistributed) /\
              Forall2 raised (validators s) vs).
Proof.
  unfold autoRebalance. destruct (Qeq_bool (removedStake s) 0) eqn:Hrem; [by left|].
  right. destruct (activeValidators s) as [|i order] eqn:Hact; [by left|].
  right. split; [reflexivity|]. split; [discriminate|]. rewrite <- Hact.
  assert (Hlen : (length (activeValidators s) =? 0)%nat = false) by (by rewrite Hact).
  rewrite Hlen.
  pose proof (activeValidators_allActive s) as Hall.
  set (T := (reduce_sum (targetAt (validators s)) (activeValidators s) + removedStake s)
            / inject_Z (Z.of_nat (length (activeValidators s)))).
  pose proof (distribute_raised T (activeValidators s) (validators s) (removedStake s) Hall)
    as H1.
  destruct (distribute T (activeValidators s) (validators s) (removedStake s))
    as [vs1 remaining]. simpl in H1.
  eexists. split; [reflexivity|].
  destruct (Qgtb remaining 0) eqn:Hpos; [|exact H1].
  apply Qltb_lt in Hpos.
  eapply raisedAll_trans; [exact H1|]. apply spread_raised.
  - apply share_nonneg. lra.
  - by eapply allActive_raised.
Qed.

(** ** Frame and monotonicity of the rebalance *)



(** ** Errors leave the state alone *)

Lemma autoRebalance_no_error (s : EditState) : reportedError (autoRebalance s).2 = None.
Proof.
  destruct (autoRebalance_cases s) as [[_ ->]|[(_ & _ & ->)|(_ & _ & vs & -> & _)]];
    reflexivity.
Qed.

(** Case analysis on every test a command makes. *)
Ltac command_cases :=
  repeat match goal with
         | |- context [match ?x with _ => _ end] => destruct x eqn:?
         end.

Lemma outside_not_found (s : EditState) (idx : Z) :
  outsideCombinedRange s idx ->
  validAt (validators s) idx = None /\ inNewRange s idx = false.
Proof.
  unfold outsideCombinedRange, allValidators, validAt, inNewRange.
  rewrite length_app, Nat2Z.inj_add. intros [Hneg|Hge].
  - split.
    + destruct (0 <=? idx)%Z eqn:E; [|reflexivity]. apply Z.leb_le in E. lia.
    + apply andb_false_iff. left. apply Z.leb_gt. lia.
  - split.
    + destruct (0 <=? idx)%Z; [|reflexivity]. apply lookup_ge_None. lia.
    + apply andb_false_iff. right. apply Z.ltb_ge. lia.
Qed.

(** C7. Whenever a command of the loop reports an InvalidIndex, an
    InvalidOperation or a DuplicateValidator, the state it returns is the
    state it was given; and a command that names a position outside the
    combined range returns the state it was given, reporting an
    InvalidIndex or nothing. *)
Theorem error_leaves_state_unchanged (s : EditState) (c : Command) :
  (forall s' m e, step s c = (s', Some m) -> reportedError m = Some e -> s' = s) /\
  (forall idx, commandIndex c = Some idx -> outsideCombinedRange s idx ->
     (step s c).1 = s /\
     ((step s c).2 = None \/
      exists m, (step s c).2 = Some m /\ reportedError m = Some InvalidIndex)).
Proof.
  split.
  - intros s' m e.
    destruct c as [idx|idx|idx amount|idx amount|idx amount|vote result validatorName|];
      simpl.
    + unfold markRemoved. command_cases; intros [= <- <-]; done.
    + unfold undoRemoved. command_cases; intros [= <- <-]; done.
    + unfold setTarget. command_cases; intros [= <- <-]; done.
    + unfold addToTarget. command_cases; intros [= <- <-]; done.
    + unfold subtractFromTarget. command_cases; intros [= <- <-]; done.
    + unfold addValidator. command_cases; intros [= <- <-]; done.
    + pose proof (autoRebalance_no_error s) as Hno.
      destruct (autoRebalance s) as [s1 m1]. simpl in Hno.
      intros [= <- <-]. congruence.
  - intros idx Hc Hout. destruct (outside_not_found s idx Hout) as [Hnone Hrange].
    destruct c as [i|i|i amount|i amount|i amount|vote result validatorName|];
      simpl in Hc; try discriminate; injection Hc as ->; simpl.
    + unfold markRemoved. rewrite Hnone. simpl. split; [reflexivity|]. right. eauto.
    + unfold undoRemoved. rewrite Hnone. simpl. auto.
    + unfold setTarget. rewrite Hnone, Hrange. simpl. auto.
    + unfold addToTarget. rewrite Hnone, Hrange. simpl. split; [reflexivity|]. right. eauto.
    + unfold subtractFromTarget. rewrite Hnone, Hrange. simpl.
      split; [reflexivity|]. right. eauto.
Qed.

Lemma error_leaves_state_unchanged_witness :
  let s := mkEditState [sampleValidator "A" 1000 0 remove] [sampleValidator "N" 0 1 add] "" 0 in
  (step s (CmdRemove 2)).1 = s /\
  (step s (CmdAdd 0 (Some 5))).1 = s /\
  (step s (CmdSub 1 (Some 2))).1 = s /\
  (step s (CmdAddValidator "N" (mkVoteAccountCheck true "N" None) None)).1 = s /\
  (step s (CmdSet 7 (Some 3))).1 = s.
Proof.
  intros s. split; [|split; [|split; [|split]]].
  - exact (proj1 (error_leaves_state_unchanged s (CmdRemove 2)) _ InvalidValidatorNumber
             InvalidIndex eq_refl eq_refl).
  - exact (proj1 (error_leaves_state_unchanged s (CmdAdd 0 (Some 5))) _ CannotAddToRemoved
             InvalidOperation eq_refl eq_refl).
  - exact (proj1 (error_leaves_state_unchanged s (CmdSub 1 (Some 2))) _ CannotGoBelowZero
             InvalidOperation eq_refl eq_refl).
  - exact (proj1 (error_leaves_state_unchanged s
                    (CmdAddValidator "N" (mkVoteAccountCheck true "N" None) None))
             _ ValidatorAlreadyExists DuplicateValidator eq_refl eq_refl).
  - refine (proj1 (proj2 (error_leaves_state_unchanged s (CmdSet 7 (Some 3))) 7%Z eq_refl _)).
    right. vm_compute. discriminate.
Defined.

(** ** Invariant I2 *)

Lemma I2_insert (s : EditState) (i : nat) (v' : ValidatorData) :
  I2 s -> (action v' = Some remove -> targetBalance v' = Some 0) ->
  I2 (with_validators (<[i := v']> (validators s)) s).
Proof.
  intros HI Hv' w Hw. simpl in Hw. apply list_elem_of_lookup in Hw as [j Hj].
  destruct (decide (i = j)) as [->|Hne].
  - destruct (decide (j < length (validators s))%nat) as [Hlt|Hge].
    + rewrite list_lookup_insert_eq in Hj by exact Hlt. injection Hj as <-. exact Hv'.
    + rewrite list_insert_ge in Hj by lia. apply HI, list_elem_of_lookup. eauto.
  - rewrite list_lookup_insert_ne in Hj by exact Hne. apply HI, list_elem_of_lookup. eauto.
Qed.

Lemma I2_raised (s : EditState) (vs : list ValidatorData) :
  I2 s -> Forall2 raised (validators s) vs -> I2 (with_validators vs s).
Proof.
  intros HI HR w Hw Hrem. simpl in Hw. apply list_elem_of_lookup in Hw as [j Hj].
  destruct (Forall2_lookup_r _ _ _ _ _ HR Hj) as (v & Hv & [->|(Hact & x & -> & _)]).
  - apply HI; [|exact Hrem]. apply list_elem_of_lookup. eauto.
  - exfalso. apply is_remove_true in Hrem. unfold not_remove in Hact.
    change (is_remove (set_targetBalance x v)) with (is_remove v) in Hrem.
    rewrite Hrem in Hact. discriminate.
Qed.

(** Every command other than [s # AMT] keeps I2. *)
Lemma I2_kept_by_other_commands (s : EditState) (c : Command) :
  (forall idx amount, c <> CmdSet idx amount) -> I2 s -> I2 (step s c).1.
Proof.
  intros Hc HI.
  destruct c as [idx|idx|idx amount|idx amount|idx amount|vote result validatorName|];
    simpl.
  - unfold markRemoved. command_cases; simpl; [|exact HI]. by apply I2_insert.
  - unfold undoRemoved. command_cases; simpl; [|exact HI]. apply I2_insert; [exact HI|].
    discriminate.
  - by destruct (Hc idx amount).
  - unfold addToTarget. command_cases; simpl; try exact HI.
    apply I2_insert; [exact HI|]. intros Hrem. apply is_remove_true in Hrem.
    change (is_remove (set_targetBalance _ ?w)) with (is_remove w) in Hrem. congruence.
  - unfold subtractFromTarget. command_cases; simpl; try exact HI.
    apply I2_insert; [exact HI|]. intros Hrem. apply is_remove_true in Hrem.
    change (is_remove (set_targetBalance _ ?w)) with (is_remove w) in Hrem. congruence.
  - unfold addValidator. command_cases; simpl; exact HI.
  - destruct (autoRebalance_cases s) as [[_ E]|[(_ & _ & E)|(_ & _ & vs & E & HR)]];
      rewrite E; simpl; try exact HI. by apply I2_raised.
Qed.

(** C3. The code breaks the claim: [s 1 500] on a validator marked
    [remove] stores the target 500 and leaves the action [remove], so a
    state that satisfies I2 is taken to one that does not. *)
Theorem setTarget_breaks_I2 :
  let s := mkEditState [sampleValidator "A" 1000 0 remove] [] "" 0 in
  I2 s /\
  (setTarget s 0 (Some 500)).1 =
    mkEditState [sampleValidator "A" 1000 500 remove] [] "" 0 /\
  ~ I2 (setTarget s 0 (Some 500)).1.
Proof.
  intros s. split; [|split].
  - intros v Hv _. apply list_elem_of_In in Hv. simpl in Hv.
    destruct Hv as [<-|[]]. reflexivity.
  - reflexivity.
  - intros HI. specialize (HI (sampleValidator "A" 1000 500 remove)).
    assert (Hin : sampleValidator "A" 1000 500 remove ∈
                  validators (setTarget s 0 (Some 500)).1) by apply list_elem_of_here.
    specialize (HI Hin eq_refl). discriminate.
Qed.

(** ** Sums *)

Lemma fold_sum (A : Type) (f : A -> Q) (l : list A) (a : Q) :
  fold_left (fun s v => s + f v) l a == a + sumQ (map f l).
Proof.
  revert a. induction l as [|x l IH]; intros a; simpl; [lra|].
  rewrite IH. lra.
Qed.

Lemma reduce_sum_sumQ (A : Type) (f : A -> Q) (l : list A) :
  reduce_sum f l == sumQ (map f l).
Proof. unfold reduce_sum. rewrite fold_sum. lra. Qed.

Lemma sumQ_ext (A : Type) (f g : A -> Q) (l : list A) :
  (forall x, f x == g x) -> sumQ (map f l) == sumQ (map g l).
Proof.
  intros H. induction l as [|x l IH]; simpl; [reflexivity|]. by rewrite H, IH.
Qed.

(** [diff > 0 ? diff : 0] is [max(0, diff)]. *)
Lemma positive_part (d : Q) : (if Qgtb d 0 then d else 0) == Qmax 0 d.
Proof.
  destruct (Qgtb d 0) eqn:E.
  - apply Qltb_lt in E. rewrite Q.max_r; lra.
  - apply Qltb_ge in E. rewrite Q.max_l; lra.
Qed.

(** ** validate *)

Lemma removedStake_spec (s : EditState) : removedStake s == specRemovedStake s.
Proof. apply reduce_sum_sumQ. Qed.

Lemma decreasedStake_spec (s : EditState) : decreasedStake s == specDecreasedStake s.
Proof.
  unfold decreasedStake, specDecreasedStake. rewrite reduce_sum_sumQ.
  apply sumQ_ext. intros v. apply positive_part.
Qed.

Lemma totalNeeded_spec (s : EditState) : totalNeeded s == specIncreasedStake s.
Proof.
  unfold totalNeeded, increasedStake, newValidatorStake, specIncreasedStake.
  rewrite !reduce_sum_sumQ. apply Qplus_comp; [|reflexivity].
  apply sumQ_ext. intros v. apply positive_part.
Qed.

Lemma totalWithNew_spec (s : EditState) : totalWithNew s == specTotalTarget s.
Proof.
  unfold totalWithNew, totalTarget, newValidatorStake, specTotalTarget.
  by rewrite !reduce_sum_sumQ.
Qed.

(** Over the rationals [validate] answers [true] exactly when the plan is
    feasible in the sense of the specification: the stake to be newly
    sourced is at most reserve + removed + decreased stake + 0.01, and
    the total target is at least one unit per active validator minus
    0.01.  (For the program's own numbers see [validate_binary64_rules]
    and the theorem after it.) *)
Lemma validate_iff_feasible (s : EditState) : validate s = true <-> feasible s.
Proof.
  unfold validate, feasible, EPSILON, availableReserve, minStaked, activeValidatorCount.
  rewrite <- totalNeeded_spec, <- totalWithNew_spec, <- removedStake_spec,
    <- decreasedStake_spec.
  fold (specMinimumRequired s). unfold Qgtb.
  destruct (Qltb _ (totalNeeded s)) eqn:E1.
  { apply Qltb_lt in E1. split; [discriminate|]. intros [H _]. lra. }
  apply Qltb_ge in E1.
  destruct (Qltb (totalWithNew s) _) eqn:E2.
  { apply Qltb_lt in E2. split; [discriminate|]. intros [_ H]. lra. }
  apply Qltb_ge in E2. split; [|reflexivity]. intros _. split; lra.
Qed.

(** The boundary cases of the specification: reserve 50, one unchanged
    validator at 100 and one proposed validator at 50 pass; at 51 the
    plan is rejected. *)
Lemma validate_boundary :
  validate (mkEditState [sampleValidator "A" 100 100 keep]
                        [sampleValidator "N" 0 50 add] "" 50) = true /\
  validate (mkEditState [sampleValidator "A" 100 100 keep]
                        [sampleValidator "N" 0 51 add] "" 50) = false.
Proof. split; reflexivity. Qed.

(** ** When the rebalance does nothing *)

Lemma noneActive_iff (s : EditState) : noneActive s <-> activeValidators s = [].
Proof.
  split.
  - intros Hnone. destruct (activeValidators s) as [|i l] eqn:E; [reflexivity|].
    assert (Hi : i ∈ activeValidators s) by (rewrite E; apply list_elem_of_here).
    apply activeValidators_elem_of in Hi as (v & Hv & Hact).
    assert (Hrem : is_remove v = true) by (apply Hnone, list_elem_of_lookup; eauto).
    unfold not_remove in Hact. rewrite Hrem in Hact. discriminate.
  - intros Hnil v Hv. apply list_elem_of_lookup in Hv as [i Hi].
    destruct (is_remove v) eqn:Hrem; [reflexivity|].
    assert (Hin : i ∈ activeValidators s).
    { apply activeValidators_elem_of. exists v. unfold not_remove. by rewrite Hrem. }
    rewrite Hnil in Hin. by apply elem_of_nil in Hin.
Qed.

Lemma noneMarkedRemove_removedStake (s : EditState) :
  noneMarkedRemove s -> removedStake s = 0.
Proof.
  unfold noneMarkedRemove, removedStake. intros Hnone.
  assert (E : List.filter is_remove (validators s) = []).
  { induction (validators s) as [|v vs IH]; simpl; [reflexivity|].
    rewrite (Hnone v) by apply list_elem_of_here.
    apply IH. intros w Hw. apply Hnone. by apply list_elem_of_further. }
  by rewrite E.
Qed.

(** C9 as stated fails: a validator marked [remove] whose current balance
    is 0 and an active validator next to it; the rebalance returns the
    state as it was although a validator is marked [remove] and an active
    one exists. *)
Lemma autoRebalance_noop_with_removal_and_active :
  let s := mkEditState [sampleValidator "A" 100 100 keep; sampleValidator "B" 0 0 remove]
             [] "" 0 in
  ~ ((autoRebalance s).1 = s <-> noneMarkedRemove s \/ noneActive s).
Proof.
  intros s [Hno _]. destruct (Hno eq_refl) as [H|H].
  - specialize (H (sampleValidator "B" 0 0 remove)).
    assert (Hin : sampleValidator "B" 0 0 remove ∈ validators s)
      by (apply list_elem_of_further, list_elem_of_here).
    specialize (H Hin). discriminate.
  - specialize (H (sampleValidator "A" 100 100 keep)).
    assert (Hin : sampleValidator "A" 100 100 keep ∈ validators s)
      by apply list_elem_of_here.
    specialize (H Hin). discriminate.
Qed.

(** C9, amended.  [autoRebalance] takes its no-op path, returning the
    state as it was with a notice, exactly when the freed stake (the sum
    of the current balances of the validators marked [remove]) is zero,
    which is the case in particular when nothing is marked [remove], or
    when no existing validator is left active; in every other case it
    runs the redistribution and prints the redistribution line. *)
Theorem autoRebalance_noop_condition (s : EditState) :
  ((removedStake s == 0 \/ noneActive s) <->
   (autoRebalance s = (s, NoValidatorsMarkedForRemoval) \/
    autoRebalance s = (s, NoActiveValidators))) /\
  (~ (removedStake s == 0 \/ noneActive s) <-> (autoRebalance s).2 = Redistributed) /\
  (noneMarkedRemove s -> removedStake s == 0).
Proof.
  assert (Hnoop : (removedStake s == 0 \/ noneActive s) <->
                  (autoRebalance s = (s, NoValidatorsMarkedForRemoval) \/
                   autoRebalance s = (s, NoActiveValidators))).
  { rewrite noneActive_iff, <- Qeq_bool_iff.
    destruct (autoRebalance_cases s)
      as [[Hrem E]|[(Hrem & Hact & E)|(Hrem & Hact & vs & E & _)]]; rewrite E.
    - split; auto.
    - split; auto.
    - split; [intros [H|H]; congruence|]. intros [[=]|[=]]. }
  split; [exact Hnoop|]. split.
  - rewrite Hnoop.
    destruct (autoRebalance_cases s)
      as [[Hrem E]|[(Hrem & Hact & E)|(Hrem & Hact & vs & E & _)]]; rewrite E; simpl.
    + split; [intros H; exfalso; apply H; by left|discriminate].
    + split; [intros H; exfalso; apply H; by right|discriminate].
    + split; [reflexivity|]. intros _ [[=]|[=]].
  - intros H. by rewrite (noneMarkedRemove_removedStake s H).
Qed.

(** ** The order in which the rebalance fills *)

Lemma positions_increasing (p : ValidatorData -> bool) (vs : list ValidatorData) (k : nat) :
  StronglySorted lt (positions p vs k).
Proof.
  revert k. induction vs as [|v vs IH]; intros k; simpl; [constructor|].
  destruct (p v); [|apply IH]. constructor; [apply IH|].
  apply Forall_forall. intros i Hi. apply positions_elem_of in Hi as [Hle _]. lia.
Qed.

Lemma sort_insert_sorted (vs : list ValidatorData) (a : nat) (l : list nat) :
  StronglySorted (fillsBefore vs) l -> Forall (lt a) l ->
  StronglySorted (fillsBefore vs) (sort_insert vs a l).
Proof.
  induction l as [|b l IH]; intros Hsorted Hlt; simpl.
  - repeat constructor.
  - apply StronglySorted_cons in Hsorted as [Hb Hl].
    apply Forall_cons in Hlt as [Hab Hal].
    unfold compareTarget. destruct (Qltb (targetAt vs b - targetAt vs a) 0) eqn:E.
    + apply Qltb_lt in E. constructor; [by apply IH|].
      rewrite sort_insert_perm. constructor; [left; lra|exact Hb].
    + apply Qltb_ge in E. constructor; [by constructor|].
      constructor.
      * destruct (Qlt_le_dec (targetAt vs a) (targetAt vs b)) as [Hlt|Hge];
          [by left|right]. split; [lra|exact Hab].
      * apply Forall_forall. intros x Hx.
        pose proof (proj1 (Forall_forall _ _) Hb x Hx) as Hbx.
        pose proof (proj1 (Forall_forall _ _) Hal x Hx) as Hax.
        destruct (Qlt_le_dec (targetAt vs a) (targetAt vs x)) as [Hlt|Hge]; [by left|].
        right. split; [|exact Hax]. destruct Hbx as [Hbx|[Hbx _]]; lra.
Qed.

Lemma sort_by_target_sorted (vs : list ValidatorData) (l : list nat) :
  StronglySorted lt l -> StronglySorted (fillsBefore vs) (sort_by_target vs l).
Proof.
  induction l as [|a l IH]; intros Hl; simpl; [constructor|].
  apply StronglySorted_cons in Hl as [Ha Hl].
  apply sort_insert_sorted; [by apply IH|]. by rewrite sort_by_target_perm.
Qed.

(** Once the pool is exhausted the first loop writes nothing more. *)
Lemma distribute_exhausted (T : Q) (order : list nat) (vs : list ValidatorData) (remaining : Q) :
  remaining <= 0 -> distribute T order vs remaining = (vs, remaining).
Proof.
  intros H. apply Qle_bool_iff in H. destruct order; simpl; [reflexivity|by rewrite H].
Qed.

(** One step of the first loop on a validator below the equal share. *)
Lemma distribute_fill (T : Q) (i : nat) (rest : list nat) (vs : list ValidatorData)
    (remaining : Q) (v : ValidatorData) :
  0 < remaining -> vs !! i = Some v -> target v < T ->
  distribute T (i :: rest) vs remaining =
  distribute T rest
    (<[i := set_targetBalance
              (roundToLamports (target v + Math_min (T - target v) remaining)) v]> vs)
    (roundToLamports (remaining - Math_min (T - target v) remaining)).
Proof.
  intros Hrem Hi Hlt. simpl.
  assert (E1 : Qle_bool remaining 0 = false).
  { destruct (Qle_bool remaining 0) eqn:E; [|reflexivity]. apply Qle_bool_iff in E. lra. }
  assert (E2 : Qgtb (T - target v) 0 = true) by (apply Qltb_lt; lra).
  by rewrite E1, Hi, E2.
Qed.

(** A validator at or above the equal share is passed over. *)
Lemma distribute_skip (T : Q) (i : nat) (rest : list nat) (vs : list ValidatorData)
    (remaining : Q) (v : ValidatorData) :
  vs !! i = Some v -> T <= target v ->
  distribute T (i :: rest) vs remaining = distribute T rest vs remaining.
Proof.
  intros Hi Hge. simpl.
  assert (E2 : Qgtb (T - target v) 0 = false) by (apply Qltb_ge; lra).
  rewrite Hi, E2. destruct (Qle_bool remaining 0) eqn:E; [|reflexivity].
  apply Qle_bool_iff in E. by rewrite distribute_exhausted.
Qed.

Lemma distribute_other (T : Q) (order : list nat) (vs : list ValidatorData) (remaining : Q)
    (j : nat) :
  j ∉ order -> (distribute T order vs remaining).1 !! j = vs !! j.
Proof.
  revert vs remaining. induction order as [|i order IH]; intros vs remaining Hj; simpl;
    [reflexivity|].
  apply not_elem_of_cons in Hj as [Hne Hj].
  destruct (Qle_bool remaining 0); [reflexivity|].
  destruct (vs !! i) as [v|]; [|by apply IH].
  destruct (Qgtb (T - target v) 0); [|by apply IH].
  rewrite IH by exact Hj. apply list_lookup_insert_ne. congruence.
Qed.

Lemma activeValidators_NoDup (s : EditState) : NoDup (activeValidators s).
Proof.
  rewrite (activeValidators_perm s).
  generalize 0%nat. induction (validators s) as [|v vs IH]; intros k; simpl; [constructor|].
  destruct (not_remove v); [|apply IH]. constructor; [|apply IH].
  intros Hk. apply positions_elem_of in Hk as [Hle _]. lia.
Qed.

(** In the first loop a validator is written only after every validator
    before it in the order that stood below the equal share has been
    filled up to the share (rounded to lamports). *)
Lemma distribute_fills_in_order (T : Q) (l1 l2 l3 : list nat) (a b : nat)
    (vs : list ValidatorData) (remaining : Q) (v : ValidatorData) :
  NoDup (l1 ++ a :: l2 ++ b :: l3) ->
  vs !! a = Some v -> target v < T ->
  (distribute T (l1 ++ a :: l2 ++ b :: l3) vs remaining).1 !! b <> vs !! b ->
  targetAt (distribute T (l1 ++ a :: l2 ++ b :: l3) vs remaining).1 a == roundToLamports T.
Proof.
  revert vs remaining. induction l1 as [|c l1 IH]; intros vs remaining Hnd Ha Hlt Hb.
  - simpl in *. apply NoDup_cons in Hnd as [Hnotin Hnd].
    assert (Hab : a <> b).
    { intros ->. apply Hnotin. apply elem_of_app. right. apply list_elem_of_here. }
    destruct (Qle_bool remaining 0) eqn:Hrem; [by destruct Hb|].
    rewrite Ha in *.
    assert (Hdef : Qgtb (T - target v) 0 = true) by (apply Qltb_lt; lra).
    rewrite Hdef in *. unfold targetAt. rewrite distribute_other by exact Hnotin.
    rewrite list_lookup_insert_eq by (by eapply lookup_lt_Some).
    change (target (set_targetBalance ?x v)) with x.
    unfold Math_min in *. destruct (Qle_bool (T - target v) remaining) eqn:Hmin.
    + apply roundToLamports_proper. lra.
    + exfalso. apply Hb. rewrite distribute_exhausted.
      * simpl. apply list_lookup_insert_ne. exact Hab.
      * assert (E : remaining - remaining == 0) by lra.
        rewrite (roundToLamports_proper _ _ E). discriminate.
  - simpl in Hnd. apply NoDup_cons in Hnd as [Hnotin Hnd].
    assert (Hca : c <> a).
    { intros ->. apply Hnotin. apply elem_of_app. right. apply list_elem_of_here. }
    assert (Hcb : c <> b).
    { intros ->. apply Hnotin. apply elem_of_app. right. apply list_elem_of_further.
      apply elem_of_app. right. apply list_elem_of_here. }
    simpl in *.
    destruct (Qle_bool remaining 0) eqn:Hrem; [by destruct Hb|].
    destruct (vs !! c) as [w|] eqn:Hc; [|by apply IH].
    destruct (Qgtb (T - target w) 0) eqn:Hdef; [|by apply IH].
    apply IH; [exact Hnd| |exact Hlt|].
    + rewrite list_lookup_insert_ne by exact Hca. exact Ha.
    + rewrite list_lookup_insert_ne by exact Hcb. exact Hb.
Qed.

(** Targets 0, 10, 100 and 90 freed: the share is 200/3; the validator at
    10 is written, so the one at 0 before it stands at the rounded share. *)
Example distribute_fills_in_order_example :
  let vs := [sampleValidator "A" 0 0 keep; sampleValidator "B" 10 10 keep;
             sampleValidator "C" 100 100 keep] in
  targetAt (distribute (200 # 3) [0; 1; 2]%nat vs 90).1 0 == roundToLamports (200 # 3) /\
  targetAt (distribute (200 # 3) [0; 1; 2]%nat vs 90).1 1 == 10 + (23333333333 # 1000000000).
Proof.
  intros vs. split.
  - apply (distribute_fills_in_order (200 # 3) [] [] [2%nat] 0 1 vs 90
             (sampleValidator "A" 0 0 keep)).
    + compute_done.
    + reflexivity.
    + reflexivity.
    + vm_compute. discriminate.
  - vm_compute. reflexivity.
Qed.

(** ** Conservation *)

Lemma totalTarget_activeSum (s : EditState) : totalTarget s == activeSum (validators s).
Proof. apply reduce_sum_sumQ. Qed.

Lemma activeSum_insert (vs : list ValidatorData) (i : nat) (v : ValidatorData) (x : Q) :
  vs !! i = Some v -> not_remove v = true ->
  activeSum (<[i := set_targetBalance x v]> vs) == activeSum vs - target v + x.
Proof.
  unfold activeSum. revert i. induction vs as [|w vs IH]; intros i Hi Hv; [discriminate|].
  destruct i as [|i]; simpl in *.
  - injection Hi as ->.
    change (not_remove (set_targetBalance x v)) with (not_remove v). rewrite Hv. simpl.
    change (target (set_targetBalance x v)) with x. lra.
  - specialize (IH i Hi Hv). destruct (not_remove w); simpl; lra.
Qed.

Lemma inject_nat_succ (n : nat) : inject_Z (Z.of_nat (S n)) == inject_Z (Z.of_nat n) + 1.
Proof. rewrite Nat2Z.inj_succ. unfold Z.succ. by rewrite inject_Z_plus. Qed.

Lemma allPresent_tail (i : nat) (order : list nat) (vs : list ValidatorData) :
  allPresent (i :: order) vs -> allPresent order vs.
Proof. intros H j Hj. apply H. by apply list_elem_of_further. Qed.

Lemma allPresent_raised (order : list nat) (vs vs' : list ValidatorData) :
  Forall2 raised vs vs' -> allPresent order vs -> allPresent order vs'.
Proof.
  intros HR H i Hi. rewrite <- (Forall2_length _ _ _ HR). by apply H.
Qed.

(** The first loop: the pool never goes negative, and targets plus pool
    move by at most one lamport for each validator visited. *)
Lemma distribute_conserves (T : Q) (order : list nat) (vs : list ValidatorData) (remaining : Q) :
  allActive order vs -> 0 <= remaining ->
  let r := distribute T order vs remaining in
  let drift := LAMPORT * inject_Z (Z.of_nat (length order)) in
  0 <= r.2 /\
  activeSum vs + remaining - drift <= activeSum r.1 + r.2 /\
  activeSum r.1 + r.2 <= activeSum vs + remaining + drift.
Proof.
  revert vs remaining. induction order as [|i order IH]; intros vs remaining Hact Hrem.
  { simpl. change (inject_Z (Z.of_nat 0)) with 0. unfold LAMPORT.
    split; [exact Hrem|]. split; lra. }
  cbv zeta. rewrite (inject_nat_succ (length order)).
  pose proof (inject_nat_nonneg (length order)) as Hn.
  assert (Hskip : 0 <= (distribute T order vs remaining).2 /\
    activeSum vs + remaining - LAMPORT * (inject_Z (Z.of_nat (length order)) + 1)
      <= activeSum (distribute T order vs remaining).1 + (distribute T order vs remaining).2 /\
    activeSum (distribute T order vs remaining).1 + (distribute T order vs remaining).2
      <= activeSum vs + remaining + LAMPORT * (inject_Z (Z.of_nat (length order)) + 1)).
  { destruct (IH vs remaining (allActive_tail _ _ _ Hact) Hrem) as (H0 & Hlo & Hhi).
    unfold LAMPORT in *. split; [exact H0|]. split; lra. }
  simpl.
  destruct (Qle_bool remaining 0) eqn:Hle.
  { simpl. unfold LAMPORT. split; [exact Hrem|]. split; lra. }
  apply Qle_bool_false in Hle.
  destruct (vs !! i) as [v|] eqn:Hi; [|exact Hskip].
  destruct (Qgtb (T - target v) 0) eqn:Hdef; [|exact Hskip].
  apply Qltb_lt in Hdef.
  assert (Hv : not_remove v = true) by (eapply Hact; [apply list_elem_of_here|exact Hi]).
  set (toAdd := Math_min (T - target v) remaining).
  assert (Hadd : 0 < toAdd) by (by apply Math_min_pos).
  assert (Hadd' : toAdd <= remaining) by apply Math_min_le_r.
  set (x := roundToLamports (target v + toAdd)).
  set (rem1 := roundToLamports (remaining - toAdd)).
  assert (Hrem1 : 0 <= rem1) by (apply roundToLamports_nonneg; lra).
  assert (Hstep : Forall2 raised vs (<[i := set_targetBalance x v]> vs)).
  { eapply raisedAll_insert; [exact Hi|]. apply raised_fill; [exact Hv|lra]. }
  assert (Hact1 : allActive order (<[i := set_targetBalance x v]> vs)).
  { eapply allActive_raised; [exact Hstep|]. by eapply allActive_tail. }
  destruct (IH _ rem1 Hact1 Hrem1) as (H0 & Hlo & Hhi).
  pose proof (activeSum_insert vs i v x Hi Hv) as Hsum.
  pose proof (roundToLamports_near (target v + toAdd)) as [Hx1 Hx2]. fold x in Hx1, Hx2.
  pose proof (roundToLamports_near (remaining - toAdd)) as [Hr1 Hr2]. fold rem1 in Hr1, Hr2.
  unfold HALF_LAMPORT, LAMPORT in *.
  split; [exact H0|]. split; lra.
Qed.

(** The second loop: every validator receives the share, up to half a
    lamport of rounding. *)
Lemma spread_conserves (per : Q) (order : list nat) (vs : list ValidatorData) :
  0 <= per -> allActive order vs -> allPresent order vs ->
  let n := inject_Z (Z.of_nat (length order)) in
  activeSum vs + n * per - HALF_LAMPORT * n <= activeSum (spread per order vs) /\
  activeSum (spread per order vs) <= activeSum vs + n * per + HALF_LAMPORT * n.
Proof.
  intros Hper. revert vs. induction order as [|i order IH]; intros vs Hact Hpre.
  { simpl. change (inject_Z (Z.of_nat 0)) with 0. unfold HALF_LAMPORT. split; lra. }
  cbv zeta. rewrite (inject_nat_succ (length order)). simpl.
  assert (Hlt : (i < length vs)%nat) by apply Hpre, list_elem_of_here.
  apply lookup_lt_is_Some_2 in Hlt as [v Hi]. rewrite Hi.
  assert (Hv : not_remove v = true) by (eapply Hact; [apply list_elem_of_here|exact Hi]).
  set (x := roundToLamports (target v + per)).
  assert (Hstep : Forall2 raised vs (<[i := set_targetBalance x v]> vs)).
  { eapply raisedAll_insert; [exact Hi|]. by apply raised_fill. }
  assert (Hact1 : allActive order (<[i := set_targetBalance x v]> vs)).
  { eapply allActive_raised; [exact Hstep|]. by eapply allActive_tail. }
  assert (Hpre1 : allPresent order (<[i := set_targetBalance x v]> vs)).
  { eapply allPresent_raised; [exact Hstep|]. by eapply allPresent_tail. }
  destruct (IH _ Hact1 Hpre1) as (Hlo & Hhi).
  pose proof (activeSum_insert vs i v x Hi Hv) as Hsum.
  pose proof (roundToLamports_near (target v + per)) as [Hx1 Hx2]. fold x in Hx1, Hx2.
  unfold HALF_LAMPORT in *. split; lra.
Qed.

Lemma activeValidators_allPresent (s : EditState) : allPresent (activeValidators s) (validators s).
Proof.
  intros i Hi. apply activeValidators_elem_of in Hi as (v & Hv & _).
  by eapply lookup_lt_Some.
Qed.

Lemma removedStake_nonneg (s : EditState) :
  (forall v, v ∈ validators s -> 0 <= activeBalance v) -> 0 <= removedStake s.
Proof.
  intros Hnn. rewrite removedStake_spec. unfold specRemovedStake.
  induction (validators s) as [|v vs IH]; simpl; [lra|].
  assert (Hvs : 0 <= sumQ (map activeBalance (List.filter is_remove vs))).
  { apply IH. intros w Hw. apply Hnn. by apply list_elem_of_further. }
  destruct (is_remove v); [|exact Hvs]. simpl.
  pose proof (Hnn v (list_elem_of_here _ _)). lra.
Qed.

(** Both loops together: the active targets grow by the freed stake, up
    to one and a half lamports for each active validator. *)
Lemma autoRebalance_drift (s : EditState) :
  0 <= removedStake s -> activeValidators s <> [] ->
  let before := activeSum (validators s) + removedStake s in
  let after := activeSum (validators (autoRebalance s).1) in
  before - rebalanceTolerance (activeCount s) <= after /\
  after <= before + rebalanceTolerance (activeCount s).
Proof.
  intros Hnn Hne. cbv zeta. unfold rebalanceTolerance.
  rewrite <- (activeValidators_length s).
  pose proof (inject_nat_nonneg (length (activeValidators s))) as Hn.
  unfold autoRebalance.
  destruct (Qeq_bool (removedStake s) 0) eqn:Hzero.
  { apply Qeq_bool_iff in Hzero. simpl. unfold LAMPORT. split; lra. }
  destruct (length (activeValidators s) =? 0)%nat eqn:Hlen.
  { apply Nat.eqb_eq in Hlen. destruct (activeValidators s); [congruence|discriminate]. }
  apply Nat.eqb_neq in Hlen.
  pose proof (inject_nat_pos _ Hlen) as Hpos.
  set (T := (reduce_sum (targetAt (validators s)) (activeValidators s) + removedStake s)
            / inject_Z (Z.of_nat (length (activeValidators s)))).
  pose proof (distribute_conserves T (activeValidators s) (validators s) (removedStake s)
                (activeValidators_allActive s) Hnn) as (H0 & Hlo & Hhi).
  pose proof (distribute_raised T (activeValidators s) (validators s) (removedStake s)
                (activeValidators_allActive s)) as HR.
  destruct (distribute T (activeValidators s) (validators s) (removedStake s))
    as [vs1 remaining]. simpl in H0, Hlo, Hhi, HR. simpl.
  destruct (Qgtb remaining 0) eqn:Hrem.
  - apply Qltb_lt in Hrem.
    assert (Hper : 0 <= remaining / inject_Z (Z.of_nat (length (activeValidators s))))
      by (apply share_nonneg; lra).
    pose proof (spread_conserves _ (activeValidators s) vs1 Hper
                  (allActive_raised _ _ _ HR (activeValidators_allActive s))
                  (allPresent_raised _ _ _ HR (activeValidators_allPresent s)))
      as (Slo & Shi).
    cbv zeta in Slo, Shi. rewrite Qmult_div_r in Slo, Shi by lra.
    unfold HALF_LAMPORT, LAMPORT in *. split; lra.
  - apply Qltb_ge in Hrem. unfold LAMPORT in *. split; lra.
Qed.

(** C1 as stated fails: five active validators with target 0 and one
    removed validator holding two lamports; every share of 0.4 lamport is
    rounded away, the pool is still two lamports after the first loop and
    the second loop rounds its shares away as well, so two lamports are
    lost where the claim allows one. *)
Lemma autoRebalance_loses_two_lamports :
  let s := mkEditState
             [sampleValidator "A" 0 0 keep; sampleValidator "B" 0 0 keep;
              sampleValidator "C" 0 0 keep; sampleValidator "D" 0 0 keep;
              sampleValidator "E" 0 0 keep;
              sampleValidator "F" (2 # 1000000000) 0 remove] [] "" 0 in
  (exists v, v ∈ validators s /\ not_remove v = true) /\
  (exists v, v ∈ validators s /\ is_remove v = true /\ 0 < activeBalance v) /\
  ~ Qabs (totalTarget (autoRebalance s).1 - (totalTarget s + removedStake s))
    <= 1 # 1000000000.
Proof.
  intros s. split; [|split].
  - exists (sampleValidator "A" 0 0 keep). split; [apply list_elem_of_here|reflexivity].
  - exists (sampleValidator "F" (2 # 1000000000) 0 remove).
    split; [|split; reflexivity]. do 5 apply list_elem_of_further. apply list_elem_of_here.
  - vm_compute. intros H. apply H. reflexivity.
Qed.

Lemma sumQ_abs_nonneg {A : Type} (f : A -> Q) (l : list A) :
  0 <= sumQ (map (fun v => Qabs (f v)) l).
Proof.
  induction l as [|v l IH]; simpl; [lra|].
  pose proof (Qabs_nonneg (f v)). lra.
Qed.

Lemma stakeMagnitude_nonneg (s : EditState) : 0 <= stakeMagnitude s.
Proof.
  unfold stakeMagnitude. induction (validators s) as [|v l IH]; simpl; [lra|].
  pose proof (Qabs_nonneg (target v)). pose proof (Qabs_nonneg (activeBalance v)). lra.
Qed.

Lemma planMagnitude_nonneg (s : EditState) : 0 <= planMagnitude s.
Proof.
  unfold planMagnitude.
  pose proof (stakeMagnitude_nonneg s).
  pose proof (sumQ_abs_nonneg target0 (newValidators s)).
  pose proof (Qabs_nonneg (reserveBalance s)). lra.
Qed.

Lemma roundingAllowance_nonneg (count : nat) (magnitude : Q) :
  0 <= magnitude -> 0 <= roundingAllowance count magnitude.
Proof.
  intros Hm. unfold roundingAllowance, ROUNDING_UNIT.
  pose proof (inject_nat_nonneg count) as Hc.
  apply Qmult_le_0_compat; [apply Qmult_le_0_compat; assumption|discriminate].
Qed.

(** C1, amended.  For a state of finite amounts (magnitude at most
    [MAX_MAGNITUDE]) whose current balances are non-negative and that has
    at least one existing validator not marked [remove], the sum of the
    active targets after [autoRebalance] equals the sum before plus the
    freed stake, within one and a half lamports (1.5e-9) for each active
    validator and the allowance for binary64 rounding: 2^-49 of the
    magnitude of the stake for each existing validator. *)
Theorem autoRebalance_conservation (s : EditState) :
  (forall v, v ∈ validators s -> 0 <= activeBalance v) ->
  (exists v, v ∈ validators s /\ not_remove v = true) ->
  stakeMagnitude s <= MAX_MAGNITUDE ->
  Qabs (totalTarget (autoRebalance s).1 - (totalTarget s + removedStake s))
  <= rebalanceTolerance (activeCount s)
     + roundingAllowance (length (validators s)) (stakeMagnitude s).
Proof.
  intros Hnn (v & Hv & Hact) _.
  assert (Hne : activeValidators s <> []).
  { intros Hnil. apply noneActive_iff in Hnil. specialize (Hnil v Hv).
    unfold not_remove in Hact. rewrite Hnil in Hact. discriminate. }
  pose proof (autoRebalance_drift s (removedStake_nonneg s Hnn) Hne) as (Hlo & Hhi).
  cbv zeta in Hlo, Hhi. rewrite <- !totalTarget_activeSum in Hlo, Hhi.
  pose proof (roundingAllowance_nonneg (length (validators s)) _ (stakeMagnitude_nonneg s)).
  apply Qabs_Qle_condition. split; lra.
Qed.

Lemma autoRebalance_conservation_witness :
  let s := mkEditState
             [sampleValidator "A" 1000 0 remove; sampleValidator "B" 500 500 keep] [] "" 0 in
  Qabs (totalTarget (autoRebalance s).1 - (totalTarget s + removedStake s))
  <= rebalanceTolerance 1 + roundingAllowance 2 2000.
Proof.
  intros s. apply (autoRebalance_conservation s).
  - intros v Hv. apply list_elem_of_In in Hv. simpl in Hv.
    destruct Hv as [<-|[<-|[]]]; vm_compute; discriminate.
  - exists (sampleValidator "B" 500 500 keep).
    split; [apply list_elem_of_further, list_elem_of_here|reflexivity].
  - vm_compute. discriminate.
Defined.

(** The lamport tolerance cannot be smaller: with 279.30782932 and
    348.067989326 active and 157.552912647 freed, every rounding is a tie
    that goes up, and the two targets end three lamports above the exact
    sum. *)
Example autoRebalance_drift_attained :
  let s := mkEditState
             [sampleValidator "A" (27930782932 # 100000000) (27930782932 # 100000000) keep;
              sampleValidator "B" (348067989326 # 1000000000) (348067989326 # 1000000000) keep;
              sampleValidator "C" (117979001394 # 1000000000) 0 remove;
              sampleValidator "D" (39573911253 # 1000000000) 0 remove] [] "" 0 in
  totalTarget (autoRebalance s).1 - (totalTarget s + removedStake s)
  == rebalanceTolerance 2.
Proof. vm_compute. reflexivity. Qed.

(** ** The order of the fill, seen on the result *)

Lemma sumQ_perm (l l' : list Q) : l ≡ₚ l' -> sumQ l == sumQ l'.
Proof.
  induction 1 as [|x l l' _ IH|x y l|l1 l2 l3 _ IH1 _ IH2]; simpl.
  - reflexivity.
  - rewrite IH. reflexivity.
  - lra.
  - rewrite IH1. exact IH2.
Qed.

Lemma positions_targets (p : ValidatorData -> bool) (vs pre : list ValidatorData) :
  map (targetAt (pre ++ vs)) (positions p vs (length pre)) = map target (List.filter p vs).
Proof.
  revert pre. induction vs as [|v vs IH]; intros pre; simpl; [reflexivity|].
  specialize (IH (pre ++ [v])). rewrite <- app_assoc in IH. simpl in IH.
  rewrite length_app in IH. simpl in IH.
  replace (length pre + 1)%nat with (S (length pre)) in IH by lia.
  destruct (p v); simpl; [|exact IH]. f_equal; [|exact IH].
  unfold targetAt. rewrite lookup_app_r by lia. by rewrite Nat.sub_diag.
Qed.

(** The share the code computes is the equal share. *)
Lemma equalShare_code (s : EditState) :
  (reduce_sum (targetAt (validators s)) (activeValidators s) + removedStake s)
    / inject_Z (Z.of_nat (length (activeValidators s)))
  == equalShare s.
Proof.
  unfold equalShare. rewrite activeValidators_length.
  assert (E : reduce_sum (targetAt (validators s)) (activeValidators s) == totalTarget s).
  { rewrite reduce_sum_sumQ. unfold totalTarget. rewrite reduce_sum_sumQ.
    rewrite (sumQ_perm _ (map (targetAt (validators s))
                            (positions not_remove (validators s) 0))).
    - pose proof (positions_targets not_remove (validators s) []) as E. simpl in E.
      by rewrite E.
    - apply Permutation_map, activeValidators_perm. }
  rewrite E. reflexivity.
Qed.

Lemma deficits_nonneg (T : Q) (vs : list ValidatorData) (order : list nat) :
  0 <= sumQ (map (fun i => Qmax 0 (T - targetAt vs i)) order).
Proof.
  induction order as [|i order IH]; simpl; [lra|].
  pose proof (Q.le_max_l 0 (T - targetAt vs i)). lra.
Qed.

Lemma deficits_insert (T : Q) (vs : list ValidatorData) (i : nat) (w : ValidatorData)
    (order : list nat) :
  i ∉ order ->
  sumQ (map (fun j => Qmax 0 (T - targetAt (<[i := w]> vs) j)) order)
  == sumQ (map (fun j => Qmax 0 (T - targetAt vs j)) order).
Proof.
  induction order as [|j order IH]; intros Hnotin; simpl; [reflexivity|].
  rewrite IH by (intros H; apply Hnotin; by apply list_elem_of_further).
  assert (Hij : i <> j) by (intros ->; apply Hnotin, list_elem_of_here).
  unfold targetAt at 1 3. rewrite list_lookup_insert_ne by exact Hij. reflexivity.
Qed.

(** What the first loop leaves of the pool: when the pool is at most the
    deficits still to be filled (plus a slack), at most the slack and
    half a lamport for each validator visited. *)
Lemma distribute_leftover (T : Q) (order : list nat) :
  forall (vs : list ValidatorData) (remaining slack : Q),
    NoDup order -> allPresent order vs -> 0 <= slack ->
    remaining <= sumQ (map (fun i => Qmax 0 (T - targetAt vs i)) order) + slack ->
    (distribute T order vs remaining).2
    <= slack + HALF_LAMPORT * inject_Z (Z.of_nat (length order)).
Proof.
  induction order as [|i rest IH]; intros vs r c Hnd Hpres Hc Hr.
  - simpl in *. change (inject_Z (Z.of_nat 0)) with 0. lra.
  - apply NoDup_cons in Hnd as [Hnotin Hnd].
    pose proof (inject_nat_nonneg (length rest)) as Hn.
    cbn [length]. rewrite inject_nat_succ. unfold HALF_LAMPORT in *.
    cbn [distribute].
    destruct (Qle_bool r 0) eqn:Hr0.
    { apply Qle_bool_iff in Hr0. simpl. lra. }
    destruct (vs !! i) as [v|] eqn:Hi.
    2: { exfalso. apply lookup_ge_None in Hi.
         specialize (Hpres i (list_elem_of_here _ _)). lia. }
    cbn [map] in Hr. unfold sumQ in Hr. cbn [foldr] in Hr.
    change (foldr Qplus 0 ?l) with (sumQ l) in Hr.
    unfold targetAt at 1 in Hr. rewrite Hi in Hr.
    pose proof (deficits_nonneg T vs rest) as Hd.
    destruct (Qgtb (T - target v) 0) eqn:Hdef.
    + apply Qltb_lt in Hdef.
      assert (Hmax : Qmax 0 (T - target v) == T - target v)
        by (apply Q.max_r; lra).
      rewrite Hmax in Hr.
      unfold Math_min. destruct (Qle_bool (T - target v) r) eqn:Hmin.
      * apply Qle_bool_iff in Hmin.
        pose proof (roundToLamports_near (r - (T - target v))) as [_ Hup].
        unfold HALF_LAMPORT in Hup.
        eapply Qle_trans.
        { apply (IH _ _ (c + (1 # 2000000000))); [exact Hnd| |lra|].
          - intros j Hj. rewrite length_insert. apply Hpres. by apply list_elem_of_further.
          - rewrite deficits_insert by exact Hnotin. lra. }
        lra.
      * assert (E : r - r == 0) by lra.
        eapply Qle_trans.
        { apply (IH _ _ c); [exact Hnd| |exact Hc|].
          - intros j Hj. rewrite length_insert. apply Hpres. by apply list_elem_of_further.
          - rewrite deficits_insert by exact Hnotin.
            rewrite (roundToLamports_proper _ _ E).
            change (roundToLamports 0) with (0 / LAMPORTS_PER_SOL).
            rewrite div_LAMPORTS_PER_SOL. lra. }
        lra.
    + apply Qltb_ge in Hdef.
      assert (Hmax : Qmax 0 (T - target v) == 0) by (apply Q.max_l; lra).
      rewrite Hmax in Hr.
      eapply Qle_trans.
      { apply (IH _ _ c); [exact Hnd| |exact Hc|lra].
        intros j Hj. apply Hpres. by apply list_elem_of_further. }
      lra.
Qed.

(** What the first loop does to one record: it leaves it, or it raises a
    target below the share to at most the rounded share. *)
Lemma distribute_at (T : Q) (order : list nat) :
  forall (vs : list ValidatorData) (remaining : Q) (a : nat) (v : ValidatorData),
    NoDup order -> vs !! a = Some v ->
    (distribute T order vs remaining).1 !! a = Some v \/
    (target v < T /\
     exists x, (distribute T order vs remaining).1 !! a = Some (set_targetBalance x v) /\
               x <= roundToLamports T).
Proof.
  induction order as [|i rest IH]; intros vs r a v Hnd Ha.
  - left. exact Ha.
  - apply NoDup_cons in Hnd as [Hnotin Hnd]. cbn [distribute].
    destruct (Qle_bool r 0); [by left|].
    destruct (vs !! i) as [w|] eqn:Hi; [|by apply IH].
    destruct (Qgtb (T - target w) 0) eqn:Hdef; [|by apply IH].
    apply Qltb_lt in Hdef.
    destruct (decide (i = a)) as [->|Hia].
    + rewrite Ha in Hi. injection Hi as <-. right. split; [lra|].
      eexists. split.
      * rewrite distribute_other by exact Hnotin.
        apply list_lookup_insert_eq. by eapply lookup_lt_Some.
      * apply roundToLamports_mono.
        unfold Math_min. destruct (Qle_bool (T - target v) r) eqn:Hmin; [lra|].
        apply Qle_bool_false in Hmin. lra.
    + apply IH; [exact Hnd|]. rewrite list_lookup_insert_ne by exact Hia. exact Ha.
Qed.

(** What the second loop does to one record. *)
Lemma spread_other (per : Q) (order : list nat) :
  forall (vs : list ValidatorData) (a : nat),
    a ∉ order -> (spread per order vs) !! a = vs !! a.
Proof.
  induction order as [|i rest IH]; intros vs a Ha; [reflexivity|].
  cbn [spread].
  assert (Hia : i <> a) by (intros ->; apply Ha, list_elem_of_here).
  assert (Hrest : a ∉ rest) by (intros H; apply Ha; by apply list_elem_of_further).
  destruct (vs !! i) as [w|] eqn:Hi; [|by apply IH].
  rewrite IH by exact Hrest. by apply list_lookup_insert_ne.
Qed.

Lemma spread_at (per : Q) (order : list nat) :
  forall (vs : list ValidatorData) (a : nat) (v : ValidatorData),
    NoDup order -> a ∈ order -> vs !! a = Some v ->
    (spread per order vs) !! a
    = Some (set_targetBalance (roundToLamports (target v + per)) v).
Proof.
  induction order as [|i rest IH]; intros vs a v Hnd Hin Ha.
  - by apply not_elem_of_nil in Hin.
  - apply NoDup_cons in Hnd as [Hnotin Hnd]. cbn [spread].
    destruct (decide (i = a)) as [->|Hia].
    + rewrite Ha. rewrite spread_other by exact Hnotin.
      apply list_lookup_insert_eq. by eapply lookup_lt_Some.
    + apply elem_of_cons in Hin as [->|Hin]; [done|].
      destruct (vs !! i) as [w|] eqn:Hi; [|by apply IH].
      apply IH; [exact Hnd|exact Hin|].
      rewrite list_lookup_insert_ne by exact Hia. exact Ha.
Qed.

(** Two elements of a sorted list stand in the list as they are ordered. *)
Lemma sorted_between (vs : list ValidatorData) (l : list nat) (a b : nat) :
  StronglySorted (fillsBefore vs) l -> a ∈ l -> b ∈ l -> fillsBefore vs a b ->
  exists l1 l2 l3, l = l1 ++ a :: l2 ++ b :: l3.
Proof.
  intros Hs Ha Hb Hab.
  assert (Hasym : forall x y, fillsBefore vs x y -> ~ fillsBefore vs y x).
  { unfold fillsBefore. intros x y [H|[H1 H2]] [H'|[H1' H2']]; try lra; lia. }
  apply list_elem_of_split in Ha as (l1 & rest & ->).
  apply elem_of_app in Hb as [Hb|Hb].
  - exfalso. apply (Hasym _ _ Hab).
    apply (StronglySorted_app_1_elem_of _ _ _ _ _ Hs Hb), list_elem_of_here.
  - apply elem_of_cons in Hb as [->|Hb].
    + exfalso. by apply (Hasym _ _ Hab).
    + apply list_elem_of_split in Hb as (l2 & l3 & ->). by exists l1, l2, l3.
Qed.

Lemma deficits_cover (T : Q) (vs : list ValidatorData) (order : list nat) :
  inject_Z (Z.of_nat (length order)) * T - sumQ (map (targetAt vs) order)
  <= sumQ (map (fun i => Qmax 0 (T - targetAt vs i)) order).
Proof.
  induction order as [|i order IH].
  - simpl. change (inject_Z (Z.of_nat 0)) with 0. lra.
  - cbn [length map]. rewrite inject_nat_succ. unfold sumQ in *. cbn [foldr].
    pose proof (Q.le_max_r 0 (T - targetAt vs i)). lra.
Qed.

(** The outcome of a rebalance for every record that is not marked
    [remove], in exact arithmetic.  A record standing later in the order
    of the fill gains more than a lamport only when the record before it
    has been brought up to the share; and no record is raised beyond the
    share by more than a lamport and a half. *)
Lemma autoRebalance_lowest_first (s : EditState) :
  (forall v, v ∈ validators s -> 0 <= activeBalance v) ->
  (forall a b va vb,
     validators s !! a = Some va -> validators s !! b = Some vb ->
     not_remove va = true -> not_remove vb = true ->
     fillsBefore (validators s) a b ->
     target va < equalShare s ->
     target vb + LAMPORT < targetAt (validators (autoRebalance s).1) b ->
     equalShare s - HALF_LAMPORT <= targetAt (validators (autoRebalance s).1) a) /\
  (forall a va,
     validators s !! a = Some va -> not_remove va = true ->
     targetAt (validators (autoRebalance s).1) a
     <= Qmax (target va) (equalShare s) + HALF_LAMPORT + LAMPORT).
Proof.
  intros Hnn.
  assert (Hsame :
    (forall a b va vb,
       validators s !! a = Some va -> validators s !! b = Some vb ->
       not_remove va = true -> not_remove vb = true ->
       fillsBefore (validators s) a b ->
       target va < equalShare s ->
       target vb + LAMPORT < targetAt (validators s) b ->
       equalShare s - HALF_LAMPORT <= targetAt (validators s) a) /\
    (forall a va,
       validators s !! a = Some va -> not_remove va = true ->
       targetAt (validators s) a
       <= Qmax (target va) (equalShare s) + HALF_LAMPORT + LAMPORT)).
  { split.
    - intros a b va vb Ha Hb _ _ _ _ H. exfalso. unfold targetAt in H. rewrite Hb in H.
      unfold LAMPORT in H. lra.
    - intros a va Ha _. unfold targetAt. rewrite Ha.
      pose proof (Q.le_max_l (target va) (equalShare s)).
      unfold HALF_LAMPORT, LAMPORT. lra. }
  unfold autoRebalance.
  destruct (Qeq_bool (removedStake s) 0) eqn:Hzero; [exact Hsame|].
  destruct (length (activeValidators s) =? 0)%nat eqn:Hlen; [exact Hsame|].
  clear Hsame. apply Nat.eqb_neq in Hlen.
  pose proof (inject_nat_pos _ Hlen) as Hpos.
  pose proof (equalShare_code s) as ET.
  set (T := (reduce_sum (targetAt (validators s)) (activeValidators s) + removedStake s)
            / inject_Z (Z.of_nat (length (activeValidators s)))) in *.
  set (n := inject_Z (Z.of_nat (length (activeValidators s)))) in *.
  pose proof (removedStake_nonneg s Hnn) as HR.
  (* what is left of the pool after the first loop *)
  assert (Hleft : (distribute T (activeValidators s) (validators s) (removedStake s)).2
                  <= HALF_LAMPORT * n).
  { pose proof (distribute_leftover T (activeValidators s) (validators s) (removedStake s) 0
                  (activeValidators_NoDup s) (activeValidators_allPresent s)) as H.
    fold n in H. rewrite Qplus_0_l in H. apply H; [lra|].
    pose proof (deficits_cover T (validators s) (activeValidators s)) as Hc.
    fold n in Hc.
    assert (E : n * T == reduce_sum (targetAt (validators s)) (activeValidators s)
                         + removedStake s).
    { unfold T. field. lra. }
    rewrite reduce_sum_sumQ in E. lra. }
  (* every record after the first loop *)
  assert (Hmid : forall a va, validators s !! a = Some va ->
            (distribute T (activeValidators s) (validators s) (removedStake s)).1 !! a
              = Some va \/
            (target va < T /\
             exists x,
               (distribute T (activeValidators s) (validators s) (removedStake s)).1 !! a
                 = Some (set_targetBalance x va) /\ x <= roundToLamports T)).
  { intros a va Ha. apply distribute_at; [apply activeValidators_NoDup|exact Ha]. }
  assert (Hfill : forall l1 a l2 b l3 va,
            activeValidators s = l1 ++ a :: l2 ++ b :: l3 ->
            validators s !! a = Some va -> target va < T ->
            (distribute T (activeValidators s) (validators s) (removedStake s)).1 !! b
              <> validators s !! b ->
            targetAt (distribute T (activeValidators s) (validators s)
                        (removedStake s)).1 a == roundToLamports T).
  { intros l1 a l2 b l3 va Horder. rewrite Horder.
    apply distribute_fills_in_order. rewrite <- Horder. apply activeValidators_NoDup. }
  destruct (distribute T (activeValidators s) (validators s) (removedStake s))
    as [vs1 remaining]. cbn [fst snd] in Hleft, Hmid, Hfill.
  (* the target of an active record after both loops *)
  assert (Hfinal : forall a w, vs1 !! a = Some w -> a ∈ activeValidators s ->
            let final := targetAt
                           (validators
                              (with_validators
                                 (if Qgtb remaining 0
                                  then spread (remaining / n) (activeValidators s) vs1
                                  else vs1) s)) a in
            final <= target w + LAMPORT /\
            (roundToLamports (target w) == target w -> target w <= final) /\
            (target w + LAMPORT < final -> False)).
  { intros a w Hw Hin. cbv zeta. cbn [validators with_validators].
    destruct (Qgtb remaining 0) eqn:Hrem.
    - apply Qltb_lt in Hrem. unfold targetAt.
      rewrite (spread_at _ _ _ _ _ (activeValidators_NoDup s) Hin Hw).
      change (target (set_targetBalance ?x w)) with x.
      assert (Hper : 0 <= remaining / n /\ remaining / n <= HALF_LAMPORT).
      { split.
        - apply Qle_shift_div_l; [exact Hpos|lra].
        - apply Qle_shift_div_r; [exact Hpos|lra]. }
      pose proof (roundToLamports_near (target w + remaining / n)) as [_ Hup].
      unfold HALF_LAMPORT, LAMPORT in *.
      split; [lra|]. split; [|lra].
      intros Hal. rewrite <- Hal at 1. apply roundToLamports_mono. lra.
    - unfold targetAt. rewrite Hw. unfold LAMPORT. split; [lra|]. split; [intros; lra|lra]. }
  cbn [fst].
  split.
  - intros a b va vb Ha Hb Hacta Hactb Hab Hlt Hgain.
    assert (Hina : a ∈ activeValidators s) by (apply activeValidators_elem_of; eauto).
    assert (Hinb : b ∈ activeValidators s) by (apply activeValidators_elem_of; eauto).
    assert (Hs : StronglySorted (fillsBefore (validators s)) (activeValidators s))
      by apply sort_by_target_sorted, positions_increasing.
    destruct (sorted_between _ _ _ _ Hs Hina Hinb Hab) as (l1 & l2 & l3 & Horder).
    (* b was written by the first loop *)
    assert (Hb1 : vs1 !! b <> validators s !! b).
    { destruct (Hmid b vb Hb) as [Hkeep|(_ & x & Hx & _)].
      - exfalso. destruct (Hfinal b vb Hkeep Hinb) as (_ & _ & Hno). exact (Hno Hgain).
      - rewrite Hx, Hb. intros E. injection E as E.
        destruct (Hfinal b _ Hx Hinb) as (Hle & _ & _). cbv zeta in Hle.
        change (target (set_targetBalance x vb)) with x in Hle.
        pose proof (f_equal target E) as Ex.
        change (target (set_targetBalance x vb)) with x in Ex.
        rewrite Ex in Hle. lra. }
    assert (HltT : target va < T) by lra.
    pose proof (Hfill _ _ _ _ _ va Horder Ha HltT Hb1) as Hfull.
    destruct (Hmid a va Ha) as [Hkeep|(_ & x & Hx & _)].
    + unfold targetAt in Hfull at 1. rewrite Hkeep in Hfull.
      destruct (Hfinal a va Hkeep Hina) as (_ & Hge & _). cbv zeta in Hge.
      pose proof (roundToLamports_near T) as [Hlow _]. unfold HALF_LAMPORT in *.
      assert (Hal : roundToLamports (target va) == target va).
      { rewrite Hfull. apply roundToLamports_idem. }
      specialize (Hge Hal). lra.
    + unfold targetAt in Hfull at 1. rewrite Hx in Hfull.
      change (target (set_targetBalance x va)) with x in Hfull.
      destruct (Hfinal a _ Hx Hina) as (_ & Hge & _). cbv zeta in Hge.
      change (target (set_targetBalance x va)) with x in Hge.
      pose proof (roundToLamports_near T) as [Hlow _]. unfold HALF_LAMPORT in *.
      assert (Hal : roundToLamports x == x).
      { rewrite Hfull. apply roundToLamports_idem. }
      specialize (Hge Hal). lra.
  - intros a va Ha Hacta.
    assert (Hina : a ∈ activeValidators s) by (apply activeValidators_elem_of; eauto).
    pose proof (roundToLamports_near T) as [_ HupT].
    pose proof (Q.le_max_l (target va) (equalShare s)).
    pose proof (Q.le_max_r (target va) (equalShare s)).
    destruct (Hmid a va Ha) as [Hkeep|(_ & x & Hx & Hxle)].
    + destruct (Hfinal a va Hkeep Hina) as (Hle & _ & _). cbv zeta in Hle.
      unfold HALF_LAMPORT, LAMPORT in *. lra.
    + destruct (Hfinal a _ Hx Hina) as (Hle & _ & _). cbv zeta in Hle.
      change (target (set_targetBalance x va)) with x in Hle.
      unfold HALF_LAMPORT, LAMPORT in *. lra.
Qed.

(** C8.  The rebalance fills the validators that are not marked
    [remove] lowest target first and, among equal targets, in array
    order, each towards the equal share, until the pool is used up.
    Read off the result, for every state of finite amounts with
    non-negative balances: when a validator later in that order has
    gained more than a lamport (and the allowance for binary64
    rounding), the validator before it, if it stood below the equal
    share, has been brought up to the share, to within a lamport (and
    the allowance); and no validator ends more than two lamports (and
    the allowance) above the larger of its old target and the equal
    share.  With active targets 0, 100, 100 and 60 freed, wherever the
    records stand in the array, the validator that started at 0 gains 60
    and the other two gain nothing; with targets 0, 10, 100 and 90
    freed, the share is 66.67: the validator at 0 is filled to the share
    and the one at 10 receives what is left. *)
Theorem autoRebalance_fill_order :
  (forall s : EditState,
     (forall v, v ∈ validators s -> 0 <= activeBalance v) ->
     stakeMagnitude s <= MAX_MAGNITUDE ->
     let s' := (autoRebalance s).1 in
     let allowance := roundingAllowance (length (validators s)) (stakeMagnitude s) in
     (forall a b va vb,
        validators s !! a = Some va -> validators s !! b = Some vb ->
        not_remove va = true -> not_remove vb = true ->
        fillsBefore (validators s) a b ->
        target va < equalShare s ->
        target vb + LAMPORT + allowance < targetAt (validators s') b ->
        equalShare s - LAMPORT - allowance <= targetAt (validators s') a) /\
     (forall a va,
        validators s !! a = Some va -> not_remove va = true ->
        targetAt (validators s') a
        <= Qmax (target va) (equalShare s) + 2 * LAMPORT + allowance)) /\
  (let s := mkEditState
              [sampleValidator "A" 0 0 keep; sampleValidator "B" 100 100 keep;
               sampleValidator "C" 100 100 keep; sampleValidator "D" 60 0 remove] [] "" 0 in
   let gain i := targetAt (validators (autoRebalance s).1) i - targetAt (validators s) i in
   gain 0%nat == 60 /\ gain 1%nat == 0 /\ gain 2%nat == 0 /\
   gain 1%nat <= gain 0%nat /\ gain 2%nat <= gain 0%nat) /\
  (let s := mkEditState
              [sampleValidator "B" 100 100 keep; sampleValidator "D" 60 0 remove;
               sampleValidator "C" 100 100 keep; sampleValidator "A" 0 0 keep] [] "" 0 in
   let gain i := targetAt (validators (autoRebalance s).1) i - targetAt (validators s) i in
   gain 3%nat == 60 /\ gain 0%nat == 0 /\ gain 2%nat == 0 /\
   gain 0%nat <= gain 3%nat /\ gain 2%nat <= gain 3%nat) /\
  (let s := mkEditState
              [sampleValidator "C" 100 100 keep; sampleValidator "B" 10 10 keep;
               sampleValidator "D" 90 0 remove; sampleValidator "A" 0 0 keep] [] "" 0 in
   let gain i := targetAt (validators (autoRebalance s).1) i - targetAt (validators s) i in
   gain 3%nat == (66666666667 # 1000000000) /\
   gain 1%nat == (23333333333 # 1000000000) /\
   gain 0%nat == 0).
Proof.
  split; [|split; [|split]].
  - intros s Hnn _. cbv zeta.
    pose proof (roundingAllowance_nonneg (length (validators s)) _ (stakeMagnitude_nonneg s))
      as Hallow.
    destruct (autoRebalance_lowest_first s Hnn) as [Horder Hcap].
    split.
    + intros a b va vb Ha Hb Hacta Hactb Hab Hlt Hgain.
      assert (H : equalShare s - HALF_LAMPORT
                  <= targetAt (validators (autoRebalance s).1) a).
      { apply (Horder a b va vb); try assumption. lra. }
      unfold HALF_LAMPORT, LAMPORT in *. lra.
    + intros a va Ha Hacta. pose proof (Hcap a va Ha Hacta) as H.
      unfold HALF_LAMPORT, LAMPORT in *. lra.
  - vm_compute. repeat split; discriminate.
  - vm_compute. repeat split; discriminate.
  - vm_compute. repeat split; discriminate.
Qed.

Lemma autoRebalance_fill_order_witness :
  let s := mkEditState
             [sampleValidator "C" 100 100 keep; sampleValidator "B" 10 10 keep;
              sampleValidator "D" 90 0 remove; sampleValidator "A" 0 0 keep] [] "" 0 in
  let allowance := roundingAllowance 4 300 in
  10 + LAMPORT + allowance < targetAt (validators (autoRebalance s).1) 1 /\
  equalShare s - LAMPORT - allowance <= targetAt (validators (autoRebalance s).1) 3 /\
  targetAt (validators (autoRebalance s).1) 1 <= equalShare s + 2 * LAMPORT + allowance.
Proof.
  intros s allowance.
  assert (Hnn : forall v, v ∈ validators s -> 0 <= activeBalance v).
  { intros v Hv. apply list_elem_of_In in Hv. simpl in Hv.
    destruct Hv as [<-|[<-|[<-|[<-|[]]]]]; vm_compute; discriminate. }
  assert (Hm : stakeMagnitude s <= MAX_MAGNITUDE) by (vm_compute; discriminate).
  destruct (proj1 autoRebalance_fill_order s Hnn Hm) as [Horder Hcap].
  assert (Hgain : 10 + LAMPORT + allowance < targetAt (validators (autoRebalance s).1) 1)
    by (vm_compute; reflexivity).
  split; [exact Hgain|]. split.
  - apply (Horder 3%nat 1%nat (sampleValidator "A" 0 0 keep) (sampleValidator "B" 10 10 keep));
      first [exact Hgain | reflexivity | (left; vm_compute; reflexivity)
            | (vm_compute; reflexivity)].
  - pose proof (Hcap 1%nat (sampleValidator "B" 10 10 keep) eq_refl eq_refl) as H.
    assert (E : Qmax (target (sampleValidator "B" 10 10 keep)) (equalShare s) == equalShare s)
      by (apply Q.max_r; vm_compute; discriminate).
    rewrite E in H. exact H.
Defined.

(** ** The scenario of the specification

    Validators A (1000) and B (500), reserve 0: remove A, rebalance;
    B's target becomes 1500 and the plan validates. *)
Example end_to_end_scenario :
  let s0 := mkEditState [sampleValidator "A" 1000 1000 keep; sampleValidator "B" 500 500 keep]
              [] "" 0 in
  let s1 := (step s0 (CmdRemove 0)).1 in
  let s2 := (step s1 CmdRebalance).1 in
  (step s1 CmdRebalance).2 = Some Redistributed /\
  targetAt (validators s2) 1 == 1500 /\
  validate s2 = true.
Proof. vm_compute. repeat split. Qed.

(** ** The states the loop can reach

    The two facts about states that the statements above assume or
    discuss hold when the loop starts, and the first is kept by every
    command. *)

Lemma initialState_wellformed (poolData : PoolData) :
  proposedAreAdd (initialState poolData) /\ I2 (initialState poolData).
Proof.
  split.
  - intros v Hv. simpl in Hv. by apply elem_of_nil in Hv.
  - intros v Hv Hrem. simpl in Hv. apply list_elem_of_fmap in Hv as (w & -> & _).
    discriminate.
Qed.

Lemma proposedAreAdd_insert (s : EditState) (i : nat) (x : Q) (nv : ValidatorData) :
  proposedAreAdd s -> newValidators s !! i = Some nv ->
  proposedAreAdd (with_newValidators (<[i := set_targetBalance x nv]> (newValidators s)) s).
Proof.
  intros Hwf Hi w Hw. simpl in Hw. apply list_elem_of_lookup in Hw as [j Hj].
  destruct (decide (i = j)) as [->|Hne].
  - rewrite list_lookup_insert_eq in Hj by (by eapply lookup_lt_Some).
    injection Hj as <-. change (action (set_targetBalance x nv)) with (action nv).
    apply Hwf, list_elem_of_lookup. eauto.
  - rewrite list_lookup_insert_ne in Hj by exact Hne. apply Hwf, list_elem_of_lookup. eauto.
Qed.

Lemma proposedAreAdd_step (s : EditState) (c : Command) :
  proposedAreAdd s -> proposedAreAdd (step s c).1.
Proof.
  intros Hwf.
  destruct c as [idx|idx|idx amount|idx amount|idx amount|vote result validatorName|];
    simpl.
  - unfold markRemoved. command_cases; simpl; exact Hwf.
  - unfold undoRemoved. command_cases; simpl; exact Hwf.
  - unfold setTarget. command_cases; simpl; try exact Hwf.
    apply proposedAreAdd_insert; [exact Hwf|]. by eapply validAt_Some.
  - unfold addToTarget. command_cases; simpl; try exact Hwf.
    apply proposedAreAdd_insert; [exact Hwf|]. by eapply validAt_Some.
  - unfold subtractFromTarget. command_cases; simpl; try exact Hwf.
    apply proposedAreAdd_insert; [exact Hwf|]. by eapply validAt_Some.
  - unfold addValidator. command_cases; simpl; try exact Hwf.
    intros w Hw. simpl in Hw. apply elem_of_app in Hw as [Hw|Hw]; [by apply Hwf|].
    apply list_elem_of_singleton in Hw as ->. reflexivity.
  - destruct (autoRebalance_cases s) as [[_ E]|[(_ & _ & E)|(_ & _ & vs & E & _)]];
      rewrite E; simpl; exact Hwf.
Qed.

(** * Further properties of the program *)

(** ** The stake range of a validated plan *)

Lemma sumQ_app (l1 l2 : list Q) : sumQ (l1 ++ l2) == sumQ l1 + sumQ l2.
Proof. induction l1 as [|x l1 IH]; simpl; [lra|]. rewrite IH. lra. Qed.

Lemma sumQ_split (A : Type) (p : A -> bool) (f : A -> Q) (l : list A) :
  sumQ (map f l) ==
  sumQ (map f (List.filter p l)) + sumQ (map f (List.filter (fun x => negb (p x)) l)).
Proof.
  induction l as [|x l IH]; simpl; [lra|]. destruct (p x); simpl; lra.
Qed.

Lemma positive_parts (a b : Q) :
  (if Qgtb (a - b) 0 then a - b else 0) - (if Qgtb (b - a) 0 then b - a else 0) == a - b.
Proof.
  destruct (Qgtb (a - b) 0) eqn:E1; destruct (Qgtb (b - a) 0) eqn:E2;
    try apply Qltb_lt in E1; try apply Qltb_lt in E2;
    try apply Qltb_ge in E1; try apply Qltb_ge in E2; lra.
Qed.

(** The net change of the total stake: increases minus decreases on the
    validators that stay, plus the proposed stake, minus the removed stake. *)
Lemma stake_change (s : EditState) :
  totalWithNew s - totalCurrent s ==
  increasedStake s - decreasedStake s + newValidatorStake s - removedStake s.
Proof.
  unfold totalWithNew, totalCurrent, totalTarget, increasedStake, decreasedStake,
    removedStake.
  rewrite !reduce_sum_sumQ.
  rewrite (sumQ_split _ not_remove activeBalance (validators s)).
  assert (Hrem : List.filter (fun v => negb (not_remove v)) (validators s)
                 = List.filter is_remove (validators s)).
  { apply List.filter_ext. intros v. unfold not_remove. apply negb_involutive. }
  rewrite Hrem.
  assert (Hdiff : sumQ (map (fun v => let diff := target v - activeBalance v in
                                      if Qgtb diff 0 then diff else 0)
                            (List.filter not_remove (validators s)))
                  - sumQ (map (fun v => let diff := activeBalance v - target v in
                                        if Qgtb diff 0 then diff else 0)
                              (List.filter not_remove (validators s)))
                  == sumQ (map target (List.filter not_remove (validators s)))
                     - sumQ (map activeBalance (List.filter not_remove (validators s)))).
  { induction (List.filter not_remove (validators s)) as [|v l IH]; simpl; [lra|].
    pose proof (positive_parts (target v) (activeBalance v)) as Hv.
    cbv zeta in *. lra. }
  cbv zeta in Hdiff. lra.
Qed.

Lemma validate_true (s : EditState) :
  validate s = true ->
  totalNeeded s <= availableReserve s + (1 # 100) /\
  minStaked s - (1 # 100) <= totalWithNew s.
Proof.
  unfold validate, Qgtb.
  destruct (Qltb _ (totalNeeded s)) eqn:E1; [discriminate|].
  destruct (Qltb (totalWithNew s) _) eqn:E2; [discriminate|].
  apply Qltb_ge in E1. apply Qltb_ge in E2. auto.
Qed.

Lemma validate_stake_range (s : EditState) :
  validate s = true <->
  minStaked s - (1 # 100) <= totalWithNew s /\
  totalWithNew s <= maxStaked s + (1 # 100).
Proof.
  pose proof (stake_change s) as Hch. split.
  - intros H. apply validate_true in H as [Hfund Hmin]. split; [exact Hmin|].
    unfold totalNeeded, availableReserve in Hfund. unfold maxStaked. lra.
  - intros [Hmin Hmax]. unfold validate, Qgtb, maxStaked in *.
    destruct (Qltb _ (totalNeeded s)) eqn:E1.
    { apply Qltb_lt in E1. unfold totalNeeded, availableReserve in E1. lra. }
    destruct (Qltb (totalWithNew s) _) eqn:E2; [|reflexivity].
    apply Qltb_lt in E2. lra.
Qed.

(** X1. [validate] is the range check its comments describe, although
    the code never compares against [maxStaked]: for a state of finite
    amounts, a plan it accepts has its total target between
    [minStaked - 0.01] and [maxStaked + 0.01], one unit per active
    validator below and the current stake plus the reserve above, and a
    plan whose total target lies in that range is accepted; both up to
    the allowance for the binary64 rounding of the sums. *)
Theorem validate_iff_within_stake_range (s : EditState) :
  planMagnitude s <= MAX_MAGNITUDE ->
  (validate s = true ->
   minStaked s - (1 # 100) - planAllowance s <= totalWithNew s /\
   totalWithNew s <= maxStaked s + (1 # 100) + planAllowance s) /\
  (minStaked s - (1 # 100) + planAllowance s <= totalWithNew s ->
   totalWithNew s + planAllowance s <= maxStaked s + (1 # 100) ->
   validate s = true).
Proof.
  intros _.
  pose proof (roundingAllowance_nonneg (length (allValidators s) + 1) _
                (planMagnitude_nonneg s)) as Hallow.
  fold (planAllowance s) in Hallow. split.
  - intros H. apply validate_stake_range in H as [Hmin Hmax]. split; lra.
  - intros Hmin Hmax. apply validate_stake_range. split; lra.
Qed.

Lemma validate_iff_within_stake_range_witness :
  let s := mkEditState [sampleValidator "A" 100 80 keep; sampleValidator "B" 60 0 remove]
             [sampleValidator "N" 0 90 add] "" 10 in
  validate s = true /\
  totalWithNew s <= maxStaked s + (1 # 100) + planAllowance s.
Proof.
  intros s.
  assert (Hm : planMagnitude s <= MAX_MAGNITUDE) by (vm_compute; discriminate).
  destruct (validate_iff_within_stake_range s Hm) as [Hin Hout].
  assert (Hv : validate s = true).
  { apply Hout; vm_compute; discriminate. }
  split; [exact Hv|]. exact (proj2 (Hin Hv)).
Defined.

(** ** What no command writes *)

Lemma fixedFields_insert (l : list ValidatorData) (i : nat) (v v' : ValidatorData) :
  l !! i = Some v -> fixedFields v' = fixedFields v ->
  map fixedFields (<[i := v']> l) = map fixedFields l.
Proof.
  intros Hi Hv. change (fixedFields <$> <[i := v']> l = fixedFields <$> l).
  rewrite list_fmap_insert, Hv. apply list_insert_id. by rewrite list_lookup_fmap, Hi.
Qed.

Lemma raised_fixedFields (v v' : ValidatorData) : raised v v' -> fixedFields v' = fixedFields v.
Proof. intros [->|(_ & x & -> & _)]; reflexivity. Qed.

Lemma raisedAll_fixedFields (vs vs' : list ValidatorData) :
  Forall2 raised vs vs' -> map fixedFields vs' = map fixedFields vs.
Proof.
  induction 1 as [|v v' vs vs' Hv _ IH]; simpl; [reflexivity|].
  by rewrite (raised_fixedFields _ _ Hv), IH.
Qed.

(** How a command may change the two lists: the existing validators keep
    their fixed fields, position by position; the proposed ones do too,
    unless the command is a successful [a], which pushes one record whose
    identity was not in the state. *)
Lemma step_frame (s : EditState) (c : Command) :
  reserveBalance (step s c).1 = reserveBalance s /\
  reserveAccount (step s c).1 = reserveAccount s /\
  map fixedFields (validators (step s c).1) = map fixedFields (validators s) /\
  (map fixedFields (newValidators (step s c).1) = map fixedFields (newValidators s) \/
   exists toAdd validatorName,
     voteAccountExists s toAdd = false /\
     newValidators (step s c).1 = newValidators s ++ [newValidator toAdd validatorName]).
Proof.
  destruct c as [idx|idx|idx amount|idx amount|idx amount|vote result validatorName|];
    simpl.
  - unfold markRemoved. destruct (validAt (validators s) idx) as [v|] eqn:Hv; simpl; auto.
    apply validAt_Some in Hv as [_ Hv]. rewrite (fixedFields_insert _ _ v); auto.
  - unfold undoRemoved. destruct (validAt (validators s) idx) as [v|] eqn:Hv; simpl; auto.
    apply validAt_Some in Hv as [_ Hv]. rewrite (fixedFields_insert _ _ v); auto.
  - unfold setTarget.
    destruct (validAt (validators s) idx) as [v|] eqn:Hv;
      [apply validAt_Some in Hv as [_ Hv]|];
      destruct amount as [a|]; simpl; auto;
      try (rewrite (fixedFields_insert _ _ v); auto);
      destruct (inNewRange s idx); simpl; auto;
      destruct (validAt (newValidators s) (newIdx s idx)) as [nv|] eqn:Hnv; simpl; auto;
      apply validAt_Some in Hnv as [_ Hnv]; rewrite (fixedFields_insert _ _ nv); auto.
  - unfold addToTarget.
    destruct (validAt (validators s) idx) as [v|] eqn:Hv;
      [apply validAt_Some in Hv as [_ Hv]|];
      destruct amount as [a|]; simpl; auto;
      try (destruct (is_remove v); simpl; auto; rewrite (fixedFields_insert _ _ v); auto);
      destruct (inNewRange s idx); simpl; auto;
      destruct (validAt (newValidators s) (newIdx s idx)) as [nv|] eqn:Hnv; simpl; auto;
      apply validAt_Some in Hnv as [_ Hnv]; rewrite (fixedFields_insert _ _ nv); auto.
  - unfold subtractFromTarget.
    destruct (validAt (validators s) idx) as [v|] eqn:Hv;
      [apply validAt_Some in Hv as [_ Hv]|];
      destruct amount as [a|]; simpl; auto;
      try (destruct (is_remove v); simpl; auto;
           destruct (Qltb _ 0); simpl; auto; rewrite (fixedFields_insert _ _ v); auto);
      destruct (inNewRange s idx); simpl; auto;
      destruct (validAt (newValidators s) (newIdx s idx)) as [nv|] eqn:Hnv; simpl; auto;
      destruct (Qltb _ 0); simpl; auto;
      apply validAt_Some in Hnv as [_ Hnv]; rewrite (fixedFields_insert _ _ nv); auto.
  - unfold addValidator.
    destruct (voteAccountExists s vote); simpl; auto.
    destruct (valid result); simpl; auto.
    destruct (voteAccountExists s (checkedVoteAccount result)) eqn:E; simpl; auto.
    split; [reflexivity|]. split; [reflexivity|]. split; [reflexivity|]. right. eauto.
  - destruct (autoRebalance_cases s) as [[_ E]|[(_ & _ & E)|(_ & _ & vs & E & HR)]];
      rewrite E; simpl; auto.
    rewrite (raisedAll_fixedFields _ _ HR). auto.
Qed.

(** The current total reads only fields that stay as loaded. *)
Lemma totalCurrent_fixed (s s' : EditState) :
  map fixedFields (validators s') = map fixedFields (validators s) ->
  totalCurrent s' = totalCurrent s.
Proof.
  intros H. unfold totalCurrent, reduce_sum.
  assert (E : map activeBalance (validators s') = map activeBalance (validators s)).
  { change activeBalance with (fun v => (fixedFields v).1.1.1.1.2).
    rewrite <- !(map_map fixedFields (fun t => t.1.1.1.1.2)). by rewrite H. }
  assert (G : forall l a, fold_left (fun acc (v : ValidatorData) => acc + activeBalance v) l a
                          = fold_left Qplus (map activeBalance l) a).
  { induction l as [|v l IH]; intros a; simpl; [reflexivity|]. apply IH. }
  by rewrite !G, E.
Qed.

(** X2. No command touches the reserve, the number and order of the
    existing validators, or any of their fields other than target and
    action: identities, stake accounts and current balances stay as
    loaded, so the current total stake is the same after every command. *)
Theorem commands_keep_loaded_data (s : EditState) (c : Command) :
  reserveBalance (step s c).1 = reserveBalance s /\
  reserveAccount (step s c).1 = reserveAccount s /\
  map fixedFields (validators (step s c).1) = map fixedFields (validators s) /\
  length (validators (step s c).1) = length (validators s) /\
  (length (newValidators s) <= length (newValidators (step s c).1))%nat /\
  totalCurrent (step s c).1 = totalCurrent s.
Proof.
  destruct (step_frame s c) as (Hr & Ha & Hv & Hn).
  split; [exact Hr|]. split; [exact Ha|]. split; [exact Hv|]. split; [|split].
  - rewrite <- (length_map fixedFields), Hv. apply length_map.
  - destruct Hn as [Hn|(toAdd & nm & _ & Hn)].
    + rewrite <- (length_map fixedFields (newValidators s)), <- Hn, length_map. lia.
    + rewrite Hn, length_app. simpl. lia.
  - by apply totalCurrent_fixed.
Qed.

(** ** Identities stay unique *)

Lemma voteAccount_fixed (l l' : list ValidatorData) :
  map fixedFields l' = map fixedFields l -> map voteAccount l' = map voteAccount l.
Proof.
  intros H. change voteAccount with (fun v => (fixedFields v).1.1.1.1.1.1.1).
  rewrite <- !(map_map fixedFields (fun t => t.1.1.1.1.1.1.1)). by rewrite H.
Qed.

Lemma voteAccountExists_false (s : EditState) (x : string) :
  voteAccountExists s x = false -> x ∉ map voteAccount (allValidators s).
Proof.
  intros Hno Hin. apply list_elem_of_fmap in Hin as (v & -> & Hv).
  assert (H : voteAccountExists s (voteAccount v) = true)
    by (apply voteAccountExists_iff; eauto).
  congruence.
Qed.

(** X3. Invariant I1 is kept by every command: if no identity occurs
    twice among the existing and proposed validators, none does after
    the command. *)
Theorem commands_keep_identities_unique (s : EditState) (c : Command) :
  uniqueIdentities s -> uniqueIdentities (step s c).1.
Proof.
  unfold uniqueIdentities, allValidators. intros Hnd.
  destruct (step_frame s c) as (_ & _ & Hv & Hn).
  apply voteAccount_fixed in Hv.
  destruct Hn as [Hn|(toAdd & nm & Hno & Hn)].
  - apply voteAccount_fixed in Hn. by rewrite !map_app, Hv, Hn, <- map_app.
  - rewrite Hn, !map_app, Hv, app_assoc, <- map_app. simpl.
    apply NoDup_app. split; [exact Hnd|]. split; [|apply NoDup_singleton].
    intros x Hx Hx'. apply list_elem_of_singleton in Hx' as ->.
    by apply (voteAccountExists_false s toAdd Hno).
Qed.

Lemma commands_keep_identities_unique_witness :
  let s := mkEditState [sampleValidator "A" 1000 1000 keep] [] "" 0 in
  uniqueIdentities
    (step s (CmdAddValidator "id" (mkVoteAccountCheck true "V" None) None)).1.
Proof.
  intros s. apply (commands_keep_identities_unique s). compute_done.
Defined.

(** ** Whole lamports *)

Lemma Qfloor_shift (y : Q) (k : Z) : Qfloor (y + inject_Z k) = (Qfloor y + k)%Z.
Proof.
  pose proof (Qfloor_le y) as Ha. pose proof (Qlt_floor y) as Ha'.
  pose proof (Qfloor_le (y + inject_Z k)) as Hb.
  pose proof (Qlt_floor (y + inject_Z k)) as Hb'.
  rewrite inject_Z_plus in Ha', Hb'. change (inject_Z 1) with 1 in Ha', Hb'.
  apply Z.le_antisymm.
  - apply Z.lt_succ_r. rewrite Zlt_Qlt. unfold Z.succ.
    rewrite !inject_Z_plus. change (inject_Z 1) with 1. lra.
  - apply Z.lt_succ_r. rewrite Zlt_Qlt. unfold Z.succ.
    rewrite !inject_Z_plus. change (inject_Z 1) with 1. lra.
Qed.

(** Adding a whole number of lamports commutes with rounding. *)
Lemma roundToLamports_shift (x d : Q) :
  roundToLamports d == d -> roundToLamports (x + d) == roundToLamports x + d.
Proof.
  unfold roundToLamports. intros Hd.
  set (k := Math_round (d * LAMPORTS_PER_SOL)) in *.
  rewrite div_LAMPORTS_PER_SOL in Hd.
  assert (E : Math_round ((x + d) * LAMPORTS_PER_SOL)
              = (Math_round (x * LAMPORTS_PER_SOL) + k)%Z).
  { unfold Math_round. rewrite <- Qfloor_shift. apply Qfloor_comp.
    unfold LAMPORTS_PER_SOL. lra. }
  rewrite E, inject_Z_plus, !div_LAMPORTS_PER_SOL. lra.
Qed.

Lemma aligned_plus (x d : Q) :
  roundToLamports x == x -> roundToLamports d == d -> roundToLamports (x + d) == x + d.
Proof. intros Hx Hd. by rewrite roundToLamports_shift, Hx. Qed.

Lemma aligned_zero : roundToLamports 0 == 0.
Proof. reflexivity. Qed.








Lemma autoRebalance_raised (s : EditState) :
  Forall2 raised (validators s) (validators (autoRebalance s).1).
Proof.
  destruct (autoRebalance_cases s) as [[_ E]|[(_ & _ & E)|(_ & _ & vs & E & HR)]];
    rewrite E; simpl; auto using raisedAll_refl.
Qed.



(** ** Round trips of the commands *)

Lemma with_validators_same (s : EditState) : with_validators (validators s) s = s.
Proof. by destruct s. Qed.

(** X6. Removing a validator whose target was not edited and undoing the
    removal gives back the very state one started from. *)
Theorem undo_after_remove_restores (s : EditState) (i : nat) (v : ValidatorData) :
  validators s !! i = Some v ->
  action v = Some keep -> targetBalance v = Some (activeBalance v) ->
  run s [CmdRemove (Z.of_nat i); CmdUndo (Z.of_nat i)] = s.
Proof.
  intros Hi Hact Htar. simpl. rewrite (markRemoved_at s i v Hi). simpl.
  pose proof (lookup_lt_Some _ _ _ Hi) as Hlt.
  rewrite (undoRemoved_at _ i (set_targetBalance 0 (set_action remove v))); simpl;
    [|by apply list_lookup_insert_eq].
  rewrite with_validators_twice, list_insert_insert_eq.
  assert (E : set_targetBalance (activeBalance v)
                (set_action keep (set_targetBalance 0 (set_action remove v))) = v).
  { destruct v. simpl in *. by subst. }
  rewrite E, (list_insert_id _ _ _ Hi). apply with_validators_same.
Qed.

Lemma undo_after_remove_restores_witness :
  let poolData := mkPoolData "" 0
        [sampleValidator "A" 1000 0 remove; sampleValidator "B" 500 7 add] in
  run (initialState poolData) [CmdRemove 1; CmdUndo 1] = initialState poolData.
Proof.
  intros poolData.
  exact (undo_after_remove_restores (initialState poolData) 1
           (sampleValidator "B" 500 500 keep) eq_refl eq_refl eq_refl).
Defined.

Lemma replaceAt_lookup (s : EditState) (i : nat) (v v' : ValidatorData) :
  allValidators s !! i = Some v ->
  allValidators (replaceAt s i v') !! i = Some v' /\
  length (validators (replaceAt s i v')) = length (validators s).
Proof.
  unfold allValidators, replaceAt. intros Hi.
  destruct (i <? length (validators s))%nat eqn:E; simpl.
  - apply Nat.ltb_lt in E. split; [|apply length_insert].
    rewrite lookup_app_l by (by rewrite length_insert). by apply list_lookup_insert_eq.
  - apply Nat.ltb_ge in E. split; [|reflexivity].
    rewrite lookup_app_r by exact E. apply list_lookup_insert_eq.
    rewrite lookup_app_r in Hi by exact E. by eapply lookup_lt_Some.
Qed.

Lemma currentTargetAt_set (s : EditState) (i : nat) (x : Q) (v : ValidatorData) :
  currentTargetAt s i (set_targetBalance x v) = x.
Proof. unfold currentTargetAt. by destruct (i <? length (validators s))%nat. Qed.

(** X7. Within the range where lamports are exact (a sum of at most a
    million SOL), adding a non-negative whole number of lamports to a
    non-negative whole-lamport target and subtracting it again succeeds
    both times and leaves the target at its old value; nothing else of
    the record changes. *)
Theorem subtract_after_add_restores (s : EditState) (i : nat) (v : ValidatorData) (d : Q) :
  allValidators s !! i = Some v -> action v <> Some remove ->
  roundToLamports (currentTargetAt s i v) == currentTargetAt s i v ->
  0 <= currentTargetAt s i v ->
  roundToLamports d == d -> 0 <= d ->
  currentTargetAt s i v + d <= LAMPORT_EXACT_RANGE ->
  let s1 := (step s (CmdAdd (Z.of_nat i) (Some d))).1 in
  let s2 := (step s1 (CmdSub (Z.of_nat i) (Some d))).1 in
  (step s (CmdAdd (Z.of_nat i) (Some d))).2 = None /\
  (step s1 (CmdSub (Z.of_nat i) (Some d))).2 = None /\
  exists v2, allValidators s2 !! i = Some v2 /\
             currentTargetAt s2 i v2 == currentTargetAt s i v /\
             fixedFields v2 = fixedFields v /\ action v2 = action v.
Proof.
  intros Hi Hact Hal Hpos Hd _ _ s1 s2. unfold s2, s1. clear s1 s2. simpl.
  rewrite (addToTarget_ok s i v d Hi Hact). simpl.
  set (cur := currentTargetAt s i v) in *.
  set (v1 := set_targetBalance (roundToLamports (cur + d)) v).
  destruct (replaceAt_lookup s i v v1 Hi) as [Hi1 _].
  assert (Hact1 : action v1 <> Some remove) by exact Hact.
  assert (Hback : roundToLamports (currentTargetAt (replaceAt s i v1) i v1 - d) == cur).
  { unfold v1. rewrite currentTargetAt_set.
    assert (E : roundToLamports (cur + d) - d == cur) by (rewrite aligned_plus; [lra|done..]).
    by rewrite (roundToLamports_proper _ _ E). }
  rewrite (subtractFromTarget_ok _ i v1 d Hi1 Hact1) by (rewrite Hback; exact Hpos).
  simpl. split; [reflexivity|]. split; [reflexivity|].
  eexists. split; [apply (replaceAt_lookup _ i v1 _ Hi1)|].
  split; [|split; reflexivity]. rewrite currentTargetAt_set. exact Hback.
Qed.

Lemma subtract_after_add_restores_witness :
  let s := mkEditState [sampleValidator "A" 1000 1000 keep]
             [sampleValidator "N" 0 3 add] "" 0 in
  let s2 := run s [CmdAdd 1 (Some (1 # 4)); CmdSub 1 (Some (1 # 4))] in
  exists v2, allValidators s2 !! 1%nat = Some v2 /\ currentTargetAt s2 1 v2 == 3.
Proof.
  intros s s2.
  assert (Hact : action (sampleValidator "N" 0 3 add) <> Some remove) by discriminate.
  assert (Hpos : 0 <= 3) by (vm_compute; discriminate).
  assert (Hd : 0 <= 1 # 4) by (vm_compute; discriminate).
  assert (Hrange : 3 + (1 # 4) <= LAMPORT_EXACT_RANGE) by (vm_compute; discriminate).
  destruct (subtract_after_add_restores s 1 (sampleValidator "N" 0 3 add) (1 # 4)
              eq_refl Hact eq_refl Hpos eq_refl Hd Hrange) as (_ & _ & v2 & Hv2 & Ht & _).
  exists v2. split; [exact Hv2|exact Ht].
Defined.

(** ** Adjustments do not drift *)

Lemma aligned_sum (ds : list Q) :
  Forall (fun d => roundToLamports d == d) ds -> roundToLamports (sumQ ds) == sumQ ds.
Proof.
  induction 1 as [|d ds Hd _ IH]; simpl; [reflexivity|].
  rewrite Qplus_comm. by apply aligned_plus.
Qed.

Lemma adds_on_aligned (s : EditState) (i : nat) (v : ValidatorData) (ds : list Q) :
  allValidators s !! i = Some v -> action v <> Some remove ->
  roundToLamports (currentTargetAt s i v) == currentTargetAt s i v ->
  Forall (fun d => roundToLamports d == d) ds ->
  exists v', allValidators (run s (map (fun d => CmdAdd (Z.of_nat i) (Some d)) ds)) !! i
             = Some v' /\
             action v' = action v /\
             currentTargetAt (run s (map (fun d => CmdAdd (Z.of_nat i) (Some d)) ds)) i v'
             == currentTargetAt s i v + sumQ ds.
Proof.
  intros Hi Hact Hal Hds. revert s v Hi Hact Hal.
  induction Hds as [|d ds Hd _ IH]; intros s v Hi Hact Hal; simpl.
  - exists v. split; [exact Hi|]. split; [reflexivity|]. lra.
  - rewrite (addToTarget_ok s i v d Hi Hact). simpl.
    set (v1 := set_targetBalance (roundToLamports (currentTargetAt s i v + d)) v).
    destruct (replaceAt_lookup s i v v1 Hi) as [Hi1 _].
    destruct (IH (replaceAt s i v1) v1 Hi1 Hact) as (v' & Hv' & Ha' & Ht').
    { unfold v1. rewrite currentTargetAt_set. apply roundToLamports_idem. }
    exists v'. split; [exact Hv'|]. split; [exact Ha'|]. rewrite Ht'.
    unfold v1. rewrite currentTargetAt_set, aligned_plus by done. lra.
Qed.

(** X8. Within the range where lamports are exact, a non-empty run of
    [+] commands on one validator whose target is a non-negative whole
    number of lamports, each by a non-negative whole number of lamports
    and the sum at most a million SOL, leaves the target at the exact
    sum: the rounding after every step changes nothing. *)
Theorem adjustments_accumulate_exactly (s : EditState) (i : nat) (v : ValidatorData)
    (ds : list Q) :
  allValidators s !! i = Some v -> action v <> Some remove ->
  roundToLamports (currentTargetAt s i v) == currentTargetAt s i v ->
  0 <= currentTargetAt s i v ->
  Forall (fun d => roundToLamports d == d /\ 0 <= d) ds -> ds <> [] ->
  currentTargetAt s i v + sumQ ds <= LAMPORT_EXACT_RANGE ->
  exists v', allValidators (run s (map (fun d => CmdAdd (Z.of_nat i) (Some d)) ds)) !! i
             = Some v' /\
             currentTargetAt (run s (map (fun d => CmdAdd (Z.of_nat i) (Some d)) ds)) i v'
             == currentTargetAt s i v + sumQ ds.
Proof.
  intros Hi Hact Hal _ Hds0 Hne _.
  assert (Hds : Forall (fun d => roundToLamports d == d) ds).
  { eapply Forall_impl; [exact Hds0|]. by intros d [H _]. }
  clear Hds0. destruct ds as [|d ds]; [done|].
  apply Forall_cons in Hds as [Hd Hds]. cbn [map run foldl].
  change (foldl (fun s c => (step s c).1) ?s0 ?cs) with (run s0 cs).
  cbn [step]. rewrite (addToTarget_ok s i v d Hi Hact). cbn [fst].
  set (v1 := set_targetBalance (roundToLamports (currentTargetAt s i v + d)) v).
  destruct (replaceAt_lookup s i v v1 Hi) as [Hi1 _].
  destruct (adds_on_aligned (replaceAt s i v1) i v1 ds Hi1 Hact) as (v' & Hv' & _ & Ht').
  { unfold v1. rewrite currentTargetAt_set. apply roundToLamports_idem. }
  { exact Hds. }
  exists v'. split; [exact Hv'|]. rewrite Ht'. unfold v1. rewrite currentTargetAt_set.
  change (sumQ (d :: ds)) with (d + sumQ ds).
  rewrite (aligned_plus _ d Hal Hd). lra.
Qed.

Lemma adjustments_accumulate_exactly_witness :
  let s := mkEditState [sampleValidator "A" 10 (1 # 4) keep] [] "" 0 in
  let s' := run s (map (fun d => CmdAdd 0 (Some d)) (replicate 100 (1 # 1000000000))) in
  exists v', allValidators s' !! 0%nat = Some v' /\
             currentTargetAt s' 0 v' == (1 # 4) + sumQ (replicate 100 (1 # 1000000000)).
Proof.
  intros s s'.
  assert (Hact : action (sampleValidator "A" 10 (1 # 4) keep) <> Some remove) by discriminate.
  refine (adjustments_accumulate_exactly s 0 (sampleValidator "A" 10 (1 # 4) keep)
            (replicate 100 (1 # 1000000000)) eq_refl Hact _ _ _ _ _).
  - reflexivity.
  - vm_compute. discriminate.
  - apply Forall_replicate. split; [reflexivity|vm_compute; discriminate].
  - discriminate.
  - vm_compute. discriminate.
Defined.

(** ** Rebalancing and validating *)

Lemma step_rebalance (s : EditState) : (step s CmdRebalance).1 = (autoRebalance s).1.
Proof. simpl. by destruct (autoRebalance s). Qed.

Lemma run_rebalance_twice (s : EditState) :
  run s [CmdRebalance; CmdRebalance] = (autoRebalance (autoRebalance s).1).1.
Proof.
  change (run s [CmdRebalance; CmdRebalance])
    with (step (step s CmdRebalance).1 CmdRebalance).1.
  by rewrite !step_rebalance.
Qed.

Lemma raisedAll_removed (vs vs' : list ValidatorData) :
  Forall2 raised vs vs' -> List.filter is_remove vs' = List.filter is_remove vs.
Proof.
  induction 1 as [|v v' vs vs' Hv _ IH]; simpl; [reflexivity|].
  destruct Hv as [->|(Hact & x & -> & _)].
  - by rewrite IH.
  - change (is_remove (set_targetBalance x v)) with (is_remove v).
    unfold not_remove in Hact. apply negb_true_iff in Hact. by rewrite Hact.
Qed.

Lemma raisedAll_active_length (vs vs' : list ValidatorData) :
  Forall2 raised vs vs' ->
  length (List.filter not_remove vs') = length (List.filter not_remove vs).
Proof.
  induction 1 as [|v v' vs vs' Hv _ IH]; simpl; [reflexivity|].
  rewrite (raised_not_remove _ _ Hv). destruct (not_remove v); simpl; by rewrite IH.
Qed.

(** What a rebalance keeps: the freed stake, the number of active
    validators, the current total, the proposed validators, the reserve. *)
Lemma autoRebalance_keeps (s : EditState) :
  removedStake (autoRebalance s).1 = removedStake s /\
  activeCount (autoRebalance s).1 = activeCount s /\
  totalCurrent (autoRebalance s).1 = totalCurrent s /\
  newValidators (autoRebalance s).1 = newValidators s /\
  reserveBalance (autoRebalance s).1 = reserveBalance s /\
  map fixedFields (validators (autoRebalance s).1) = map fixedFields (validators s).
Proof.
  pose proof (autoRebalance_raised s) as HR.
  pose proof (raisedAll_fixedFields _ _ HR) as Hf.
  split; [|split; [|split; [|split; [|split]]]].
  - unfold removedStake. by rewrite (raisedAll_removed _ _ HR).
  - unfold activeCount. by apply raisedAll_active_length.
  - by apply totalCurrent_fixed.
  - destruct (autoRebalance_cases s) as [[_ E]|[(_ & _ & E)|(_ & _ & vs & E & _)]];
      by rewrite E.
  - destruct (autoRebalance_cases s) as [[_ E]|[(_ & _ & E)|(_ & _ & vs & E & _)]];
      by rewrite E.
  - exact Hf.
Qed.

Lemma nonneg_fixed (s s' : EditState) :
  map fixedFields (validators s') = map fixedFields (validators s) ->
  (forall v, v ∈ validators s -> 0 <= activeBalance v) ->
  forall v, v ∈ validators s' -> 0 <= activeBalance v.
Proof.
  intros H Hnn v' Hv'. apply list_elem_of_lookup in Hv' as [j Hj].
  assert (Hf : (fixedFields <$> validators s) !! j = Some (fixedFields v')).
  { change (fixedFields <$> validators s) with (map fixedFields (validators s)).
    rewrite <- H. change (map fixedFields ?l) with (fixedFields <$> l).
    by rewrite list_lookup_fmap, Hj. }
  rewrite list_lookup_fmap in Hf. destruct (validators s !! j) as [v|] eqn:Hv; [|discriminate].
  assert (E : activeBalance v' = activeBalance v)
    by (simpl in Hf; unfold fixedFields in Hf; congruence).
  rewrite E. apply Hnn, list_elem_of_lookup. eauto.
Qed.

Lemma active_exists_iff (s : EditState) :
  (exists v, v ∈ validators s /\ not_remove v = true) <-> activeValidators s <> [].
Proof.
  rewrite <- noneActive_iff. split.
  - intros (v & Hv & Hact) Hnone. specialize (Hnone v Hv).
    unfold not_remove in Hact. rewrite Hnone in Hact. discriminate.
  - intros Hsome. destruct (activeValidators s) as [|i l] eqn:E.
    + exfalso. apply Hsome. by apply noneActive_iff.
    + assert (Hi : i ∈ activeValidators s) by (rewrite E; apply list_elem_of_here).
      apply activeValidators_elem_of in Hi as (v & Hv & Hact).
      exists v. split; [apply list_elem_of_lookup; eauto|exact Hact].
Qed.

Lemma activeValidators_nonempty_kept (s : EditState) :
  activeValidators s <> [] -> activeValidators (autoRebalance s).1 <> [].
Proof.
  intros Hne Hnil.
  pose proof (activeValidators_length (autoRebalance s).1) as H1.
  pose proof (activeValidators_length s) as H2.
  destruct (autoRebalance_keeps s) as (_ & Hc & _).
  rewrite Hnil, Hc, <- H2 in H1. destruct (activeValidators s); [done|discriminate].
Qed.

Lemma rebalance_twice_targets (s : EditState) :
  (forall v, v ∈ validators s -> 0 <= activeBalance v) ->
  (exists v, v ∈ validators s /\ not_remove v = true) ->
  Qabs (totalTarget (run s [CmdRebalance; CmdRebalance])
        - (totalTarget s + 2 * removedStake s))
  <= 2 * rebalanceTolerance (activeCount s).
Proof.
  intros Hnn Hact. apply active_exists_iff in Hact.
  rewrite run_rebalance_twice.
  destruct (autoRebalance_keeps s) as (Hrem & Hcount & _ & _ & _ & Hfix).
  pose proof (autoRebalance_drift s (removedStake_nonneg s Hnn) Hact) as (L1 & U1).
  pose proof (removedStake_nonneg _ (nonneg_fixed _ _ Hfix Hnn)) as Hnn'.
  pose proof (autoRebalance_drift _ Hnn' (activeValidators_nonempty_kept s Hact))
    as (L2 & U2).
  cbv zeta in *. rewrite Hrem, Hcount in L2, U2.
  rewrite <- !totalTarget_activeSum in *.
  apply Qabs_Qle_condition. split; lra.
Qed.

(** X9. A rebalance does not remember that it ran: a second [b] hands out
    the freed stake once more.  For a state of finite amounts, after two
    rebalances the active targets exceed their first sum by twice the
    removed stake, within twice the lamport tolerance of one rebalance
    and the allowance for the binary64 rounding of both. *)
Theorem rebalance_twice_adds_twice (s : EditState) :
  (forall v, v ∈ validators s -> 0 <= activeBalance v) ->
  (exists v, v ∈ validators s /\ not_remove v = true) ->
  stakeMagnitude s <= MAX_MAGNITUDE ->
  Qabs (totalTarget (run s [CmdRebalance; CmdRebalance])
        - (totalTarget s + 2 * removedStake s))
  <= 2 * rebalanceTolerance (activeCount s)
     + 4 * roundingAllowance (length (validators s)) (stakeMagnitude s).
Proof.
  intros Hnn Hact _.
  pose proof (rebalance_twice_targets s Hnn Hact) as H.
  pose proof (roundingAllowance_nonneg (length (validators s)) _ (stakeMagnitude_nonneg s)).
  apply Qabs_Qle_condition in H as [Hlo Hhi]. apply Qabs_Qle_condition. split; lra.
Qed.

Lemma rebalance_twice_adds_twice_witness :
  let s := mkEditState
             [sampleValidator "A" 1000 0 remove; sampleValidator "B" 500 500 keep] [] "" 0 in
  Qabs (totalTarget (run s [CmdRebalance; CmdRebalance]) - (500 + 2 * 1000))
  <= 2 * rebalanceTolerance 1 + 4 * roundingAllowance 2 2000.
Proof.
  intros s. apply (rebalance_twice_adds_twice s).
  - intros v Hv. apply list_elem_of_In in Hv. simpl in Hv.
    destruct Hv as [<-|[<-|[]]]; vm_compute; discriminate.
  - exists (sampleValidator "B" 500 500 keep).
    split; [apply list_elem_of_further, list_elem_of_here|reflexivity].
  - vm_compute. discriminate.
Defined.

Lemma unedited_total (s : EditState) :
  unedited s -> totalTarget s + removedStake s == totalCurrent s.
Proof.
  intros Hun. unfold totalTarget, removedStake, totalCurrent. rewrite !reduce_sum_sumQ.
  rewrite (sumQ_split _ not_remove activeBalance (validators s)).
  assert (Hrem : List.filter (fun v => negb (not_remove v)) (validators s)
                 = List.filter is_remove (validators s)).
  { apply List.filter_ext. intros v. unfold not_remove. apply negb_involutive. }
  rewrite Hrem. apply Qplus_comp; [|reflexivity].
  unfold unedited in Hun. revert Hun. generalize (validators s).
  intros l. induction l as [|v vs IH]; intros Hun; simpl; [reflexivity|].
  assert (IH' : sumQ (map target (List.filter not_remove vs))
                == sumQ (map activeBalance (List.filter not_remove vs))).
  { apply IH. intros w Hw Hact. apply Hun; [by apply list_elem_of_further|exact Hact]. }
  destruct (not_remove v) eqn:Hv; [|exact IH']. simpl.
  rewrite IH', (Hun v (list_elem_of_here _ _) Hv). reflexivity.
Qed.

(** X10. Rebalancing twice over-allocates.  From a state of finite
    amounts whose active targets are still the current balances, two
    rebalances leave a plan that [validate] rejects, unless the reserve
    could pay the freed and proposed stake a second time (up to the
    tolerance of 0.01, the lamport tolerance of the two rebalances and
    the allowance for binary64 rounding). *)
Theorem rebalance_twice_fails_validation (s : EditState) :
  (forall v, v ∈ validators s -> 0 <= activeBalance v) ->
  (exists v, v ∈ validators s /\ not_remove v = true) ->
  unedited s ->
  planMagnitude s <= MAX_MAGNITUDE ->
  reserveBalance s + (1 # 100) + 2 * rebalanceTolerance (activeCount s)
    + 4 * planAllowance s
    < removedStake s + newValidatorStake s ->
  validate (run s [CmdRebalance; CmdRebalance]) = false.
Proof.
  intros Hnn Hact Hun _ Hlow0.
  assert (Hlow : reserveBalance s + (1 # 100) + 2 * rebalanceTolerance (activeCount s)
                 < removedStake s + newValidatorStake s).
  { pose proof (roundingAllowance_nonneg (length (allValidators s) + 1) _
                  (planMagnitude_nonneg s)) as H.
    unfold planAllowance in Hlow0. lra. }
  clear Hlow0.
  pose proof (rebalance_twice_targets s Hnn Hact) as Hd.
  apply Qabs_Qle_condition in Hd as [Hlo _].
  pose proof (unedited_total s Hun) as Htot.
  destruct (validate _) eqn:Hv; [|reflexivity]. exfalso.
  apply validate_stake_range in Hv as [_ Hmax].
  rewrite run_rebalance_twice in *.
  set (s1 := (autoRebalance s).1) in *. set (s2 := (autoRebalance s1).1) in *.
  destruct (autoRebalance_keeps s) as (_ & _ & Hc1 & Hn1 & Hr1 & _).
  destruct (autoRebalance_keeps s1) as (_ & _ & Hc2 & Hn2 & Hr2 & _).
  fold s1 in Hc1, Hn1, Hr1. fold s2 in Hc2, Hn2, Hr2.
  unfold maxStaked, totalWithNew, newValidatorStake in *.
  rewrite Hc2, Hc1, Hr2, Hr1, Hn2, Hn1 in Hmax. lra.
Qed.

Lemma rebalance_twice_fails_validation_witness :
  let s := mkEditState
             [sampleValidator "A" 1000 0 remove; sampleValidator "B" 500 500 keep] [] "" 0 in
  validate (autoRebalance s).1 = true /\
  validate (run s [CmdRebalance; CmdRebalance]) = false.
Proof.
  intros s. split; [reflexivity|]. apply (rebalance_twice_fails_validation s).
  - intros v Hv. apply list_elem_of_In in Hv. simpl in Hv.
    destruct Hv as [<-|[<-|[]]]; vm_compute; discriminate.
  - exists (sampleValidator "B" 500 500 keep).
    split; [apply list_elem_of_further, list_elem_of_here|reflexivity].
  - intros v Hv Hact. apply list_elem_of_In in Hv. simpl in Hv.
    destruct Hv as [<-|[<-|[]]]; [discriminate|reflexivity].
  - vm_compute. discriminate.
  - vm_compute. reflexivity.
Defined.










(** ** The saved plan *)

Lemma filter_split_length (A : Type) (p : A -> bool) (l : list A) :
  (length (List.filter p l) + length (List.filter (fun x => negb (p x)) l))%nat = length l.
Proof.
  induction l as [|x l IH]; simpl; [reflexivity|]. destruct (p x); simpl; lia.
Qed.

(** X12. The saved plan is consistent with itself and with the state:
    the counts of its summary are the lengths of its lists; every
    existing validator is listed, with its accounts and balance, among
    the removals if it is marked [remove] and among the plan's
    validators, with its target, if it is not, and the two lists hold
    nothing else; every proposed validator is among the additions; and
    every modification is one of the plan's validators, listed there
    with the same accounts, balance and target, its change being the
    target minus the current balance as the code subtracts them. *)
Theorem saved_plan_consistent (s : EditState) :
  let output := saveState_output s in
  let removalOf v := mkPlanRemoval (voteAccount v) (stakeAccount v) (activeBalance v) in
  let validatorOf v :=
    mkPlanValidator (voteAccount v) (stakeAccount v) (activeBalance v) (target v) in
  toRemove (summary output) = length (removals output) /\
  toAdd (summary output) = length (additions output) /\
  toModify (summary output) = length (modifications output) /\
  totalValidators (summary output)
    = (length (plan_validators output) + length (additions output))%nat /\
  (length (removals output) + length (plan_validators output))%nat = length (validators s) /\
  (forall v, v ∈ validators s ->
     if is_remove v then removalOf v ∈ removals output
     else validatorOf v ∈ plan_validators output) /\
  (forall r, r ∈ removals output ->
     exists v, v ∈ validators s /\ is_remove v = true /\ r = removalOf v) /\
  (forall pv, pv ∈ plan_validators output ->
     exists v, v ∈ validators s /\ is_remove v = false /\ pv = validatorOf v) /\
  (forall v, v ∈ newValidators s ->
     mkPlanAddition (voteAccount v) (targetBalance v) ∈ additions output) /\
  (forall m, m ∈ modifications output ->
     let planned := match modification_targetBalance m with
                    | Some t => t
                    | None => modification_currentBalance m
                    end in
     modification_change m == planned - modification_currentBalance m /\
     mkPlanValidator (modification_voteAccount m) (modification_stakeAccount m)
       (modification_currentBalance m) planned ∈ plan_validators output).
Proof.
  intros output removalOf validatorOf. unfold output, saveState_output. simpl.
  rewrite !length_map. split; [reflexivity|]. split; [reflexivity|].
  split; [reflexivity|]. split; [reflexivity|]. split; [|split; [|split; [|split; [|split]]]].
  - rewrite Nat.add_comm.
    rewrite <- (filter_split_length _ not_remove (validators s)). f_equal. f_equal.
    apply List.filter_ext. intros v. unfold not_remove. by rewrite negb_involutive.
  - intros v Hv. destruct (is_remove v) eqn:Hrem.
    + apply list_elem_of_fmap. exists v. split; [reflexivity|].
      apply list_elem_of_In, List.filter_In. split; [by apply list_elem_of_In|exact Hrem].
    + apply list_elem_of_fmap. exists v. split; [reflexivity|].
      apply list_elem_of_In, List.filter_In. split; [by apply list_elem_of_In|].
      unfold not_remove. by rewrite Hrem.
  - intros r Hr. apply list_elem_of_fmap in Hr as (v & -> & Hv).
    apply list_elem_of_In, List.filter_In in Hv as [Hin Hrem].
    exists v. split; [by apply list_elem_of_In|]. by split.
  - intros pv Hpv. apply list_elem_of_fmap in Hpv as (v & -> & Hv).
    apply list_elem_of_In, List.filter_In in Hv as [Hin Hact].
    exists v. split; [by apply list_elem_of_In|]. split; [|reflexivity].
    unfold not_remove in Hact. by destruct (is_remove v).
  - intros v Hv. apply list_elem_of_fmap. by exists v.
  - intros m Hm. apply list_elem_of_fmap in Hm as (v & -> & Hv). simpl.
    apply list_elem_of_In, List.filter_In in Hv as [Hin Hmod].
    apply andb_true_iff in Hmod as [Hact _]. split.
    + unfold target. destruct (targetBalance v); lra.
    + apply list_elem_of_fmap. exists v. split.
      * unfold target. by destruct (targetBalance v).
      * apply list_elem_of_In, List.filter_In. auto.
Qed.

(** ** The operations of the scripts *)

Lemma removeOps_total (s : EditState) :
  opsTotal (removeOps s (saveState_output s)) == removedStake s.
Proof.
  unfold opsTotal, removeOps, saveState_output. simpl.
  rewrite removedStake_spec. unfold specRemovedStake.
  rewrite !map_map. simpl. reflexivity.
Qed.

Lemma Qgtb_false_le (d : Q) : Qgtb d 0 = false -> d <= 0.
Proof. unfold Qgtb. apply Qltb_ge. Qed.

Lemma targetDiffers_false (v : ValidatorData) :
  targetDiffers v = false -> target v == activeBalance v.
Proof.
  unfold targetDiffers, target. destruct (targetBalance v) as [t|]; [|discriminate].
  intros H. apply negb_false_iff in H. by apply Qeq_bool_iff.
Qed.

Lemma decreaseOps_total (s : EditState) :
  opsTotal (decreaseOps s (saveState_output s)) == decreasedStake s.
Proof.
  unfold opsTotal, decreaseOps, saveState_output, decreasedStake. simpl.
  rewrite reduce_sum_sumQ. generalize (validators s) at 2 3. intros vs.
  induction vs as [|v vs IH]; simpl; [reflexivity|].
  unfold isModified at 1. destruct (not_remove v) eqn:Hact; simpl; [|exact IH].
  destruct (targetDiffers v) eqn:Hdiff; simpl.
  - destruct (Qltb (target v - activeBalance v) 0) eqn:Hneg; simpl.
    + apply Qltb_lt in Hneg.
      assert (Hpos : Qgtb (activeBalance v - target v) 0 = true) by (apply Qltb_lt; lra).
      rewrite Hpos, IH. change (Z.abs _ # _) with (Qabs (target v - activeBalance v)).
      rewrite Qabs_neg by lra. lra.
    + apply Qltb_ge in Hneg.
      assert (Hpos : Qgtb (activeBalance v - target v) 0 = false) by (apply Qltb_ge; lra).
      rewrite Hpos, IH. lra.
  - apply targetDiffers_false in Hdiff.
    assert (Hpos : Qgtb (activeBalance v - target v) 0 = false) by (apply Qltb_ge; lra).
    rewrite Hpos, IH. lra.
Qed.

Lemma increaseOps_total (s : EditState) :
  opsTotal (increaseOps s (saveState_output s)) ==
  increasedStake s + sumQ (map (fun v => Qmax 0 (target0 v)) (newValidators s)).
Proof.
  unfold opsTotal, increaseOps, saveState_output, increasedStake. simpl.
  rewrite reduce_sum_sumQ, map_app, sumQ_app. apply Qplus_comp.
  - generalize (validators s) at 2 3. intros vs.
    induction vs as [|v vs IH]; simpl; [reflexivity|].
    unfold isModified at 1. destruct (not_remove v) eqn:Hact; simpl; [|exact IH].
    destruct (targetDiffers v) eqn:Hdiff; simpl.
    + destruct (Qgtb (target v - activeBalance v) 0) eqn:Hpos; simpl; rewrite IH; lra.
    + apply targetDiffers_false in Hdiff.
      assert (Hpos : Qgtb (target v - activeBalance v) 0 = false) by (apply Qltb_ge; lra).
      rewrite Hpos, IH. lra.
  - generalize (newValidators s) at 2 3. intros nvs.
    induction nvs as [|v nvs IH]; simpl; [reflexivity|].
    fold (target0 v). rewrite <- (positive_part (target0 v)).
    destruct (Qgtb (target0 v) 0); simpl; rewrite IH; lra.
Qed.

Lemma sumQ_nonneg_max (A : Type) (f : A -> Q) (l : list A) :
  (forall x, x ∈ l -> 0 <= f x) ->
  sumQ (map (fun x => Qmax 0 (f x)) l) == sumQ (map f l).
Proof.
  induction l as [|x l IH]; intros H; simpl; [reflexivity|].
  rewrite IH by (intros y Hy; apply H; by apply list_elem_of_further).
  rewrite Q.max_r by apply H, list_elem_of_here. reflexivity.
Qed.

Lemma opsTotal_sums (s : EditState) :
  let output := saveState_output s in
  opsTotal (removeOps s output) == removedStake s /\
  opsTotal (decreaseOps s output) == decreasedStake s /\
  opsTotal (increaseOps s output) ==
    increasedStake s + sumQ (map (fun v => Qmax 0 (target0 v)) (newValidators s)) /\
  (forall op, op ∈ increaseOps s output ++ decreaseOps s output -> 0 < op_amount op).
Proof.
  intros output. split; [apply removeOps_total|]. split; [apply decreaseOps_total|].
  split; [apply increaseOps_total|].
  intros op Hop. apply elem_of_app in Hop as [Hop|Hop].
  - unfold increaseOps in Hop. apply elem_of_app in Hop as [Hop|Hop];
      apply list_elem_of_omap in Hop as (x & _ & Hx).
    + destruct (Qgtb (modification_change x) 0) eqn:E; [|discriminate].
      injection Hx as <-. simpl. by apply Qltb_lt in E.
    + cbv zeta in Hx.
      destruct (Qgtb match addition_targetBalance x with Some t => t | None => 0 end 0)
        eqn:E; [|discriminate].
      injection Hx as <-. simpl. by apply Qltb_lt in E.
  - unfold decreaseOps in Hop. apply list_elem_of_omap in Hop as (x & _ & Hx).
    destruct (Qltb (modification_change x) 0) eqn:E; [|discriminate].
    injection Hx as <-. simpl. apply Qltb_lt in E. rewrite Qabs_neg by lra. lra.
Qed.

(** X13. What the scripts move is what [validate] counted: the removal
    script frees the removed stake, the decrease script the decreased
    stake, and the increase script asks for the increased stake plus the
    positive targets of the proposed validators; every increase and
    decrease has a positive amount. *)
Theorem script_totals (s : EditState) :
  let output := saveState_output s in
  opsTotal (removeOps s output) == removedStake s /\
  opsTotal (decreaseOps s output) == decreasedStake s /\
  opsTotal (increaseOps s output) ==
    increasedStake s + sumQ (map (fun v => Qmax 0 (target0 v)) (newValidators s)) /\
  (forall op, op ∈ increaseOps s output ++ decreaseOps s output -> 0 < op_amount op).
Proof. exact (opsTotal_sums s). Qed.

(** X14. The scripts of a validated plan are funded: if [validate]
    accepts a state of finite amounts in which no proposed validator has
    a negative target, the stake the increase script asks for is at most
    the reserve plus what the removal and decrease scripts free, plus
    the tolerance of 0.01 and the allowance for the binary64 rounding of
    the sums [validate] compares. *)
Theorem validated_scripts_are_funded (s : EditState) :
  validate s = true ->
  (forall v, v ∈ newValidators s -> 0 <= target0 v) ->
  planMagnitude s <= MAX_MAGNITUDE ->
  let output := saveState_output s in
  opsTotal (increaseOps s output)
  <= reserveBalance s + opsTotal (removeOps s output) + opsTotal (decreaseOps s output)
     + (1 # 100) + planAllowance s.
Proof.
  intros Hv Hnn _ output. apply validate_true in Hv as [Hfund _].
  unfold output. rewrite removeOps_total, decreaseOps_total, increaseOps_total.
  rewrite (sumQ_nonneg_max _ target0 _ Hnn).
  unfold totalNeeded, availableReserve, newValidatorStake in Hfund.
  rewrite (reduce_sum_sumQ _ target0) in Hfund.
  pose proof (roundingAllowance_nonneg (length (allValidators s) + 1) _
                (planMagnitude_nonneg s)) as H.
  unfold planAllowance. lra.
Qed.

Lemma validated_scripts_are_funded_witness :
  let s := mkEditState [sampleValidator "A" 100 80 keep; sampleValidator "B" 60 0 remove]
             [sampleValidator "N" 0 90 add] "" 10 in
  opsTotal (increaseOps s (saveState_output s))
  <= reserveBalance s + opsTotal (removeOps s (saveState_output s))
     + opsTotal (decreaseOps s (saveState_output s)) + (1 # 100) + planAllowance s.
Proof.
  intros s. apply (validated_scripts_are_funded s); [reflexivity| |].
  - intros v Hv. apply list_elem_of_In in Hv. simpl in Hv.
    destruct Hv as [<-|[]]. vm_compute. discriminate.
  - vm_compute. discriminate.
Defined.

(** Without the condition on the proposed targets the conclusion fails:
    [s # AMT] accepts a negative amount, a negative proposed target
    cancels a positive one in [validate], and the increase script then
    asks for stake that nothing frees. *)
Example validated_scripts_unfunded :
  let s := mkEditState [sampleValidator "A" 100 100 keep]
             [sampleValidator "N" 0 100 add; sampleValidator "M" 0 (-100) add] "" 0 in
  validate s = true /\
  opsTotal (increaseOps s (saveState_output s)) == 100 /\
  reserveBalance s + opsTotal (removeOps s (saveState_output s))
    + opsTotal (decreaseOps s (saveState_output s)) == 0.
Proof. vm_compute. repeat split. Qed.

Lemma filter_submseteq (A : Type) (p : A -> bool) (l : list A) : List.filter p l ⊆+ l.
Proof.
  induction l as [|x l IH]; simpl; [constructor|].
  destruct (p x); [by apply submseteq_skip|by apply submseteq_cons].
Qed.

Lemma filters_submseteq (A : Type) (p q r : A -> bool) (l : list A) :
  (forall x, p x = true -> q x = false /\ r x = false) ->
  (forall x, q x = true -> r x = false) ->
  List.filter p l ++ List.filter q l ++ List.filter r l ⊆+ l.
Proof.
  intros Hp Hq. induction l as [|x l IH]; simpl; [constructor|].
  destruct (p x) eqn:Ep.
  - destruct (Hp x Ep) as [-> ->]. simpl. by apply submseteq_skip.
  - destruct (q x) eqn:Eq.
    + rewrite (Hq x Eq). simpl. rewrite <- Permutation_middle. by apply submseteq_skip.
    + destruct (r x); [|by apply submseteq_cons].
      rewrite app_assoc, <- Permutation_middle, <- app_assoc. by apply submseteq_skip.
Qed.

Lemma NoDup_of_submseteq (A : Type) (k l : list A) : k ⊆+ l -> NoDup l -> NoDup k.
Proof.
  intros Hsub Hnd. apply submseteq_Permutation in Hsub as [k' Hk'].
  rewrite Hk' in Hnd. by apply NoDup_app in Hnd as [Hk _].
Qed.

(** The identities the three scripts act on, read off the state. *)
Lemma removeOps_accounts (s : EditState) :
  map op_voteAccount (removeOps s (saveState_output s))
  = map voteAccount (List.filter is_remove (validators s)).
Proof. unfold removeOps, saveState_output. simpl. by rewrite !map_map. Qed.

Lemma increaseOps_accounts (s : EditState) :
  map op_voteAccount (increaseOps s (saveState_output s))
  = map voteAccount
      (List.filter (fun v => isModified v && Qgtb (target v - activeBalance v) 0)
         (validators s))
    ++ map voteAccount (List.filter (fun v => Qgtb (target0 v) 0) (newValidators s)).
Proof.
  unfold increaseOps, saveState_output. simpl. rewrite map_app. f_equal.
  - generalize (validators s) at 2 3. intros vs.
    induction vs as [|v vs IH]; simpl; [reflexivity|].
    destruct (isModified v); simpl; [|exact IH].
    destruct (Qgtb (target v - activeBalance v) 0); simpl; [f_equal|]; exact IH.
  - generalize (newValidators s) at 2 3. intros nvs.
    induction nvs as [|v nvs IH]; simpl; [reflexivity|].
    fold (target0 v). destruct (Qgtb (target0 v) 0); simpl; [f_equal|]; exact IH.
Qed.

Lemma decreaseOps_accounts (s : EditState) :
  map op_voteAccount (decreaseOps s (saveState_output s))
  = map voteAccount
      (List.filter (fun v => isModified v && Qltb (target v - activeBalance v) 0)
         (validators s)).
Proof.
  unfold decreaseOps, saveState_output. simpl.
  generalize (validators s) at 2 3. intros vs.
  induction vs as [|v vs IH]; simpl; [reflexivity|].
  destruct (isModified v); simpl; [|exact IH].
  destruct (Qltb (target v - activeBalance v) 0); simpl; [f_equal|]; exact IH.
Qed.

(** X15. With unique identities no validator is the subject of two
    operations: the accounts named by the removal, increase and decrease
    scripts are pairwise different. *)
Theorem script_operations_disjoint (s : EditState) :
  uniqueIdentities s ->
  let output := saveState_output s in
  NoDup (map op_voteAccount
           (removeOps s output ++ increaseOps s output ++ decreaseOps s output)).
Proof.
  intros Hnd output. unfold output.
  rewrite !map_app, removeOps_accounts, increaseOps_accounts, decreaseOps_accounts.
  set (rem := List.filter is_remove (validators s)).
  set (inc := List.filter (fun v => isModified v && Qgtb (target v - activeBalance v) 0)
                (validators s)).
  set (dec := List.filter (fun v => isModified v && Qltb (target v - activeBalance v) 0)
                (validators s)).
  set (pos := List.filter (fun v => Qgtb (target0 v) 0) (newValidators s)).
  assert (Hperm : map voteAccount rem ++ (map voteAccount inc ++ map voteAccount pos)
                    ++ map voteAccount dec
                  ≡ₚ map voteAccount ((rem ++ inc ++ dec) ++ pos)).
  { rewrite !map_app.
    rewrite <- !app_assoc. do 2 f_equiv. apply Permutation_app_comm. }
  rewrite Hperm. eapply NoDup_of_submseteq; [|exact Hnd].
  change (map voteAccount ?l) with (voteAccount <$> l).
  apply fmap_submseteq. unfold allValidators.
  apply submseteq_app; [|apply filter_submseteq].
  apply filters_submseteq.
  - intros v Hrem. unfold isModified, not_remove. rewrite Hrem. auto.
  - intros v Hinc. apply andb_true_iff in Hinc as [_ Hinc]. apply Qltb_lt in Hinc.
    apply andb_false_iff. right. apply Qltb_ge. lra.
Qed.

Lemma script_operations_disjoint_witness :
  let s := mkEditState [sampleValidator "A" 100 80 keep; sampleValidator "B" 60 0 remove;
                        sampleValidator "C" 10 20 keep]
             [sampleValidator "N" 0 90 add] "" 10 in
  NoDup (map op_voteAccount
           (removeOps s (saveState_output s) ++ increaseOps s (saveState_output s)
            ++ decreaseOps s (saveState_output s))).
Proof.
  intros s. apply (script_operations_disjoint s). compute_done.
Defined.

(** ** Amounts the scripts print *)

Lemma Math_round_of_lamports (k : Z) :
  Math_round (inject_Z k / LAMPORTS_PER_SOL * LAMPORTS_PER_SOL) = k.
Proof.
  unfold Math_round.
  assert (Hk : inject_Z k / LAMPORTS_PER_SOL * LAMPORTS_PER_SOL + (1 # 2)
               == inject_Z k + (1 # 2))
    by (unfold LAMPORTS_PER_SOL; field).
  rewrite (Qfloor_comp _ _ Hk), Qplus_comm, Qfloor_shift. reflexivity.
Qed.

Lemma aligned_iff (x : Q) :
  roundToLamports x == x <-> exists k : Z, x == inject_Z k / LAMPORTS_PER_SOL.
Proof.
  split.
  - intros H. exists (Math_round (x * LAMPORTS_PER_SOL)). symmetry. exact H.
  - intros [k Hk]. rewrite Hk at 2. rewrite (roundToLamports_proper _ _ Hk).
    unfold roundToLamports. by rewrite Math_round_of_lamports.
Qed.

Lemma aligned_minus (x y : Q) :
  roundToLamports x == x -> roundToLamports y == y -> roundToLamports (x - y) == x - y.
Proof.
  intros Hx Hy. apply aligned_iff in Hx as [a Ha]. apply aligned_iff in Hy as [b Hb].
  apply aligned_iff. exists (a - b)%Z. unfold Z.sub.
  rewrite inject_Z_plus, inject_Z_opp, Ha, Hb. unfold LAMPORTS_PER_SOL. field.
Qed.

Lemma aligned_abs (x : Q) : roundToLamports x == x -> roundToLamports (Qabs x) == Qabs x.
Proof.
  intros Hx. apply Qabs_case; intros _; [exact Hx|].
  assert (E : - x == 0 - x) by ring. rewrite (roundToLamports_proper _ _ E), E.
  apply aligned_minus; [reflexivity|exact Hx].
Qed.

(** A positive whole number of lamports is at least one lamport, and
    [toCleanSOL] prints it without loss. *)
Lemma toCleanSOL_exact (x : Q) :
  roundToLamports x == x ->
  inject_Z (toCleanSOL_lamports x) / LAMPORTS_PER_SOL == x /\
  (0 < x -> (1 <= toCleanSOL_lamports x)%Z).
Proof.
  intros Hx. split; [exact Hx|]. intros Hpos.
  unfold roundToLamports in Hx. fold (toCleanSOL_lamports x) in Hx.
  rewrite div_LAMPORTS_PER_SOL in Hx.
  assert (H : 0 < inject_Z (toCleanSOL_lamports x)) by lra.
  change 0 with (inject_Z 0) in H. rewrite <- Zlt_Qlt in H. lia.
Qed.

(** X16. On a state whose balances and targets are whole numbers of
    lamports between 0 and a million SOL, the range where lamports are
    exact, every amount of the removal, increase and decrease scripts is
    a whole number of lamports, so [toCleanSOL] prints it exactly, and
    no increase or decrease is printed as less than one lamport. *)
Theorem script_amounts_exact (s : EditState) :
  alignedBalances s -> alignedTargets s ->
  (forall v, v ∈ validators s ->
     0 <= activeBalance v <= LAMPORT_EXACT_RANGE /\ 0 <= target v <= LAMPORT_EXACT_RANGE) ->
  (forall v, v ∈ newValidators s -> 0 <= target0 v <= LAMPORT_EXACT_RANGE) ->
  let output := saveState_output s in
  (forall op, op ∈ removeOps s output ++ increaseOps s output ++ decreaseOps s output ->
     inject_Z (toCleanSOL_lamports (op_amount op)) / LAMPORTS_PER_SOL == op_amount op) /\
  (forall op, op ∈ increaseOps s output ++ decreaseOps s output ->
     (1 <= toCleanSOL_lamports (op_amount op))%Z).
Proof.
  intros Hbal [Htar Hnew] _ _ output.
  assert (Hmod : forall m, m ∈ modifications output ->
                   roundToLamports (modification_change m) == modification_change m).
  { intros m Hm. apply list_elem_of_fmap in Hm as (v & -> & Hv). simpl.
    apply list_elem_of_In, List.filter_In in Hv as [Hin _]. apply list_elem_of_In in Hin.
    apply aligned_minus; [by apply Htar|by apply Hbal]. }
  assert (Halign : forall op,
            op ∈ removeOps s output ++ increaseOps s output ++ decreaseOps s output ->
            roundToLamports (op_amount op) == op_amount op).
  { intros op Hop. apply elem_of_app in Hop as [Hop|Hop];
      [|apply elem_of_app in Hop as [Hop|Hop]].
    - apply list_elem_of_fmap in Hop as (r & -> & Hr). simpl.
      apply list_elem_of_fmap in Hr as (v & -> & Hv). simpl.
      apply list_elem_of_In, List.filter_In in Hv as [Hin _]. apply list_elem_of_In in Hin.
      by apply Hbal.
    - apply elem_of_app in Hop as [Hop|Hop];
        apply list_elem_of_omap in Hop as (x & Hx & Hop).
      + destruct (Qgtb (modification_change x) 0); [|discriminate].
        injection Hop as <-. simpl. by apply Hmod.
      + cbv zeta in Hop.
        destruct (Qgtb match addition_targetBalance x with Some t => t | None => 0 end 0);
          [|discriminate].
        injection Hop as <-. simpl.
        apply list_elem_of_fmap in Hx as (v & -> & Hv). simpl. by apply Hnew.
    - apply list_elem_of_omap in Hop as (x & Hx & Hop).
      destruct (Qltb (modification_change x) 0); [|discriminate].
      injection Hop as <-. simpl. by apply aligned_abs, Hmod. }
  split.
  - intros op Hop. by apply toCleanSOL_exact, Halign.
  - intros op Hop. apply toCleanSOL_exact.
    + apply Halign. apply elem_of_app. by right.
    + by apply (proj2 (proj2 (proj2 (opsTotal_sums s)))).
Qed.

Lemma script_amounts_exact_witness :
  let s := mkEditState [sampleValidator "A" 100 80 keep; sampleValidator "B" 60 0 remove]
             [sampleValidator "N" 0 90 add] "" 10 in
  Forall (fun op => (1 <= toCleanSOL_lamports (op_amount op))%Z)
    (increaseOps s (saveState_output s) ++ decreaseOps s (saveState_output s)).
Proof.
  intros s. apply Forall_forall.
  refine (proj2 (script_amounts_exact s _ _ _ _)).
  - intros v Hv. apply list_elem_of_In in Hv. simpl in Hv.
    destruct Hv as [<-|[<-|[]]]; reflexivity.
  - split; intros v Hv; apply list_elem_of_In in Hv; simpl in Hv.
    + destruct Hv as [<-|[<-|[]]]; reflexivity.
    + destruct Hv as [<-|[]]; reflexivity.
  - intros v Hv. apply list_elem_of_In in Hv. simpl in Hv.
    destruct Hv as [<-|[<-|[]]]; vm_compute; repeat split; discriminate.
  - intros v Hv. apply list_elem_of_In in Hv. simpl in Hv.
    destruct Hv as [<-|[]]; vm_compute; repeat split; discriminate.
Defined.

(** ** The table of validators *)

Lemma insert_sorted_perm (A : Type) (cmp : A -> A -> Q) (a : A) (l : list A) :
  insert_sorted cmp a l ≡ₚ a :: l.
Proof.
  induction l as [|b l IH]; simpl; [reflexivity|].
  destruct (Qltb (cmp b a) 0); [|reflexivity]. rewrite IH. apply Permutation_swap.
Qed.

Lemma js_sort_perm (A : Type) (cmp : A -> A -> Q) (l : list A) : js_sort cmp l ≡ₚ l.
Proof.
  induction l as [|a l IH]; simpl; [reflexivity|].
  rewrite insert_sorted_perm. by constructor.
Qed.

(** A stable sort by a numeric key: the result is ordered by key, and
    elements with equal keys keep the order they had. *)
Lemma js_sort_stable (A : Type) (key : A -> Q) (before : A -> A -> Prop) (l : list A) :
  StronglySorted before l ->
  StronglySorted (fun a b => key a < key b \/ (key a == key b /\ before a b))
    (js_sort (fun a b => key a - key b) l).
Proof.
  induction l as [|a l IH]; intros Hl; simpl; [constructor|].
  apply StronglySorted_cons in Hl as [Ha Hl]. specialize (IH Hl).
  rewrite <- (js_sort_perm _ (fun a b => key a - key b) l) in Ha.
  revert IH Ha. generalize (js_sort (fun a b => key a - key b) l). clear l Hl.
  intros l. induction l as [|b l IH]; intros Hsorted Hlt; simpl.
  - repeat constructor.
  - apply StronglySorted_cons in Hsorted as [Hb Hl].
    apply Forall_cons in Hlt as [Hab Hal].
    destruct (Qltb (key b - key a) 0) eqn:E.
    + apply Qltb_lt in E. constructor; [by apply IH|].
      rewrite insert_sorted_perm. constructor; [left; lra|exact Hb].
    + apply Qltb_ge in E. constructor; [by constructor|].
      constructor.
      * destruct (Qlt_le_dec (key a) (key b)) as [Hlt|Hge]; [by left|right].
        split; [lra|exact Hab].
      * apply Forall_forall. intros x Hx.
        pose proof (proj1 (Forall_forall _ _) Hb x Hx) as Hbx.
        pose proof (proj1 (Forall_forall _ _) Hal x Hx) as Hax.
        destruct (Qlt_le_dec (key a) (key x)) as [Hlt|Hge]; [by left|].
        right. split; [|exact Hax]. destruct Hbx as [Hbx|[Hbx _]]; lra.
Qed.

Lemma unsortedRows_lookup (s : EditState) (i : nat) :
  unsortedRows s !! i
  = (fun v => mkRow v i (bool_decide (length (validators s) <= i)%nat)) <$> allValidators s !! i.
Proof.
  unfold unsortedRows, allValidators.
  destruct (decide (i < length (validators s))%nat) as [Hlt|Hge].
  - rewrite !lookup_app_l by (rewrite ?length_imap; lia).
    rewrite list_lookup_imap. rewrite bool_decide_eq_false_2 by lia. reflexivity.
  - rewrite !lookup_app_r by (rewrite ?length_imap; lia).
    rewrite length_imap, list_lookup_imap. rewrite bool_decide_eq_true_2 by lia.
    replace (length (validators s) + (i - length (validators s)))%nat with i by lia.
    reflexivity.
Qed.

Lemma unsortedRows_indices (s : EditState) :
  map row_index (unsortedRows s) = seq 0 (length (allValidators s)).
Proof.
  apply list_eq. intros i. change (map row_index ?l) with (row_index <$> l).
  rewrite list_lookup_fmap, unsortedRows_lookup.
  destruct (allValidators s !! i) as [v|] eqn:Hv; simpl.
  - symmetry. apply lookup_seq_lt. by eapply lookup_lt_Some.
  - symmetry. apply lookup_seq_ge. by apply lookup_ge_None.
Qed.

Lemma unsortedRows_increasing (s : EditState) :
  StronglySorted (fun a b => (row_index a < row_index b)%nat) (unsortedRows s).
Proof.
  assert (H : forall (l : list Row), StronglySorted lt (map row_index l) ->
              StronglySorted (fun a b => (row_index a < row_index b)%nat) l).
  { induction l as [|r l IH]; simpl; intros Hl; [constructor|].
    apply StronglySorted_cons in Hl as [Hr Hl]. constructor; [by apply IH|].
    apply Forall_forall. intros x Hx.
    apply (proj1 (Forall_forall _ _) Hr). apply list_elem_of_fmap. eauto. }
  apply H. rewrite unsortedRows_indices. generalize 0%nat (length (allValidators s)).
  intros k n. revert k. induction n as [|n IH]; intros k; simpl; [constructor|].
  constructor; [apply IH|]. apply Forall_forall. intros x Hx.
  apply list_elem_of_In, in_seq in Hx. lia.
Qed.

Lemma setTarget_ok (s : EditState) (i : nat) (v : ValidatorData) (a : Q) :
  allValidators s !! i = Some v ->
  setTarget s (Z.of_nat i) (Some a) = (replaceAt s i (set_targetBalance a v), None).
Proof.
  intros H. at_position H.
  - unfold setTarget. rewrite Hv, Nat2Z.id. by rewrite replaceAt_existing.
  - unfold setTarget. rewrite Hnone, Hrange, Hv, Hidx, Nat2Z.id. by rewrite replaceAt_new.
Qed.

(** X17. The table lists every validator, existing and proposed, exactly
    once, and the number in its first column is the number the commands
    take: typing [s N AMT] with the number [N] of a row sets the target of
    the very record that row shows. *)
Theorem table_numbers_select_rows (s : EditState) :
  map row_index (printValidatorList_rows s) ≡ₚ seq 0 (length (allValidators s)) /\
  (forall r, r ∈ printValidatorList_rows s ->
     allValidators s !! row_index r = Some (row_validator r) /\
     row_isNew r = bool_decide (length (validators s) <= row_index r)%nat /\
     forall a, setTarget s (row_number r - 1) (Some a)
               = (replaceAt s (row_index r) (set_targetBalance a (row_validator r)), None)).
Proof.
  split.
  - unfold printValidatorList_rows. rewrite js_sort_perm. by rewrite unsortedRows_indices.
  - intros r Hr. unfold printValidatorList_rows in Hr. rewrite js_sort_perm in Hr.
    apply list_elem_of_lookup in Hr as [i Hi]. rewrite unsortedRows_lookup in Hi.
    destruct (allValidators s !! i) as [v|] eqn:Hv; [|discriminate].
    injection Hi as <-. simpl. split; [exact Hv|]. split; [reflexivity|].
    intros a. unfold row_number. simpl.
    replace (Z.of_nat i + 1 - 1)%Z with (Z.of_nat i) by lia. by apply setTarget_ok.
Qed.

(** X18. The table is sorted by target, lowest first, and rows with equal
    targets stand in the order of their numbers. *)
Theorem table_sorted (s : EditState) :
  StronglySorted rowBefore (printValidatorList_rows s).
Proof.
  unfold printValidatorList_rows.
  apply (js_sort_stable Row (fun r => target (row_validator r))
           (fun a b => (row_index a < row_index b)%nat)).
  apply unsortedRows_increasing.
Qed.

Lemma filter_length_perm (A : Type) (p : A -> bool) (l k : list A) :
  l ≡ₚ k -> length (List.filter p l) = length (List.filter p k).
Proof.
  induction 1 as [|x l k _ IH|x y l|l k m _ IH1 _ IH2]; simpl.
  - reflexivity.
  - destruct (p x); simpl; by rewrite IH.
  - destruct (p x), (p y); reflexivity.
  - by rewrite IH1.
Qed.

Lemma filter_length_imap (A B : Type) (f : nat -> A -> B) (p : B -> bool) (q : A -> bool)
    (l : list A) :
  (forall i v, p (f i v) = q v) ->
  length (List.filter p (imap f l)) = length (List.filter q l).
Proof.
  revert f. induction l as [|v l IH]; intros f H; [reflexivity|].
  rewrite imap_cons. cbn [List.filter]. rewrite H.
  destruct (q v); cbn [length]; [f_equal|]; apply IH; intros i w; apply H.
Qed.

Lemma filter_length_none (A : Type) (p : A -> bool) (l : list A) :
  (forall x, x ∈ l -> p x = false) -> length (List.filter p l) = 0%nat.
Proof.
  induction l as [|x l IH]; intros H; simpl; [reflexivity|].
  rewrite (H x) by apply list_elem_of_here.
  apply IH. intros y Hy. apply H. by apply list_elem_of_further.
Qed.

Lemma filter_length_all (A : Type) (p : A -> bool) (l : list A) :
  (forall x, x ∈ l -> p x = true) -> length (List.filter p l) = length l.
Proof.
  induction l as [|x l IH]; intros H; simpl; [reflexivity|].
  rewrite (H x) by apply list_elem_of_here. simpl. f_equal.
  apply IH. intros y Hy. apply H. by apply list_elem_of_further.
Qed.

(** X19. The table and the saved plan agree: on a state whose proposed
    validators carry the action [add], the rows shown as REMOVE, NEW and
    MODIFY are as many as the plan's summary counts as to remove, to add
    and to modify. *)
Theorem table_matches_plan (s : EditState) :
  proposedAreAdd s ->
  let rows := printValidatorList_rows s in
  let counts := summary (saveState_output s) in
  rowsShowing REMOVE rows = toRemove counts /\
  rowsShowing NEW rows = toAdd counts /\
  rowsShowing MODIFY rows = toModify counts.
Proof.
  intros Hwf rows counts. unfold rows, counts, rowsShowing, printValidatorList_rows.
  rewrite !(filter_length_perm _ _ _ _ (js_sort_perm _ _ _)).
  unfold unsortedRows. rewrite !List.filter_app, !length_app. simpl.
  assert (Hnew : forall v, v ∈ newValidators s -> is_remove v = false).
  { intros v Hv. unfold is_remove. by rewrite (Hwf v Hv). }
  split; [|split].
  - rewrite (filter_length_imap _ _ _ _ is_remove).
    + rewrite (filter_length_imap _ _ _ _ is_remove).
      * rewrite (filter_length_none _ _ _ Hnew). lia.
      * intros i v. unfold actionText. simpl. by destruct (is_remove v).
    + intros i v. unfold actionText. simpl.
      destruct (is_remove v); [reflexivity|]. by destruct (targetDiffers v).
  - rewrite (filter_length_imap _ _ _ _ (fun _ => false)).
    + rewrite (filter_length_imap _ _ _ _ not_remove).
      * rewrite (filter_length_none _ (fun _ => false)) by done.
        rewrite filter_length_all; [reflexivity|].
        intros v Hv. unfold not_remove. by rewrite (Hnew v Hv).
      * intros i v. unfold actionText, not_remove. simpl. by destruct (is_remove v).
    + intros i v. unfold actionText. simpl.
      destruct (is_remove v); [reflexivity|]. by destruct (targetDiffers v).
  - rewrite (filter_length_imap _ _ _ _ isModified).
    + rewrite (filter_length_imap _ _ _ _ (fun _ => false)).
      * rewrite (filter_length_none _ (fun _ => false)) by done. lia.
      * intros i v. unfold actionText. simpl. by destruct (is_remove v).
    + intros i v. unfold actionText, isModified, not_remove. simpl.
      destruct (is_remove v); [reflexivity|]. by destruct (targetDiffers v).
Qed.

Lemma table_matches_plan_witness :
  let s := mkEditState [sampleValidator "A" 100 80 keep; sampleValidator "B" 60 0 remove;
                        sampleValidator "C" 10 10 keep]
             [sampleValidator "N" 0 90 add] "" 10 in
  rowsShowing MODIFY (printValidatorList_rows s) = 1%nat.
Proof.
  intros s.
  refine (proj2 (proj2 (table_matches_plan s _))).
  intros v Hv. apply list_elem_of_In in Hv. simpl in Hv.
  destruct Hv as [<-|[]]. reflexivity.
Defined.

(** ** The command [s] *)

(** X20. [s # AMT] stores the amount as it is, without rounding, in the
    record at that position of the combined list and changes nothing
    else; with an amount that is not a number it changes nothing; and,
    unlike [r], [+] and [-], it never prints a line, whatever the
    position and the amount. *)
Theorem setTarget_contract (s : EditState) :
  (forall i v a, allValidators s !! i = Some v ->
     setTarget s (Z.of_nat i) (Some a) = (replaceAt s i (set_targetBalance a v), None)) /\
  (forall idx, setTarget s idx None = (s, None)) /\
  (forall idx amount, (setTarget s idx amount).2 = None) /\
  (forall idx amount, outsideCombinedRange s idx -> (setTarget s idx amount).1 = s).
Proof.
  split; [intros i v a; apply setTarget_ok|]. split; [|split].
  - intros idx. unfold setTarget.
    destruct (validAt (validators s) idx); simpl; by destruct (inNewRange s idx).
  - intros idx amount. unfold setTarget. command_cases; reflexivity.
  - intros idx amount Hout. destruct (outside_not_found s idx Hout) as [Hnone Hrange].
    unfold setTarget. rewrite Hnone, Hrange. by destruct amount.
Qed.

(** ** The header *)

Lemma reduce_sum_map (A : Type) (f : A -> Q) (l : list A) :
  reduce_sum f l = fold_left Qplus (map f l) 0.
Proof.
  unfold reduce_sum. generalize 0. induction l as [|x l IH]; intros a; simpl; [reflexivity|].
  apply IH.
Qed.

(** X21. The lines "Active Stake", "Transient Stake", "Current Reserve"
    and "Pool Total" of the header show the same figures after every
    command; only the target and reserve-allocation lines move.  The
    counts of the summary line add up to the number of records. *)
Theorem header_fixed_lines (s : EditState) (c : Command) :
  let before := printHeader_figures s in
  let after := printHeader_figures (step s c).1 in
  header_totalCurrent after = header_totalCurrent before /\
  header_totalTransient after = header_totalTransient before /\
  header_totalPoolStake after = header_totalPoolStake before /\
  reserveBalance (step s c).1 = reserveBalance s /\
  (header_activeCount after + header_removeCount after)%nat
    = length (allValidators (step s c).1) /\
  header_stakeDiff after == header_totalWithNew after - header_totalCurrent before.
Proof.
  intros before after. destruct (step_frame s c) as (Hr & _ & Hv & _).
  assert (Hcur : map activeBalance (validators (step s c).1) = map activeBalance (validators s)).
  { change activeBalance with (fun v => (fixedFields v).1.1.1.1.2).
    rewrite <- !(map_map fixedFields (fun t => t.1.1.1.1.2)). by rewrite Hv. }
  assert (Htr : map transientBalance (validators (step s c).1)
                = map transientBalance (validators s)).
  { change transientBalance with (fun v => (fixedFields v).1.2).
    rewrite <- !(map_map fixedFields (fun t => t.1.2)). by rewrite Hv. }
  unfold after, before, printHeader_figures. simpl.
  rewrite !reduce_sum_map, Hcur, Htr, Hr.
  split; [reflexivity|]. split; [reflexivity|]. split; [reflexivity|].
  split; [reflexivity|]. split; [|reflexivity].
  unfold allValidators. rewrite length_app.
  rewrite <- (filter_split_length _ not_remove (validators (step s c).1)).
  assert (E : List.filter (fun x => negb (not_remove x)) (validators (step s c).1)
              = List.filter is_remove (validators (step s c).1)).
  { apply List.filter_ext. intros v. unfold not_remove. apply negb_involutive. }
  rewrite E. lia.
Qed.

(** ** Short names and addresses *)

Lemma string_length_append (a b : string) :
  String.length (String.append a b) = (String.length a + String.length b)%nat.
Proof. induction a as [|c a IH]; simpl; [reflexivity|]. by rewrite IH. Qed.

Lemma string_length_substring (n m : nat) (s : string) :
  String.length (String.substring n m s) = Nat.min m (String.length s - n).
Proof.
  revert n m. induction s as [|c s IH]; intros n m.
  - destruct n, m; simpl; lia.
  - destruct n as [|n]; simpl.
    + destruct m as [|m]; simpl; [reflexivity|]. rewrite IH. lia.
    + apply IH.
Qed.

Lemma string_length_spaces (n : nat) : String.length (spaces n) = n.
Proof. induction n as [|n IH]; [reflexivity|]. simpl. f_equal. exact IH. Qed.

Lemma padEnd_length (str : string) (maxLength : Z) :
  String.length (padEnd str maxLength) = Nat.max (String.length str) (Z.to_nat maxLength).
Proof.
  unfold padEnd. rewrite string_length_append, string_length_spaces. lia.
Qed.

Lemma substring_append_l (a b : string) :
  String.substring 0 (String.length a) (String.append a b) = a.
Proof. induction a as [|c a IH]; simpl; [by destruct b|]. by rewrite IH. Qed.

Lemma js_index_nonneg (len : nat) (i : Z) :
  (0 <= i)%Z -> js_index len i = Nat.min (Z.to_nat i) len.
Proof.
  intros H. unfold js_index. destruct (i <? 0)%Z eqn:E; [|reflexivity].
  apply Z.ltb_lt in E. lia.
Qed.

Lemma js_index_neg (len : nat) (i : Z) :
  (i < 0)%Z -> js_index len i = (len - Z.to_nat (- i))%nat.
Proof.
  intros H. unfold js_index. destruct (i <? 0)%Z eqn:E; [lia|].
  apply Z.ltb_ge in E. lia.
Qed.

(** X22. [shortName] fills its column exactly: for a width of at least 7
    the result has that width whatever the name, missing, empty, short
    or long; a name that fits is shown in full, and a longer one keeps
    its first [maxLen - 2] characters before the two dots. *)
Theorem shortName_width (name : option string) (maxLen : Z) :
  (7 <= maxLen)%Z ->
  Z.of_nat (String.length (shortName name maxLen)) = maxLen /\
  (forall n, name = Some n -> (Z.of_nat (String.length n) <= maxLen)%Z -> n <> EmptyString ->
     String.substring 0 (String.length n) (shortName name maxLen) = n) /\
  (forall n, name = Some n -> (maxLen < Z.of_nat (String.length n))%Z ->
     shortName name maxLen
     = String.append (String.substring 0 (Z.to_nat (maxLen - 2)) n) "..").
Proof.
  intros Hw. split; [|split].
  - unfold shortName. destruct name as [[|c n]|].
    + rewrite padEnd_length. simpl. lia.
    + destruct (Z.of_nat (String.length (String c n)) <=? maxLen)%Z eqn:E.
      * apply Z.leb_le in E. rewrite padEnd_length. lia.
      * apply Z.leb_gt in E. rewrite string_length_append. unfold js_slice.
        rewrite string_length_substring, !js_index_nonneg by lia.
        simpl String.length in *. lia.
    + rewrite padEnd_length. simpl. lia.
  - intros n -> Hfit Hne. unfold shortName. destruct n as [|c n]; [done|].
    apply Z.leb_le in Hfit. rewrite Hfit. unfold padEnd. apply substring_append_l.
  - intros n -> Hlong. unfold shortName. destruct n as [|c n]; [simpl in Hlong; lia|].
    apply Z.leb_gt in Hlong. rewrite Hlong. f_equal. unfold js_slice.
    rewrite !js_index_nonneg by lia.
    apply Z.leb_gt in Hlong. f_equal. simpl String.length in *. lia.
Qed.

Lemma shortName_width_witness :
  Z.of_nat (String.length (shortName (Some "A validator with a long name") 20)) = 20%Z /\
  Z.of_nat (String.length (shortName None 20)) = 20%Z.
Proof.
  split.
  - apply (shortName_width (Some "A validator with a long name") 20). lia.
  - apply (shortName_width None 20). lia.
Defined.

(** X23. [shortAddress] keeps the first eight and the last four
    characters around three dots: an address of eight characters or more
    is shown in exactly 15, and no address in more. *)
Theorem shortAddress_length (addr : string) :
  String.length (shortAddress addr)
    = (Nat.min 8 (String.length addr) + 3 + Nat.min 4 (String.length addr))%nat /\
  (String.length (shortAddress addr) <= 15)%nat /\
  ((8 <= String.length addr)%nat ->
   shortAddress addr
   = String.append (String.substring 0 8 addr)
       (String.append "..." (String.substring (String.length addr - 4) 4 addr))).
Proof.
  assert (Hlen : String.length (shortAddress addr)
                 = (Nat.min 8 (String.length addr) + 3 + Nat.min 4 (String.length addr))%nat).
  { unfold shortAddress, js_slice.
    rewrite !js_index_nonneg, js_index_neg by lia.
    rewrite !string_length_append, !string_length_substring. simpl String.length. lia. }
  split; [exact Hlen|]. split; [lia|].
  intros H8. unfold shortAddress, js_slice.
  rewrite !js_index_nonneg, js_index_neg by lia.
  replace (Nat.min (Z.to_nat 8) (String.length addr) - Nat.min (Z.to_nat 0) (String.length addr))%nat
    with 8%nat by lia.
  replace (Nat.min (Z.to_nat 0) (String.length addr)) with 0%nat by lia.
  replace (String.length addr - Z.to_nat (- -4))%nat
    with (String.length addr - 4)%nat by lia.
  replace (String.length addr - (String.length addr - 4))%nat with 4%nat by lia.
  reflexivity.
Qed.

Lemma shortAddress_length_witness :
  shortAddress "DpooSqZRL3qCmiq82YyB4zWmLfH3iEqx2gy8f2B6zjru" = "DpooSqZR...zjru".
Proof.
  rewrite (proj2 (proj2 (shortAddress_length
             "DpooSqZRL3qCmiq82YyB4zWmLfH3iEqx2gy8f2B6zjru"))); [reflexivity|].
  simpl. lia.
Defined.

(** ** Validating a vote account *)

Lemma validateVoteAccount_catch_invalid (input msg : string) :
  valid (validateVoteAccount_catch input msg) = false /\
  checkedVoteAccount (validateVoteAccount_catch input msg) = input /\
  checkError (validateVoteAccount_catch input msg) <> None.
Proof.
  unfold validateVoteAccount_catch.
  destruct (includes "invalid" msg || includes "decode" msg); simpl; auto.
Qed.

Lemma find_none_iff (A : Type) (p : A -> bool) (l : list A) :
  List.find p l = None <-> forall x, x ∈ l -> p x = false.
Proof.
  split.
  - intros H x Hx. apply list_elem_of_In in Hx. by eapply List.find_none.
  - intros H. induction l as [|x l IH]; simpl; [reflexivity|].
    rewrite (H x) by apply list_elem_of_here.
    apply IH. intros y Hy. apply H. by apply list_elem_of_further.
Qed.

Lemma validateVoteAccount_cases (input : string) (chain : ChainAnswers) :
  let result := validateVoteAccount input chain in
  (valid result = true <->
   exists u current delinquent a,
     parsedKey chain = Returned u /\
     voteAccounts chain = Returned (current, delinquent) /\
     a ∈ current ++ delinquent /\
     (votePubkey a = input \/ nodePubkey a = input)) /\
  (valid result = true ->
   checkError result = None /\
   exists current delinquent a,
     voteAccounts chain = Returned (current, delinquent) /\
     a ∈ current ++ delinquent /\
     checkedVoteAccount result = votePubkey a /\
     (input = votePubkey a \/ input = nodePubkey a)) /\
  (forall current delinquent a,
     voteAccounts chain = Returned (current, delinquent) ->
     a ∈ current ++ delinquent -> votePubkey a = input ->
     valid result = true -> checkedVoteAccount result = input) /\
  (valid result = false ->
   checkedVoteAccount result = input /\ checkError result <> None).
Proof.
  intros result. unfold result, validateVoteAccount.
  destruct (parsedKey chain) as [u|msg].
  2:{ destruct (validateVoteAccount_catch_invalid input msg) as (Hv & Hc & He).
      rewrite Hv, Hc. split; [|split; [|split]]; try done.
      split; [done|]. intros (? & ? & ? & ? & [=] & _). }
  destruct (voteAccounts chain) as [[current delinquent]|msg].
  2:{ destruct (validateVoteAccount_catch_invalid input msg) as (Hv & Hc & He).
      rewrite Hv, Hc. split; [|split; [|split]]; try done.
      split; [done|]. intros (? & ? & ? & ? & _ & [=] & _). }
  cbv zeta.
  destruct (List.find (fun a => String.eqb (votePubkey a) input) (current ++ delinquent))
    as [a|] eqn:Hvote.
  { apply List.find_some in Hvote as [Hin Ha]. apply String.eqb_eq in Ha.
    apply list_elem_of_In in Hin. simpl. split; [|split; [|split]]; try done.
    - split; [|done]. intros _. exists u, current, delinquent, a. auto.
    - intros _. split; [reflexivity|]. exists current, delinquent, a. auto. }
  pose proof (proj1 (find_none_iff _ _ _) Hvote) as Hnovote.
  destruct (List.find (fun a => String.eqb (nodePubkey a) input) (current ++ delinquent))
    as [a|] eqn:Hnode.
  { apply List.find_some in Hnode as [Hin Ha]. apply String.eqb_eq in Ha.
    apply list_elem_of_In in Hin. simpl. split; [|split; [|split]]; try done.
    - split; [|done]. intros _. exists u, current, delinquent, a. auto.
    - intros _. split; [reflexivity|]. exists current, delinquent, a. auto.
    - intros c d b [= <- <-] Hb Hbv _. specialize (Hnovote b Hb). simpl in Hnovote.
      apply String.eqb_neq in Hnovote. done. }
  pose proof (proj1 (find_none_iff _ _ _) Hnode) as Hnonode.
  assert (Hnot : ~ exists u' c d a, Returned u = Returned u' /\
                   Returned (current, delinquent) = Returned (c, d) /\
                   a ∈ c ++ d /\ (votePubkey a = input \/ nodePubkey a = input)).
  { intros (u' & c & d & a & _ & [= <- <-] & Ha & [Hv|Hn]).
    - specialize (Hnovote a Ha). simpl in Hnovote. apply String.eqb_neq in Hnovote. done.
    - specialize (Hnonode a Ha). simpl in Hnonode. apply String.eqb_neq in Hnonode. done. }
  destruct (accountOwner chain) as [[owner|]|msg].
  - destruct (String.eqb owner VOTE_PROGRAM_ID);
      [|destruct (String.eqb owner SYSTEM_PROGRAM_ID)]; simpl;
      (split; [split; [done|intros H; by destruct (Hnot H)]|]);
      (split; [done|]); (split; [done|]); done.
  - simpl. split; [split; [done|intros H; by destruct (Hnot H)]|].
    split; [done|]. split; done.
  - destruct (validateVoteAccount_catch_invalid input msg) as (Hv & Hc & He).
    rewrite Hv, Hc. split; [split; [done|intros H; by destruct (Hnot H)]|].
    split; [done|]. split; done.
Qed.

(** X24. [validateVoteAccount] accepts an address exactly when the key
    parses, the list of vote accounts arrives, and the address is the
    vote key or the node key of a listed account, current or delinquent.
    What it hands back is then always a listed vote key: the address
    itself if it is one, otherwise the vote key of the first account it
    is the node of.  In every other case it answers invalid, echoes the
    address and gives an error text. *)
Theorem validateVoteAccount_accepts_listed (input : string) (chain : ChainAnswers) :
  let result := validateVoteAccount input chain in
  (valid result = true <->
   exists u current delinquent a,
     parsedKey chain = Returned u /\
     voteAccounts chain = Returned (current, delinquent) /\
     a ∈ current ++ delinquent /\
     (votePubkey a = input \/ nodePubkey a = input)) /\
  (valid result = true ->
   checkError result = None /\
   exists current delinquent a,
     voteAccounts chain = Returned (current, delinquent) /\
     a ∈ current ++ delinquent /\
     checkedVoteAccount result = votePubkey a /\
     (input = votePubkey a \/ input = nodePubkey a)) /\
  (forall current delinquent a,
     voteAccounts chain = Returned (current, delinquent) ->
     a ∈ current ++ delinquent -> votePubkey a = input ->
     valid result = true -> checkedVoteAccount result = input) /\
  (valid result = false ->
   checkedVoteAccount result = input /\ checkError result <> None).
Proof. exact (validateVoteAccount_cases input chain). Qed.

(** X25. Whatever is typed after [a], the record that ends up among the
    proposed validators carries a vote key from the chain's list of vote
    accounts, current or delinquent; a node identity is stored as the
    vote key of its account. *)
Theorem added_validator_is_listed (s s' : EditState) (vote : string)
    (chain : ChainAnswers) (validatorName : option string) :
  addValidatorFromChain s vote chain validatorName = (s', Some Added) ->
  exists current delinquent a,
    voteAccounts chain = Returned (current, delinquent) /\
    a ∈ current ++ delinquent /\
    (vote = votePubkey a \/ vote = nodePubkey a) /\
    newValidators s' = newValidators s ++ [newValidator (votePubkey a) validatorName] /\
    validators s' = validators s.
Proof.
  unfold addValidatorFromChain. intros Hadd.
  apply addValidator_added in Hadd as (_ & Hvalid & _ & ->).
  destruct (validateVoteAccount_cases vote chain) as (_ & Hok & _).
  destruct (Hok Hvalid) as (_ & current & delinquent & a & Hlist & Ha & Hkey & Hin).
  exists current, delinquent, a. simpl. rewrite Hkey. auto.
Qed.

Lemma added_validator_is_listed_witness :
  let s := mkEditState [sampleValidator "A" 1000 1000 keep] [] "" 0 in
  let chain := mkChainAnswers (Returned tt)
                 (Returned ([mkVoteAccountInfo "V1" "node1"],
                            [mkVoteAccountInfo "V2" "node2"]))
                 (Returned None) in
  exists current delinquent a,
    voteAccounts chain = Returned (current, delinquent) /\
    a ∈ current ++ delinquent /\
    ("node2" = votePubkey a \/ "node2" = nodePubkey a) /\
    newValidators (addValidatorFromChain s "node2" chain None).1
      = newValidators s ++ [newValidator (votePubkey a) None] /\
    validators (addValidatorFromChain s "node2" chain None).1 = validators s.
Proof.
  intros s chain.
  exact (added_validator_is_listed s _ "node2" chain None eq_refl).
Defined.

(** ** What the fetcher writes *)

Lemma lamportsToSol_sign (lamports : N) :
  0 <= lamportsToSol lamports /\
  (lamports <> 0%N -> 0 < lamportsToSol lamports).
Proof.
  unfold lamportsToSol. rewrite div_LAMPORTS_PER_SOL.
  assert (H : inject_Z 0 <= inject_Z (Z.of_N lamports)) by (rewrite <- Zle_Qle; lia).
  change (inject_Z 0) with 0 in H. split.
  - revert H. generalize (inject_Z (Z.of_N lamports)). intros k H. lra.
  - intros Hne.
    assert (H1 : inject_Z 0 < inject_Z (Z.of_N lamports)) by (rewrite <- Zlt_Qlt; lia).
    change (inject_Z 0) with 0 in H1. revert H1.
    generalize (inject_Z (Z.of_N lamports)). intros k H1. lra.
Qed.

(** X26. [dumpPoolValidatorData] returns only when every call it awaits
    has succeeded: the pool account, the balance of the reserve, the
    account of the validator list, its decoding and the writing of the
    file.  Otherwise it ends with the error of the first call that
    failed, in that order, or with 'ValidatorList account not found on
    chain' when that account is missing.  What it returns, and has then
    written, is the reserve with a non-negative balance and exactly the
    validators of the list that hold some stake, active or transient, in
    the order of the list; an entry with no stake at all is left out,
    and of every written validator one of the two balances is positive. *)
Theorem fetched_data_has_stake (derive : string -> string)
    (deriveTransient : string -> N -> string) (names : string -> option string)
    (answers : FetchAnswers) :
  match dumpPoolValidatorData derive deriveTransient names answers with
  | Returned poolData =>
      exists reserveStake lamports validators,
        stakePoolReserve answers = Returned reserveStake /\
        reserveLamports answers = Returned lamports /\
        validatorListAccount answers = Returned (Some (Returned validators)) /\
        fileWritten answers = Returned tt /\
        fetched_reserveAccount poolData = reserveStake /\
        fetched_reserveBalance poolData = lamportsToSol lamports /\
        0 <= fetched_reserveBalance poolData /\
        map fetched_voteAccount (fetched_validators poolData)
          = map voteAccountAddress
              (List.filter (fun e => negb (N.eqb (activeStakeLamports e) 0
                                           && N.eqb (transientStakeLamports e) 0))
                 validators) /\
        forall v, v ∈ fetched_validators poolData ->
          0 <= fetched_activeBalance v /\ 0 <= fetched_transientBalance v /\
          (0 < fetched_activeBalance v \/ 0 < fetched_transientBalance v)
  | Threw msg =>
      stakePoolReserve answers = Threw msg \/
      (exists reserveStake, stakePoolReserve answers = Returned reserveStake /\
       (reserveLamports answers = Threw msg \/
        (exists lamports, reserveLamports answers = Returned lamports /\
         (validatorListAccount answers = Threw msg \/
          (validatorListAccount answers = Returned None /\
           msg = "ValidatorList account not found on chain") \/
          validatorListAccount answers = Returned (Some (Threw msg)) \/
          (exists validators,
             validatorListAccount answers = Returned (Some (Returned validators)) /\
             fileWritten answers = Threw msg)))))
  end.
Proof.
  unfold dumpPoolValidatorData.
  destruct (stakePoolReserve answers) as [reserveStake|m1]; [|by left].
  destruct (reserveLamports answers) as [lamports|m2];
    [|right; exists reserveStake; split; [reflexivity|by left]].
  destruct (validatorListAccount answers) as [[[validators|m4]|]|m3].
  - destruct (fileWritten answers) as [[]|m5].
    + exists reserveStake, lamports, validators. cbn [fetched_reserveAccount
        fetched_reserveBalance fetched_validators].
      destruct (lamportsToSol_sign lamports) as [Hr0 _].
      do 6 (split; [reflexivity || exact Hr0|]). split; [exact Hr0|]. split.
      * unfold collectValidators. induction validators as [|e l IH]; simpl; [reflexivity|].
        destruct (N.eqb (activeStakeLamports e) 0 && N.eqb (transientStakeLamports e) 0);
          simpl; [exact IH|]. f_equal. exact IH.
      * intros v Hv. unfold collectValidators in Hv.
        apply list_elem_of_omap in Hv as (e & _ & He). cbv zeta in He.
        destruct (N.eqb (activeStakeLamports e) 0 && N.eqb (transientStakeLamports e) 0)
          eqn:Hzero; [discriminate|].
        injection He as <-. simpl.
        destruct (lamportsToSol_sign (activeStakeLamports e)) as [Ha0 Ha1].
        destruct (lamportsToSol_sign (transientStakeLamports e)) as [Ht0 Ht1].
        split; [exact Ha0|]. split; [exact Ht0|].
        apply andb_false_iff in Hzero as [Hz|Hz]; apply N.eqb_neq in Hz; auto.
    + right. exists reserveStake. split; [reflexivity|]. right.
      exists lamports. split; [reflexivity|]. do 3 right. by exists validators.
  - right. exists reserveStake. split; [reflexivity|]. right.
    exists lamports. split; [reflexivity|]. right. right. by left.
  - right. exists reserveStake. split; [reflexivity|]. right.
    exists lamports. split; [reflexivity|]. right. by left.
  - right. exists reserveStake. split; [reflexivity|]. right.
    exists lamports. split; [reflexivity|]. by left.
Qed.

(** ** What the logger prints *)

(** X27. The logger prints a message exactly when its level is not below
    the configured one, so errors are printed under every recognised
    setting and a level above a printed one is printed too; with
    [LOG_LEVEL] unset or empty the threshold is [info] and [debug] is
    silent; and with a [LOG_LEVEL] that is not one of the four names
    nothing is filtered: every message is printed, [debug] included. *)
Theorem logger_threshold (env : option string) :
  (forall current, LOG_LEVEL_ORDER_of (CURRENT_LEVEL env) = Some current ->
     forall level, log_prints env level = true <-> (current <= LOG_LEVEL_ORDER level)%Z) /\
  log_prints env error = true /\
  (forall low high, (LOG_LEVEL_ORDER low <= LOG_LEVEL_ORDER high)%Z ->
     log_prints env low = true -> log_prints env high = true) /\
  (env = None \/ env = Some EmptyString ->
     log_prints env debug = false /\ log_prints env info = true) /\
  (LOG_LEVEL_ORDER_of (CURRENT_LEVEL env) = None ->
     forall level, log_prints env level = true).
Proof.
  split; [|split; [|split; [|split]]].
  - intros current Hc level. unfold log_prints. rewrite Hc.
    rewrite negb_true_iff, Z.ltb_ge. reflexivity.
  - unfold log_prints. destruct (LOG_LEVEL_ORDER_of (CURRENT_LEVEL env)) as [current|] eqn:Hc;
      [|reflexivity].
    unfold LOG_LEVEL_ORDER_of in Hc.
    repeat (destruct (String.eqb _ _); [injection Hc as <-; reflexivity|]). discriminate.
  - intros low high Hle. unfold log_prints.
    destruct (LOG_LEVEL_ORDER_of (CURRENT_LEVEL env)) as [current|]; [|done].
    rewrite !negb_true_iff, !Z.ltb_ge. lia.
  - intros [->| ->]; split; reflexivity.
  - intros Hc level. unfold log_prints. by rewrite Hc.
Qed.

Lemma logger_threshold_witness :
  log_prints (Some "verbose") debug = true /\ log_prints None debug = false.
Proof.
  split.
  - exact (proj2 (proj2 (proj2 (proj2 (logger_threshold (Some "verbose"))))) eq_refl debug).
  - exact (proj1 (proj1 (proj2 (proj2 (proj2 (logger_threshold None)))) (or_introl eq_refl))).
Defined.

(** ** Paging *)

Lemma totalPages_covers (total : nat) (perPage : Z) :
  (0 < perPage)%Z ->
  (1 <= totalPages total perPage)%Z /\
  (Z.of_nat total <= totalPages total perPage * perPage)%Z /\
  ((0 < total)%nat -> ((totalPages total perPage - 1) * perPage < Z.of_nat total)%Z).
Proof.
  intros Hp. unfold totalPages, Math_ceil.
  set (x := inject_Z (Z.of_nat total) / inject_Z perPage).
  assert (Hp' : 0 < inject_Z perPage) by (change 0 with (inject_Z 0); rewrite <- Zlt_Qlt; exact Hp).
  assert (Hx : x * inject_Z perPage == inject_Z (Z.of_nat total)).
  { unfold x. field. intros E. rewrite E in Hp'. apply (Qlt_irrefl 0), Hp'. }
  pose proof (Qle_ceiling x) as Hup.
  pose proof (Qceiling_lt x) as Hlow.
  set (c := Qceiling x) in *.
  assert (Hup' : (Z.of_nat total <= c * perPage)%Z).
  { rewrite Zle_Qle, inject_Z_mult, <- Hx. apply Qmult_le_compat_r; [exact Hup|].
    apply Qlt_le_weak, Hp'. }
  assert (Hlow' : ((c - 1) * perPage < Z.of_nat total)%Z).
  { rewrite Zlt_Qlt, inject_Z_mult, <- Hx. apply Qmult_lt_compat_r; [exact Hp'|exact Hlow]. }
  split; [lia|]. split; [nia|].
  intros Ht.
  destruct (Z.max_spec 1 c) as [[Hc ->]|[Hc ->]]; [exact Hlow'|lia].
Qed.

Lemma totalPages_mono (total total' : nat) (perPage : Z) :
  (0 < perPage)%Z -> (total <= total')%nat ->
  (totalPages total perPage <= totalPages total' perPage)%Z.
Proof.
  intros Hp Hle. unfold totalPages, Math_ceil.
  apply Z.max_le_compat_l, Qceiling_resp_le.
  assert (Hp' : 0 < inject_Z perPage) by (change 0 with (inject_Z 0); rewrite <- Zlt_Qlt; exact Hp).
  apply Qmult_le_compat_r.
  - rewrite <- Zle_Qle. lia.
  - apply Qlt_le_weak, Qinv_lt_0_compat, Hp'.
Qed.

Lemma array_slice_window {A : Type} (l : list A) (size k : nat) :
  array_slice l (Z.of_nat (k * size))
    (Z.min (Z.of_nat (k * size) + Z.of_nat size) (Z.of_nat (length l)))
  = take size (drop (k * size) l).
Proof.
  unfold array_slice, js_index.
  destruct (Z.ltb_spec (Z.of_nat (k * size)) 0) as [H|_]; [lia|].
  destruct (Z.ltb_spec (Z.min (Z.of_nat (k * size) + Z.of_nat size) (Z.of_nat (length l))) 0)
    as [H|_]; [lia|].
  rewrite Nat2Z.id.
  destruct (Nat.le_gt_cases (k * size) (length l)) as [Hin|Hout].
  - rewrite (Nat.min_l (k * size)) by exact Hin.
    destruct (Nat.le_gt_cases (k * size + size) (length l)) as [Hfull|Hpart].
    + replace (Nat.min _ (length l) - k * size)%nat with size by lia. reflexivity.
    + replace (Nat.min _ (length l) - k * size)%nat with (length (drop (k * size) l))
        by (rewrite length_drop; lia).
      rewrite firstn_all. symmetry. apply take_ge. rewrite length_drop. lia.
  - rewrite (Nat.min_r (k * size)) by lia.
    replace (Nat.min _ (length l) - length l)%nat with 0%nat by lia.
    rewrite (drop_ge l (length l)) by lia. rewrite (drop_ge l (k * size)) by lia.
    destruct size; reflexivity.
Qed.

Lemma windows_cover {A : Type} (size : nat) (pages : nat) :
  forall (l : list A) (first : nat),
    (length l <= (first + pages) * size)%nat ->
    concat (map (fun k => take size (drop (k * size) l)) (seq first pages))
    = drop (first * size) l.
Proof.
  induction pages as [|pages IH]; intros l first Hlen.
  - simpl. rewrite drop_ge by lia. reflexivity.
  - simpl. rewrite IH by lia.
    replace (S first * size)%nat with (first * size + size)%nat by lia.
    rewrite <- drop_drop. apply take_drop.
Qed.

Lemma pageValidators_window {A : Type} (s : PagedState) (rows : list A) :
  (0 < validatorsPerPage s)%Z ->
  exists k : nat,
    Z.of_nat (S k) = Z.min (Z.max 1 (currentPage s))
                       (totalPages (length rows) (validatorsPerPage s)) /\
    pageValidators s rows
    = take (Z.to_nat (validatorsPerPage s)) (drop (k * Z.to_nat (validatorsPerPage s)) rows).
Proof.
  intros Hp. unfold pageValidators. cbv zeta.
  destruct (totalPages_covers (length rows) _ Hp) as (H1 & _ & _).
  set (page := Z.min _ _).
  assert (Hpage : (1 <= page)%Z) by (unfold page; lia).
  exists (Z.to_nat (page - 1)). split; [lia|].
  rewrite <- array_slice_window. f_equal; [|f_equal]; nia.
Qed.

(** X28. Paging shows each row of the table on exactly one page: with a
    positive page size, the pages 1 to [totalPages], one after the
    other, are the rows in their order.  Whatever the page number of the
    state, the page shown has at most [validatorsPerPage] rows, and it
    is not empty unless the table is. *)
Theorem pages_partition_table {A : Type} (s : PagedState) (rows : list A) :
  (0 < validatorsPerPage s)%Z ->
  concat (map (fun k => pageValidators (with_currentPage s (Z.of_nat k)) rows)
            (seq 1 (Z.to_nat (totalPages (length rows) (validatorsPerPage s)))))
    = rows /\
  (Z.of_nat (length (pageValidators s rows)) <= validatorsPerPage s)%Z /\
  (rows <> [] -> pageValidators s rows <> []).
Proof.
  intros Hp.
  destruct (totalPages_covers (length rows) _ Hp) as (H1 & Hup & Hlow).
  set (size := Z.to_nat (validatorsPerPage s)) in *.
  set (pages := totalPages (length rows) (validatorsPerPage s)) in *.
  split; [|split].
  - transitivity (concat (map (fun k => take size (drop (k * size) rows))
                            (seq 0 (Z.to_nat pages)))).
    + rewrite <- (fmap_S_seq 0). change (S <$> ?l) with (map S l). rewrite map_map.
      f_equal. apply map_ext_in. intros k Hk. apply in_seq in Hk.
      destruct (pageValidators_window (with_currentPage s (Z.of_nat (S k))) rows Hp)
        as (k' & Hk' & ->).
      simpl in Hk'. fold pages in Hk'.
      assert (k' = k) as -> by lia. reflexivity.
    + rewrite windows_cover; [reflexivity|]. simpl. nia.
  - destruct (pageValidators_window s rows Hp) as (k & _ & ->).
    rewrite length_take. fold size. lia.
  - intros Hrows.
    destruct (pageValidators_window s rows Hp) as (k & Hk & ->). fold size pages in Hk |- *.
    assert (Hlen : (0 < length rows)%nat) by (destruct rows; [done|simpl; lia]).
    specialize (Hlow Hlen).
    assert (Hin : (k * size < length rows)%nat) by nia.
    intros E. apply (f_equal length) in E. rewrite length_take, length_drop in E.
    simpl in E. lia.
Qed.

Lemma pages_partition_table_witness :
  let s := mkPagedState (initialState (mkPoolData "R" 0 [])) 7 2 in
  pageValidators s [1; 2; 3; 4; 5]%nat <> [] /\
  concat (map (fun k => pageValidators (with_currentPage s (Z.of_nat k)) [1; 2; 3; 4; 5]%nat)
            (seq 1 (Z.to_nat (totalPages 5 2)))) = [1; 2; 3; 4; 5]%nat.
Proof.
  intros s.
  pose proof (pages_partition_table s [1; 2; 3; 4; 5]%nat eq_refl) as (Hall & _ & Hne).
  split; [apply Hne; discriminate|exact Hall].
Defined.

(** X29. The page number stays among the pages: with a positive page
    size and a page number between 1 and [totalPages], the commands [n]
    and [p] leave it in that range, [normalizePage] changes nothing, and
    it is still in range after validators are added to the lists.  From
    any page number of at least 1, [normalizePage] brings it into
    range. *)
Theorem page_stays_in_range (s : PagedState) :
  (0 < validatorsPerPage s)%Z ->
  (pageInRange s ->
     pageInRange (nextPage s) /\ pageInRange (previousPage s) /\ normalizePage s = s /\
     forall s', currentPage s' = currentPage s ->
       validatorsPerPage s' = validatorsPerPage s ->
       (pagedCount s <= pagedCount s')%nat -> pageInRange s') /\
  ((1 <= currentPage s)%Z -> pageInRange (normalizePage s)).
Proof.
  intros Hp. unfold pageInRange, nextPage, previousPage, normalizePage. cbv zeta.
  destruct (totalPages_covers (pagedCount s) _ Hp) as (H1 & _ & _).
  split.
  - intros [Hlo Hhi]. split; [|split; [|split]].
    + destruct (Z.ltb_spec (currentPage s) (totalPages (pagedCount s) (validatorsPerPage s)));
        simpl; unfold pagedCount in *; simpl; lia.
    + destruct (Z.ltb_spec 1 (currentPage s)); simpl; unfold pagedCount in *; simpl; lia.
    + destruct (Z.ltb_spec (totalPages (pagedCount s) (validatorsPerPage s)) (currentPage s));
        [lia|reflexivity].
    + intros s' Hc Hv Hn. rewrite Hc, Hv.
      pose proof (totalPages_mono _ _ _ Hp Hn). lia.
  - intros Hlo.
    destruct (Z.ltb_spec (totalPages (pagedCount s) (validatorsPerPage s)) (currentPage s));
      simpl; unfold pagedCount in *; simpl; lia.
Qed.

Lemma page_stays_in_range_witness :
  let s := mkPagedState (initialState (mkPoolData "R" 0 [])) 3 15 in
  pageInRange (normalizePage s) /\ currentPage (normalizePage s) = 1%Z.
Proof.
  intros s. split.
  - apply (proj2 (page_stays_in_range s eq_refl)). discriminate.
  - reflexivity.
Defined.

(** * The program's own numbers *)

Section Binary64Facts.

Local Open Scope float_scope.

(** With sums that compare, [validate] over binary64 numbers decides the
    two rules of the specification: the increase is at most the
    available reserve plus 0.01 and the total target at least the
    minimum minus 0.01, each sum computed as the code computes it. *)
Lemma validate_binary64_rules (s : Binary64.EditState) :
  Binary64.comparable (Binary64.totalNeeded s) (Binary64.availableReserve s + 0.01) ->
  Binary64.comparable (Binary64.totalWithNew s) (Binary64.minStaked s - 0.01) ->
  Binary64.validate s = true <->
  Binary64.ruleIncrease s = true /\ Binary64.ruleMinimum s = true.
Proof.
  unfold Binary64.comparable, Binary64.validate, Binary64.ruleIncrease,
    Binary64.ruleMinimum, Binary64.js_gt, Binary64.js_lt, Binary64.js_le, Binary64.js_ge.
  intros Ha Hb.
  destruct (PrimFloat.compare (Binary64.totalNeeded s) _);
    destruct (PrimFloat.compare (Binary64.totalWithNew s) _);
    try congruence; split; try tauto; intros [? ?]; congruence.
Qed.

(** Whatever the sums, [validate] rejects exactly when one of its two
    tests holds; a sum that is [NaN] fails both tests and is accepted. *)
Lemma validate_binary64_tests (s : Binary64.EditState) :
  Binary64.validate s = false <->
  Binary64.js_gt (Binary64.totalNeeded s) (Binary64.availableReserve s + 0.01) = true \/
  Binary64.js_lt (Binary64.totalWithNew s) (Binary64.minStaked s - 0.01) = true.
Proof.
  unfold Binary64.validate.
  destruct (Binary64.js_gt _ _); [by split; [left|]|].
  destruct (Binary64.js_lt _ _); [by split; [right|]|].
  split; [discriminate|]. by intros [H|H].
Qed.

(** C2.  The rule of the specification fails on a plan the loop can
    build.  One validator A with 100 SOL: [s 1 Infinity] is accepted,
    since [Infinity] is not [NaN], and [- 1 Infinity] then stores
    [Infinity - Infinity], which is [NaN] and not below 0; neither
    command prints an error.  The total target of the plan is [NaN], so
    rule (b), total target at least the minimum minus 0.01, does not
    hold; both tests of [validate] are false on [NaN] and it answers
    [true]. *)
Theorem validate_accepts_nan_plan :
  let s0 := Binary64.mkEditState [Binary64.sampleValidator "A" 100 100 keep] [] "R" 0 in
  let cs := [Binary64.CmdSet 0 infinity; Binary64.CmdSub 0 infinity] in
  let s := Binary64.run s0 cs in
  Binary64.outcomes s0 cs = [None; None] /\
  map Binary64.targetBalance (Binary64.validators s) = [Some nan] /\
  Binary64.isNaN (Binary64.totalWithNew s) = true /\
  Binary64.ruleMinimum s = false /\
  Binary64.validate s = true.
Proof. vm_compute. repeat split. Qed.

(** At one active validator with 9,131,451.261505608 SOL and
    4.031293592 SOL freed, the program's rebalance ends at
    9131455.292799203 where the decimal sum is 9131455.292799200: above
    2^53 lamports binary64 no longer tells lamports apart, which is what
    the allowance of [autoRebalance_conservation] is for. *)
Lemma autoRebalance_binary64_large_pool :
  let s := Binary64.mkEditState
    [Binary64.sampleValidator "A" 9131451.261505608 9131451.261505608 keep;
     Binary64.sampleValidator "R" 4.031293592 0 remove] [] "R" 0 in
  map Binary64.targetBalance (Binary64.validators (Binary64.autoRebalance s).1)
  = [Some 9131455.292799203; Some 0].
Proof. vm_compute. reflexivity. Qed.

(** On that state the drift of the program's result from the exact sum
    of its inputs is beyond a lamport and a half and within the
    tolerance with the allowance: the magnitude is twice the balance of
    A plus that of R, for two records. *)
Lemma autoRebalance_binary64_within_allowance :
  let a := Binary64.exact 9131451.261505608 in
  let r := Binary64.exact 4.031293592 in
  let final := Binary64.exact 9131455.292799203 in
  let drift := (final - (a + r))%Q in
  (rebalanceTolerance 1 < drift)%Q /\
  (drift <= rebalanceTolerance 1 + roundingAllowance 2 (a + a + r))%Q.
Proof. vm_compute. split; [reflexivity|discriminate]. Qed.

(** The five validators at 0 with two lamports freed lose the two
    lamports in binary64 as they do over the rationals. *)
Lemma autoRebalance_binary64_loses_two_lamports :
  let s := Binary64.mkEditState
    [Binary64.sampleValidator "A" 0 0 keep; Binary64.sampleValidator "B" 0 0 keep;
     Binary64.sampleValidator "C" 0 0 keep; Binary64.sampleValidator "D" 0 0 keep;
     Binary64.sampleValidator "E" 0 0 keep;
     Binary64.sampleValidator "F" 0.000000002 0 remove] [] "R" 0 in
  (Binary64.autoRebalance s).2 = Redistributed /\
  map Binary64.targetBalance (Binary64.validators (Binary64.autoRebalance s).1)
  = [Some 0; Some 0; Some 0; Some 0; Some 0; Some 0].
Proof. vm_compute. split; reflexivity. Qed.

(** Targets 0, 100, 100 with 60 freed, and 0, 10, 100 with 90 freed, in
    binary64: the lowest is filled first. *)
Lemma autoRebalance_binary64_fill_order :
  (let s := Binary64.mkEditState
     [Binary64.sampleValidator "B" 100 100 keep; Binary64.sampleValidator "D" 60 0 remove;
      Binary64.sampleValidator "C" 100 100 keep; Binary64.sampleValidator "A" 0 0 keep]
     [] "R" 0 in
   map Binary64.targetBalance (Binary64.validators (Binary64.autoRebalance s).1)
   = [Some 100; Some 0; Some 100; Some 60]) /\
  (let s := Binary64.mkEditState
     [Binary64.sampleValidator "C" 100 100 keep; Binary64.sampleValidator "B" 10 10 keep;
      Binary64.sampleValidator "D" 90 0 remove; Binary64.sampleValidator "A" 0 0 keep]
     [] "R" 0 in
   map Binary64.targetBalance (Binary64.validators (Binary64.autoRebalance s).1)
   = [Some 100; Some 33.333333333; Some 0; Some 66.666666667]).
Proof. vm_compute. split; reflexivity. Qed.

(** Why the statements about exact amounts stop at a million SOL.  Above
    2^51 lamports binary64 no longer keeps lamports apart: at 2,500,000
    SOL adding three lamports and subtracting them again leaves the
    target a lamport higher, and at 4,300,000 SOL [roundToLamports] moves
    a number it has already rounded.  At 250,000 SOL both are exact. *)
Lemma lamports_binary64_range :
  (let s := Binary64.mkEditState
              [Binary64.sampleValidator "A" 2500000.000000001 2500000.000000001 keep]
              [] "R" 0 in
   map Binary64.targetBalance
     (Binary64.validators
        (Binary64.run s [Binary64.CmdAdd 0 0.000000003; Binary64.CmdSub 0 0.000000003]))
   = [Some 2500000.000000002]) /\
  (let s := Binary64.mkEditState
              [Binary64.sampleValidator "A" 250000.000000001 250000.000000001 keep]
              [] "R" 0 in
   map Binary64.targetBalance
     (Binary64.validators
        (Binary64.run s [Binary64.CmdAdd 0 0.000000003; Binary64.CmdSub 0 0.000000003]))
   = [Some 250000.000000001]) /\
  Binary64.roundToLamports 4300000.000000007 = 4300000.000000008 /\
  Binary64.roundToLamports 4300000.000000008 = 4300000.000000009 /\
  Binary64.roundToLamports (Binary64.roundToLamports 430000.000000007)
  = Binary64.roundToLamports 430000.000000007.
Proof. vm_compute. repeat split. Qed.

End Binary64Facts.
